(** * SME contract engine: the analysis pipeline of [backend/analysis.py]

    A shallow embedding of the clause segmentation, intent and risk
    classification, template matching, scoring and renegotiation code of
    the repository, followed by the properties its specification states.

    Conventions of the embedding.
    - A Python [str] is a [string]: a sequence of code points 0..255.
      The character predicates below ([isspace], [isalnum], [lower_char],
      line boundaries) are Python's on that range.
    - [re] patterns are values of [Re.regex], run by a backtracking matcher
      with Python's priorities (leftmost, alternatives in order, greedy or
      lazy repetition).  Every pattern is written next to its source text.
    - A Python [float] is a rational that a binary64 number can hold;
      [B64.round_ne] is IEEE 754 rounding to nearest, ties to even, and each
      float operation is the rounded exact result.
    - The clock and the translation service are read from an explicit
      environment ([Env]). *)

From Stdlib Require Import Bool Arith ZArith NArith QArith Qround Lia Lqa List.
From Stdlib Require Import Ascii String Permutation Sorted.
From Stdlib Require Import PrimFloat Uint63.
From Stdlib Require DecimalString.
Import ListNotations.

Local Open Scope string_scope.
Local Open Scope list_scope.

(* ================================================================== *)
(** ** Python string primitives *)
(* ================================================================== *)

Module Py.

Definition ord (c : ascii) : N := N_of_ascii c.

Definition in_range (lo hi : N) (c : ascii) : bool :=
  ((lo <=? ord c) && (ord c <=? hi))%N.

(** [str.isspace] for one character: TAB..CR, FS..US, space, NEL, NBSP. *)
Definition isspace (c : ascii) : bool :=
  in_range 9 13 c || in_range 28 32 c || (ord c =? 133)%N || (ord c =? 160)%N.

(** The line boundaries of [str.splitlines] (CR LF is handled there). *)
Definition is_linebreak (c : ascii) : bool :=
  in_range 10 13 c || in_range 28 30 c || (ord c =? 133)%N.

Definition isdigit (c : ascii) : bool := in_range 48 57 c.
Definition isupper_ascii (c : ascii) : bool := in_range 65 90 c.
Definition islower_ascii (c : ascii) : bool := in_range 97 122 c.

(** [str.isalnum] for one character (what the pattern class \w accepts,
    the underscore apart). *)
Definition isalnum (c : ascii) : bool :=
  isdigit c || isupper_ascii c || islower_ascii c
  || (ord c =? 170)%N || in_range 178 179 c || (ord c =? 181)%N
  || in_range 185 186 c || in_range 188 190 c
  || in_range 192 214 c || in_range 216 246 c || in_range 248 255 c.

(** [str.lower] on one character: A-Z and the upper-case letters of
    U+00C0..U+00DE (the multiplication sign apart) move 32 up. *)
Definition lower_char (c : ascii) : ascii :=
  if isupper_ascii c || in_range 192 214 c || in_range 216 222 c
  then ascii_of_N (ord c + 32) else c.

Fixpoint lower (s : string) : string :=
  match s with
  | EmptyString => EmptyString
  | String c s' => String (lower_char c) (lower s')
  end.

Fixpoint lstrip (s : string) : string :=
  match s with
  | EmptyString => EmptyString
  | String c s' => if isspace c then lstrip s' else s
  end.

Fixpoint rstrip (s : string) : string :=
  match s with
  | EmptyString => EmptyString
  | String c s' =>
      match rstrip s' with
      | EmptyString => if isspace c then EmptyString else String c EmptyString
      | r => String c r
      end
  end.

Definition strip (s : string) : string := rstrip (lstrip s).

(** Python's truth value of a string. *)
Definition truthy (s : string) : bool :=
  match s with EmptyString => false | _ => true end.

Definition cons_char (c : ascii) (ls : list string) : list string :=
  match ls with
  | [] => [String c EmptyString]
  | l :: ls' => String c l :: ls'
  end.

(** [str.splitlines()]: no line for the end of the text after a final
    boundary; CR LF is one boundary. *)
Fixpoint splitlines (s : string) : list string :=
  match s with
  | EmptyString => []
  | String c s' =>
      if (ord c =? 13)%N then
        match s' with
        | String d s'' =>
            if (ord d =? 10)%N then EmptyString :: splitlines s''
            else EmptyString :: splitlines s'
        | EmptyString => [EmptyString]
        end
      else if is_linebreak c then EmptyString :: splitlines s'
      else cons_char c (splitlines s')
  end.

(** [str.split()] with no argument: the maximal runs of non-space. *)
Fixpoint split_from (cur s : string) : list string :=
  match s with
  | EmptyString => if truthy cur then [cur] else []
  | String c s' =>
      if isspace c
      then (if truthy cur then cur :: split_from EmptyString s'
            else split_from EmptyString s')
      else split_from (cur ++ String c EmptyString) s'
  end.

Definition split (s : string) : list string := split_from EmptyString s.

(** [sep.join(l)] *)
Fixpoint join (sep : string) (l : list string) : string :=
  match l with
  | [] => EmptyString
  | [x] => x
  | x :: l' => x ++ sep ++ join sep l'
  end.

(** [needle in hay] *)
Fixpoint isin (needle hay : string) : bool :=
  String.prefix needle hay ||
  match hay with
  | EmptyString => false
  | String _ hay' => isin needle hay'
  end.

(** [any(k in s for k in ks)] *)
Definition any_in (ks : list string) (s : string) : bool :=
  existsb (fun k => isin k s) ks.

(** [s[:n]] *)
Definition take (n : nat) (s : string) : string := String.substring 0 n s.

(** [s[a:b]] for [a <= b] *)
Definition slice (a b : nat) (s : string) : string :=
  String.substring a (b - a) s.

(** [str(n)] for a non-negative integer *)
Definition str_of_nat (n : nat) : string :=
  DecimalString.NilZero.string_of_uint (Nat.to_uint n).

(** [x in l] for a list of strings *)
Definition mem (x : string) (l : list string) : bool :=
  existsb (String.eqb x) l.

(** [list(dict.fromkeys(l))]: first occurrences, in order. *)
Fixpoint dedup_from (seen l : list string) : list string :=
  match l with
  | [] => []
  | x :: l' =>
      if mem x seen then dedup_from seen l'
      else x :: dedup_from (x :: seen) l'
  end.

Definition dedup (l : list string) : list string := dedup_from [] l.

(** [list.sort(key=...)] and [sorted(..., key=...)]: a stable sort.
    [le x y] is [key(x) <= key(y)]; an element goes before the first one
    whose key is not smaller, so equal keys keep their order. *)
Fixpoint insert_by {A : Type} (le : A -> A -> bool) (x : A) (l : list A)
  : list A :=
  match l with
  | [] => [x]
  | y :: l' => if le x y then x :: y :: l' else y :: insert_by le x l'
  end.

Definition sort_by {A : Type} (le : A -> A -> bool) (l : list A) : list A :=
  fold_right (insert_by le) [] l.

(** [enumerate(l, start=i)] *)
Fixpoint enumerate {A : Type} (i : nat) (l : list A) : list (nat * A) :=
  match l with
  | [] => []
  | x :: l' => (i, x) :: enumerate (S i) l'
  end.

Definition nl : string := String (ascii_of_N 10) EmptyString.

End Py.

(* ================================================================== *)
(** ** Patterns of Python's [re], by backtracking *)
(* ================================================================== *)

Module Re.

Inductive regex : Type :=
| Eps                                   (* the empty pattern *)
| Chr (p : ascii -> bool)               (* one character accepted by [p] *)
| Seq (a b : regex)                     (* ab *)
| Alt (a b : regex)                     (* a|b, [a] tried first *)
| Star (a : regex)                      (* a*, greedy *)
| LazyStar (a : regex)                  (* a*?, lazy *)
| Group (i : nat) (a : regex)           (* capture group number [i] *)
| Bol                                   (* ^ *)
| Eol                                   (* $ *)
| WordB.                                (* \b *)

(** Where the matcher stands: the character before, the text ahead, and
    the index of the next character. *)
Record cursor : Type := mkCursor {
  prev : option ascii;
  rest : string;
  pos : nat
}.

(** Captures: group number, start and end index; the latest first. *)
Definition caps : Type := list (nat * (nat * nat)).

Definition mstate : Type := (cursor * caps)%type.

Definition start_of (s : string) : cursor := mkCursor None s 0.

Definition is_word (c : ascii) : bool := Py.isalnum c || (Py.ord c =? 95)%N.

Definition word_before (cur : cursor) : bool :=
  match prev cur with Some c => is_word c | None => false end.

Definition word_after (cur : cursor) : bool :=
  match rest cur with String c _ => is_word c | EmptyString => false end.

(** $ holds at the end of the text and before a newline that ends it. *)
Definition at_eol (cur : cursor) : bool :=
  match rest cur with
  | EmptyString => true
  | String c EmptyString => (Py.ord c =? 10)%N
  | _ => false
  end.

Definition orelse {A : Type} (x y : option A) : option A :=
  match x with Some _ => x | None => y end.

(** [run r st k]: the first way, in Python's order of preference, to match
    [r] at [st] such that the continuation [k] succeeds on what follows. *)
Fixpoint run (r : regex) (st : mstate) (k : mstate -> option mstate)
  {struct r} : option mstate :=
  match r with
  | Eps => k st
  | Chr p =>
      match rest (fst st) with
      | String c s' =>
          if p c then k (mkCursor (Some c) s' (S (pos (fst st))), snd st)
          else None
      | EmptyString => None
      end
  | Seq a b => run a st (fun st' => run b st' k)
  | Alt a b => orelse (run a st k) (run b st k)
  | Star a =>
      (fix iter (fuel : nat) (st0 : mstate) {struct fuel} : option mstate :=
         match fuel with
         | O => k st0
         | S fuel' =>
             orelse
               (run a st0 (fun st' =>
                  if (pos (fst st') <=? pos (fst st0))%nat then None
                  else iter fuel' st'))
               (k st0)
         end) (String.length (rest (fst st))) st
  | LazyStar a =>
      (fix iter (fuel : nat) (st0 : mstate) {struct fuel} : option mstate :=
         match fuel with
         | O => k st0
         | S fuel' =>
             orelse
               (k st0)
               (run a st0 (fun st' =>
                  if (pos (fst st') <=? pos (fst st0))%nat then None
                  else iter fuel' st'))
         end) (String.length (rest (fst st))) st
  | Group i a =>
      run a st (fun st' =>
        k (fst st', (i, (pos (fst st), pos (fst st'))) :: snd st'))
  | Bol => if (pos (fst st) =? 0)%nat then k st else None
  | Eol => if at_eol (fst st) then k st else None
  | WordB =>
      if xorb (word_before (fst st)) (word_after (fst st)) then k st else None
  end.

(** A match: where it starts, where it ends, and its groups. *)
Record rmatch : Type := mkMatch {
  m_start : nat;
  m_end : nat;
  m_caps : caps;
  m_after : cursor
}.

Definition match_at (r : regex) (cur : cursor) : option rmatch :=
  match run r (cur, []) (fun st => Some st) with
  | Some (cur', cs) => Some (mkMatch (pos cur) (pos cur') cs cur')
  | None => None
  end.

Definition step_cursor (cur : cursor) : option cursor :=
  match rest cur with
  | String c s' => Some (mkCursor (Some c) s' (S (pos cur)))
  | EmptyString => None
  end.

(** The leftmost match at or after [cur]. *)
Fixpoint search_from (r : regex) (fuel : nat) (cur : cursor) : option rmatch :=
  match match_at r cur with
  | Some m => Some m
  | None =>
      match fuel with
      | O => None
      | S fuel' =>
          match step_cursor cur with
          | Some cur' => search_from r fuel' cur'
          | None => None
          end
      end
  end.

(** [pattern.match(s)] and [re.search(pattern, s)] *)
Definition found (o : option rmatch) : bool :=
  match o with Some _ => true | None => false end.

Definition pmatch (r : regex) (s : string) : option rmatch :=
  match_at r (start_of s).

Definition search (r : regex) (s : string) : option rmatch :=
  search_from r (String.length s) (start_of s).

(** [re.finditer]: the matches from left to right, each search starting
    where the match before ended (one character further after an empty
    match). *)
Fixpoint finditer_from (r : regex) (fuel : nat) (cur : cursor) : list rmatch :=
  match fuel with
  | O => []
  | S fuel' =>
      match search_from r (String.length (rest cur)) cur with
      | None => []
      | Some m =>
          if (m_start m <? m_end m)%nat
          then m :: finditer_from r fuel' (m_after m)
          else match step_cursor (m_after m) with
               | Some cur' => m :: finditer_from r fuel' cur'
               | None => [m]
               end
      end
  end.

Definition finditer (r : regex) (s : string) : list rmatch :=
  finditer_from r (S (String.length s)) (start_of s).

(** [m.group(0)] and [m.group(i)] on the text that was searched. *)
Definition group0 (s : string) (m : rmatch) : string :=
  Py.slice (m_start m) (m_end m) s.

Fixpoint lookup_cap (i : nat) (cs : caps) : option (nat * nat) :=
  match cs with
  | [] => None
  | (j, se) :: cs' => if (i =? j)%nat then Some se else lookup_cap i cs'
  end.

Definition group (s : string) (m : rmatch) (i : nat) : option string :=
  match lookup_cap i (m_caps m) with
  | Some (a, b) => Some (Py.slice a b s)
  | None => None
  end.

(** [re.findall] for a pattern with no group, and with exactly one group
    (a group that took no part gives the empty string). *)
Definition findall0 (r : regex) (s : string) : list string :=
  map (group0 s) (finditer r s).

Definition findall1 (r : regex) (s : string) : list string :=
  map (fun m => match group s m 1 with Some g => g | None => EmptyString end)
      (finditer r s).

(** *** Building patterns *)

Definition chr_eq (x : ascii) : regex := Chr (Ascii.eqb x).

(** A literal character under [re.IGNORECASE]. *)
Definition chr_ci (x : ascii) : regex :=
  Chr (fun c => Ascii.eqb (Py.lower_char c) (Py.lower_char x)).

Fixpoint lit (s : string) : regex :=
  match s with
  | EmptyString => Eps
  | String c EmptyString => chr_eq c
  | String c s' => Seq (chr_eq c) (lit s')
  end.

Fixpoint liti (s : string) : regex :=
  match s with
  | EmptyString => Eps
  | String c EmptyString => chr_ci c
  | String c s' => Seq (chr_ci c) (liti s')
  end.

Fixpoint seqs (rs : list regex) : regex :=
  match rs with
  | [] => Eps
  | [r] => r
  | r :: rs' => Seq r (seqs rs')
  end.

Fixpoint alts (rs : list regex) : regex :=
  match rs with
  | [] => Chr (fun _ => false)
  | [r] => r
  | r :: rs' => Alt r (alts rs')
  end.

Definition plus (a : regex) : regex := Seq a (Star a).          (* a+ *)
Definition lazy_plus (a : regex) : regex := Seq a (LazyStar a). (* a+? *)
Definition opt (a : regex) : regex := Alt a Eps.                (* a? *)

(** a{n} and a{lo,hi}, greedy *)
Fixpoint times (n : nat) (a : regex) : regex :=
  match n with
  | O => Eps
  | S n' => Seq a (times n' a)
  end.

Fixpoint upto (n : nat) (a : regex) : regex :=
  match n with
  | O => Eps
  | S n' => opt (Seq a (upto n' a))
  end.

Definition between (lo hi : nat) (a : regex) : regex :=
  Seq (times lo a) (upto (hi - lo) a).

Definition at_least (lo : nat) (a : regex) : regex :=       (* a{lo,} *)
  Seq (times lo a) (Star a).

Definition space : regex := Chr Py.isspace.                 (* \s *)
Definition digit : regex := Chr Py.isdigit.                 (* \d *)
Definition dot_all : regex := Chr (fun _ => true).          (* . with DOTALL *)
Definition one_of (s : string) : regex :=                   (* [...] of literals *)
  Chr (fun c => Py.isin (String c EmptyString) s).

End Re.

(* ================================================================== *)
(** ** Python floats: binary64 values as rationals *)
(* ================================================================== *)

Module B64.

Local Open Scope Z_scope.

(** [a / b] scaled by [2^s], as a fraction. *)
Definition scale (s a b : Z) : Z * Z :=
  if 0 <=? s then (a * 2 ^ s, b) else (a, b * 2 ^ (- s)).

(** The significand of 53 bits nearest to [a / b * 2^s] ([a], [b] positive),
    ties to the even one. *)
Definition nearest_even (n d : Z) : Z :=
  let m := n / d in
  let r := n mod d in
  if 2 * r <? d then m
  else if d <? 2 * r then m + 1
  else if Z.even m then m else m + 1.

(** The exponent [s] with [2^52 <= a / b * 2^s < 2^53]. *)
Definition shift_of (a b : Z) : Z :=
  let s0 := 52 - (Z.log2 a - Z.log2 b) in
  let '(n0, d0) := scale s0 a b in
  if n0 / d0 <? 2 ^ 52 then s0 + 1 else s0.

Definition round_pos (a b : Z) : Q :=
  let s := shift_of a b in
  let '(n, d) := scale s a b in
  let m := nearest_even n d in
  Qred (if 0 <=? s then Qmake m (Z.to_pos (2 ^ s))
        else Qmake (m * 2 ^ (- s)) 1).

(** Rounding to the nearest binary64 number, ties to even (no overflow
    or subnormal range: the values of this program lie in [2^-10, 2^60]). *)
Definition round_ne (q : Q) : Q :=
  let q' := Qred q in
  match Qnum q' with
  | Z0 => 0%Q
  | Zpos a => round_pos (Zpos a) (Zpos (Qden q'))
  | Zneg a => Qopp (round_pos (Zpos a) (Zpos (Qden q')))
  end.

(** [float(z)], [x / y], [x * y] on floats, and [a / b] on integers
    (Python's true division of integers is the correctly rounded
    quotient). *)
Definition of_int (z : Z) : Q := round_ne (inject_Z z).
Definition fdiv (x y : Q) : Q := round_ne (x / y).
Definition fmul (x y : Q) : Q := round_ne (x * y).
Definition int_truediv (a b : Z) : Q := round_ne (Qmake a (Z.to_pos b)).

(** A decimal literal [n / 10^k] of the source. *)
Definition literal (n : Z) (pow10 : positive) : Q := round_ne (Qmake n pow10).

(** [int(x)]: truncation toward zero. *)
Definition to_int (x : Q) : Z :=
  if Qle_bool 0 x then Qfloor x else Qceiling x.

(** The integer nearest to [q], ties to even. *)
Definition round_half_even (q : Q) : Z :=
  nearest_even (Qnum q) (Zpos (Qden q)).

(** [round(x, 2)]: the nearest number of two decimals (ties to even, on
    the exact value of [x]), as a float. *)
Definition round2 (x : Q) : Q :=
  round_ne (Qmake (round_half_even (x * 100)) 100).

Definition ltb (x y : Q) : bool := negb (Qle_bool y x).
Definition leb (x y : Q) : bool := Qle_bool x y.

(** *** The kernel's binary64 numbers, to test [round_ne] against *)

Definition prim_of_Z (z : Z) : float := PrimFloat.of_uint63 (Uint63.of_Z z).

(** The exact value of a positive, normal kernel float. *)
Definition prim_to_Q (f : float) : Q :=
  let '(m, e) := PrimFloat.frshiftexp f in
  let mant := Uint63.to_Z (PrimFloat.normfr_mantissa m) in
  let ex := Uint63.to_Z e - 2101 - 53 in
  Qred (if 0 <=? ex then Qmake (mant * 2 ^ ex) 1
        else Qmake mant (Z.to_pos (2 ^ (- ex)))).

End B64.

(* ================================================================== *)
(** ** [backend/nlp_utils.py] *)
(* ================================================================== *)

Module NlpUtils.

Import Re.

(** r"\b(reasonable|appropriate|timely|as soon as practicable|forthwith)\s+(time|period|notice|manner)\b" *)
Definition vague_time_re : regex :=
  seqs [WordB;
        Group 1 (alts (map liti ["reasonable"; "appropriate"; "timely";
                                 "as soon as practicable"; "forthwith"]));
        plus space;
        Group 2 (alts (map liti ["time"; "period"; "notice"; "manner"]));
        WordB].

(** r"\b(reasonable|best)\s+efforts?\b" *)
Definition efforts_re : regex :=
  seqs [WordB; Group 1 (alts (map liti ["reasonable"; "best"]));
        plus space; liti "effort"; opt (liti "s"); WordB].

(** r"\b(material|substantial|significant)\s+(breach|default|change|delay)\b" *)
Definition threshold_re : regex :=
  seqs [WordB;
        Group 1 (alts (map liti ["material"; "substantial"; "significant"]));
        plus space;
        Group 2 (alts (map liti ["breach"; "default"; "change"; "delay"]));
        WordB].

(** r"\b(it|this|that|such)\s+(shall|will|may)\b" *)
Definition pronoun_re : regex :=
  seqs [WordB; Group 1 (alts (map lit ["it"; "this"; "that"; "such"]));
        plus space; Group 2 (alts (map lit ["shall"; "will"; "may"])); WordB].

Definition findings_of (r : regex) (reason lower : string)
  : list (string * string) :=
  map (fun m => (group0 lower m, reason)) (finditer r lower).

Definition detect_ambiguity (text : string) : list (string * string) :=
  let lower := Py.lower text in
  let findings :=
    findings_of vague_time_re
      "Vague time or standard; 'reasonable' or 'appropriate' may be interpreted differently."
      lower
    ++ findings_of efforts_re
      "Obligation level unclear; 'reasonable efforts' vs 'best efforts' have different legal weight."
      lower
    ++ findings_of threshold_re
      "Threshold not defined; 'material' or 'substantial' is subjective without a definition."
      lower
    ++ (if Py.isin "including but not limited to" lower
           || Py.isin "including without limitation" lower
        then [("including but not limited to / including without limitation",
               "Scope may be broader than expected; list is non-exhaustive.")]
        else [])
    ++ (if Py.isin "and/or" lower
        then [("and/or", "Ambiguous whether one or both apply; can cause dispute.")]
        else [])
    ++ (if found (search pronoun_re lower)
        then [("it/this/that + shall/will/may",
               "Reference may be unclear; which obligation is referred to?")]
        else []) in
  firstn 15 findings.

(** r"terminat(?:e|ion)\s+(?:for\s+cause|without\s+cause|for\s+convenience|upon\s+\d+\s+days?\s+notice)" *)
Definition terminate_re : regex :=
  seqs [liti "terminat"; Alt (liti "e") (liti "ion"); plus space;
        alts [seqs [liti "for"; plus space; liti "cause"];
              seqs [liti "without"; plus space; liti "cause"];
              seqs [liti "for"; plus space; liti "convenience"];
              seqs [liti "upon"; plus space; plus digit; plus space;
                    liti "day"; opt (liti "s"); plus space; liti "notice"]]].

(** r"(\d+)\s+days?\s+(?:prior\s+)?written\s+notice" *)
Definition written_notice_re : regex :=
  seqs [Group 1 (plus digit); plus space; liti "day"; opt (liti "s");
        plus space; opt (seqs [liti "prior"; plus space]);
        liti "written"; plus space; liti "notice"].

(** r"material\s+breach(?:\s+and\s+(?:failure\s+to\s+)?cure)?" *)
Definition material_breach_re : regex :=
  seqs [liti "material"; plus space; liti "breach";
        opt (seqs [plus space; liti "and"; plus space;
                   opt (seqs [liti "failure"; plus space; liti "to"; plus space]);
                   liti "cure"])].

(** r"either\s+party\s+may\s+terminate" *)
Definition either_party_re : regex :=
  seqs [liti "either"; plus space; liti "party"; plus space; liti "may";
        plus space; liti "terminate"].

Definition extract_termination_conditions (text : string) : list string :=
  let lower := Py.lower text in
  let patterns :=
    [terminate_re; written_notice_re; material_breach_re; either_party_re] in
  let found :=
    flat_map (fun p => map (fun m => Py.strip (group0 lower m))
                           (finditer p lower)) patterns in
  firstn 10 (Py.dedup found).

End NlpUtils.

(* ================================================================== *)
(** ** [backend/clause_templates.py] *)
(* ================================================================== *)

Module ClauseTemplates.

Record Template : Type := mkTemplate {
  t_id : string;
  t_heading : string;
  t_keywords : string
}.

Definition STANDARD_CLAUSE_TEMPLATES : list Template :=
  [ mkTemplate "term_notice" "Term and termination with notice"
      "term, terminate, notice, days, renewal";
    mkTemplate "limitation_liability" "Limitation of liability"
      "liability, limited, cap, exclude, indirect";
    mkTemplate "confidentiality" "Confidentiality"
      "confidential, disclose, non-disclosure, information";
    mkTemplate "ip_rights" "Intellectual property"
      "intellectual property, assign, license, copyright";
    mkTemplate "indemnity" "Indemnity"
      "indemnify, indemnity, hold harmless, claims";
    mkTemplate "payment" "Payment terms"
      "payment, fee, invoice, due, days";
    mkTemplate "governing_law" "Governing law and jurisdiction"
      "governing law, jurisdiction, courts, dispute";
    mkTemplate "arbitration" "Arbitration"
      "arbitration, arbitrator, arbitral";
    mkTemplate "scope_services" "Scope of services / deliverables"
      "scope, services, deliverables, perform";
    mkTemplate "warranty" "Warranty"
      "warranty, represent, warrant" ].

(** [re.sub(r"[^\w\s]", " ", s)]: every character that is neither a word
    character nor a space becomes a space. *)
Fixpoint sub_punct (s : string) : string :=
  match s with
  | EmptyString => EmptyString
  | String c s' =>
      String (if Re.is_word c || Py.isspace c then c else " "%char)
             (sub_punct s')
  end.

Definition _normalize_for_similarity (s : string) : string :=
  Py.join " " (Py.split (sub_punct (Py.lower s))).

Record TemplateMatch : Type := mkTemplateMatch {
  template_id : string;
  template_heading : string;
  match_score : Q;
  matched_keywords : list string
}.

Definition keywords_of (t : Template) : list string :=
  Py.split (_normalize_for_similarity (t_keywords t)).

Definition matched_in (combined : string) (t : Template) : list string :=
  filter (fun k => Py.isin k combined) (keywords_of t).

(** [len(matched) / max(len(keywords), 1)] *)
Definition raw_score (matched keywords : list string) : Q :=
  B64.int_truediv (Z.of_nat (List.length matched))
                  (Z.of_nat (Nat.max (List.length keywords) 1)).

(** [min(1.0, score)] *)
Definition min_one (score : Q) : Q :=
  if B64.ltb score 1 then score else 1%Q.

(** The body of the loop over the templates: what one template appends. *)
Definition match_template (combined : string) (t : Template)
  : list TemplateMatch :=
  let keywords := keywords_of t in
  let matched := matched_in combined t in
  match matched with
  | [] => []
  | _ =>
      let score := raw_score matched keywords in
      if B64.leb (B64.literal 2 10) score
      then [mkTemplateMatch (t_id t) (t_heading t)
              (B64.round2 (min_one score)) (firstn 5 matched)]
      else []
  end.

(** The key of the sort is [-match_score]. *)
Definition by_score_desc (x y : TemplateMatch) : bool :=
  Qle_bool (- match_score x) (- match_score y).

Definition clause_similarity_to_templates (clause_heading clause_body : string)
  : list TemplateMatch :=
  let combined := _normalize_for_similarity (clause_heading ++ " " ++ clause_body) in
  if negb (Py.truthy combined) then []
  else
    let results := flat_map (match_template combined) STANDARD_CLAUSE_TEMPLATES in
    firstn 5 (Py.sort_by by_score_desc results).

End ClauseTemplates.

(* ================================================================== *)
(** ** [backend/llm_client.py] *)
(* ================================================================== *)

Module LlmClient.

(** What the code reads from outside: the process environment, the two
    chat services and the clock.  A service is asked with the API key, the
    model, the token limit, the system text and the prompt; it answers the
    text of its first reply, or nothing when the call raises or the reply
    is empty. *)
Record Env : Type := mkEnv {
  environ : string -> option string;
  anthropic_create : string -> string -> nat -> string -> string -> option string;
  openai_create : string -> string -> nat -> string -> string -> option string;
  utcnow_isoformat : string
}.

(** [os.environ.get(name)] and [os.environ.get(name, default)] *)
Definition environ_get (env : Env) (name : string) : string :=
  match environ env name with Some v => v | None => EmptyString end.

Definition environ_get_default (env : Env) (name default : string) : string :=
  match environ env name with Some v => v | None => default end.

(** Every exception of the call is caught and gives [None]. *)
Definition _call_openai (env : Env) (prompt system : string) (max_tokens : nat)
  : option string :=
  match openai_create env (environ_get env "OPENAI_API_KEY")
          (environ_get_default env "OPENAI_MODEL" "gpt-4o-mini")
          max_tokens system prompt with
  | Some content => if Py.truthy content then Some (Py.strip content) else None
  | None => None
  end.

Definition _call_anthropic (env : Env) (prompt system : string) (max_tokens : nat)
  : option string :=
  match anthropic_create env (environ_get env "ANTHROPIC_API_KEY")
          (environ_get_default env "ANTHROPIC_MODEL" "claude-3-5-sonnet-20241022")
          max_tokens system prompt with
  | Some text => Some (Py.strip text)
  | None => None
  end.

Definition translate_prompt (text : string) : string :=
  "Translate the following contract text to English. Preserve structure (clause numbers, headings). Output only the English translation."
  ++ Py.nl ++ Py.nl ++ Py.take 30000 text.

Definition translate_system : string :=
  "You are a legal translator. Output only the translated English text, no commentary.".

(** [if out: return out] *)
Definition usable (out : option string) : option string :=
  match out with
  | Some o => if Py.truthy o then Some o else None
  | None => None
  end.

Definition normalize_hindi_to_english (env : Env) (text : string) : string :=
  if negb (Py.truthy text) || negb (Py.truthy (Py.strip text)) then text
  else
    match (if Py.truthy (environ_get env "ANTHROPIC_API_KEY")
           then usable (_call_anthropic env (translate_prompt text)
                          translate_system 4000)
           else None) with
    | Some out => out
    | None =>
        match (if Py.truthy (environ_get env "OPENAI_API_KEY")
               then usable (_call_openai env (translate_prompt text)
                              translate_system 4000)
               else None) with
        | Some out => out
        | None => text
        end
    end.

End LlmClient.

(* ================================================================== *)
(** ** [backend/analysis.py] *)
(* ================================================================== *)

Module Analysis.

Import Re.
Export LlmClient.

Definition normalize_language (env : Env) (text : string)
  (language : option string) : string :=
  if negb (Py.truthy text) || negb (Py.truthy (Py.strip text)) then text
  else if String.eqb
            (Py.lower (Py.strip (match language with
                                 | Some l => l
                                 | None => EmptyString
                                 end)))
            "hindi"
  then normalize_hindi_to_english env text
  else text.

Definition detect_contract_type (text : string) : string * string :=
  let lower := Py.lower text in
  if Py.any_in ["non-disclosure"; "confidentiality agreement"; "nondisclosure"; "nda"] lower
  then ("NDA / Confidentiality Agreement",
        "Mentions non-disclosure / confidentiality obligations typical of NDAs.")
  else if Py.any_in ["employment"; "employee"; "employer"; "salary"; "ctc"] lower
  then ("Employment Agreement",
        "Contains terms about employment, employer-employee relationship or salary.")
  else if Py.any_in ["lease"; "rental"; "rent"; "licence to use premises"] lower
  then ("Lease / Rental Agreement",
        "Refers to lease or rental of premises/property.")
  else if Py.any_in ["partner"; "partnership deed"; "profit sharing"] lower
  then ("Partnership Deed",
        "Talks about partners and profit sharing like a partnership.")
  else if Py.any_in ["supplier"; "purchase order"; "supply of goods"; "buyer"; "vendor"] lower
  then ("Vendor / Supplier Contract",
        "Talks about supply of goods, vendors or purchase orders.")
  else if Py.any_in ["services"; "service provider"; "consultant"; "consultancy"; "agency"] lower
  then ("Service Agreement",
        "Describes one party providing services to another.")
  else ("Mixed / Hybrid Contract",
        "No single dominant type detected; appears to mix multiple elements.").

(** *** The structural parser *)

(** The class of the third alternative: [A-Z0-9\s\-,] *)
Definition caps_class (c : ascii) : bool :=
  Py.isupper_ascii c || Py.isdigit c || Py.isspace c
  || Ascii.eqb c "-"%char || Ascii.eqb c ","%char.

(** r"^(\d+)[\)\.]?\s+|^(i+|v+|x+)[\)\.]?\s+|^[A-Z][A-Z0-9\s\-,]{4,}$" *)
Definition top_level : regex :=
  alts [seqs [Bol; Group 1 (plus digit); opt (one_of ")."); plus space];
        seqs [Bol;
              Group 2 (alts [plus (lit "i"); plus (lit "v"); plus (lit "x")]);
              opt (one_of ")."); plus space];
        seqs [Bol; Chr Py.isupper_ascii; at_least 4 (Chr caps_class); Eol]].

(** The source pattern, its parts set apart by blanks:
    r"^( \d+\.\d+ (?:\.\d+)* ) [\)\.]? \s+" *)
Definition sub_level : regex :=
  seqs [Bol;
        Group 1 (seqs [plus digit; lit "."; plus digit;
                       Star (Seq (lit ".") (plus digit))]);
        opt (one_of ")."); plus space].

Record Section : Type := mkSection {
  heading : string;
  body : string
}.

Record Clause : Type := mkClause {
  clause_number : nat;
  c_heading : string;
  c_body : string;
  sub_clauses : list Section
}.

(** The variables of the loop: [clauses], [current], [current_subs]. *)
Record ParseState : Type := mkParseState {
  clauses : list (Section * list Section);
  current : option Section;
  current_subs : list Section
}.

Definition initial : ParseState := mkParseState [] None [].

Definition flush_current (st : ParseState) : ParseState :=
  match current st with
  | Some c => mkParseState (clauses st ++ [(c, current_subs st)]) None []
  | None => mkParseState (clauses st) None []
  end.

(** [body += (newline if body else empty) + stripped] *)
Definition append_line (b stripped : string) : string :=
  b ++ (if Py.truthy b then Py.nl else EmptyString) ++ stripped.

(** [current_subs[-1]["body"] += ...] *)
Fixpoint append_to_last (subs : list Section) (stripped : string)
  : list Section :=
  match subs with
  | [] => []
  | [s] => [mkSection (heading s) (append_line (body s) stripped)]
  | s :: subs' => s :: append_to_last subs' stripped
  end.

Definition is_some {A : Type} (o : option A) : bool :=
  match o with Some _ => true | None => false end.

(** One turn of the loop over the lines. *)
Definition parse_line (st : ParseState) (line : string) : ParseState :=
  if negb (Py.truthy (Py.strip line)) then st
  else
    let stripped := Py.strip line in
    let sub_m := found (pmatch sub_level stripped) in
    let top_m := found (pmatch top_level stripped) in
    if sub_m && is_some (current st) then
      mkParseState (clauses st) (current st)
        (current_subs st ++ [mkSection stripped EmptyString])
    else if top_m then
      mkParseState (clauses (flush_current st))
        (Some (mkSection stripped EmptyString)) []
    else
      match current st with
      | None =>
          mkParseState (clauses st) (Some (mkSection "Preamble" stripped)) []
      | Some c =>
          match current_subs st with
          | _ :: _ =>
              mkParseState (clauses st) (current st)
                (append_to_last (current_subs st) stripped)
          | [] =>
              mkParseState (clauses st)
                (Some (mkSection (heading c) (append_line (body c) stripped)))
                []
          end
      end.

Definition number_clause (ic : nat * (Section * list Section)) : Clause :=
  let '(idx, (c, subs)) := ic in
  mkClause idx (heading c) (body c) subs.

Definition split_into_clauses (text : string) : list Clause :=
  let lines := map Py.rstrip (Py.splitlines text) in
  let st := flush_current (fold_left parse_line lines initial) in
  map number_clause (Py.enumerate 1 (clauses st)).

(** *** Entities *)

(** r"between\s+(.*?)(?:,|\sand\s|\n)", IGNORECASE and DOTALL *)
Definition party_between : regex :=
  seqs [liti "between"; plus space; Group 1 (LazyStar dot_all);
        alts [lit ","; seqs [space; liti "and"; space]; lit Py.nl]].

(** r"by and between\s+(.*?)(?:,|\sand\s|\n)" *)
Definition party_by_and_between : regex :=
  seqs [liti "by and between"; plus space; Group 1 (LazyStar dot_all);
        alts [lit ","; seqs [space; liti "and"; space]; lit Py.nl]].

(** r"party\s+of\s+the\s+first\s+part\s+(.*?)(?:,|\n)" *)
Definition party_first_part : regex :=
  seqs [liti "party"; plus space; liti "of"; plus space; liti "the";
        plus space; liti "first"; plus space; liti "part"; plus space;
        Group 1 (LazyStar dot_all); alts [lit ","; lit Py.nl]].

(** r"(?:INR|Rs\.?|Rupees)\s*[\.:]?\s*[0-9,]+(?:\.[0-9]{1,2})?", IGNORECASE *)
Definition amount_re : regex :=
  seqs [alts [liti "INR"; Seq (liti "Rs") (opt (lit ".")); liti "Rupees"];
        Star space; opt (one_of ".:"); Star space;
        plus (Chr (fun c => Py.isdigit c || Ascii.eqb c ","%char));
        opt (Seq (lit ".") (between 1 2 digit))].

(** r"\b\d{1,2}[\/\-]\d{1,2}[\/\-]\d{2,4}\b" *)
Definition date_numeric : regex :=
  seqs [WordB; between 1 2 digit; one_of "/-"; between 1 2 digit;
        one_of "/-"; between 2 4 digit; WordB].

(** r"\b\d{1,2}\s+(January|February|March|April|May|June|July|August|September|October|November|December)\s+\d{4}\b", IGNORECASE *)
Definition date_month : regex :=
  seqs [WordB; between 1 2 digit; plus space;
        Group 1 (alts (map liti
          ["January"; "February"; "March"; "April"; "May"; "June"; "July";
           "August"; "September"; "October"; "November"; "December"]));
        plus space; times 4 digit; WordB].

(** [A-Za-z\s] and [A-Za-z0-9\s] *)
Definition letter_or_space (c : ascii) : bool :=
  Py.isupper_ascii c || Py.islower_ascii c || Py.isspace c.

Definition alnum_or_space (c : ascii) : bool :=
  letter_or_space c || Py.isdigit c.

(** r"laws of\s+([A-Za-z\s]+)", IGNORECASE *)
Definition laws_of_re : regex :=
  seqs [liti "laws of"; plus space; Group 1 (plus (Chr letter_or_space))].

(** r"term\s+of\s+this\s+agreement\s+shall\s+be\s+([A-Za-z0-9\s]+?)(?:\.|\n)", IGNORECASE *)
Definition duration_re : regex :=
  seqs [liti "term"; plus space; liti "of"; plus space; liti "this";
        plus space; liti "agreement"; plus space; liti "shall"; plus space;
        liti "be"; plus space; Group 1 (lazy_plus (Chr alnum_or_space));
        alts [lit "."; lit Py.nl]].

(** r"confidential" and
    r"intellectual property|ip rights|copyright|trademark|patent", IGNORECASE *)
Definition confidential_re : regex := liti "confidential".

Definition ip_re : regex :=
  alts (map liti ["intellectual property"; "ip rights"; "copyright";
                  "trademark"; "patent"]).

Record Entities : Type := mkEntities {
  parties : list string;
  dates_raw : list string;
  duration_text : option string;
  amounts_mentions : list string;
  jurisdiction_or_governing_law : option string;
  termination_conditions : list string;
  confidentiality_clause_present : bool;
  ip_clause_present : bool
}.

(** The body of the loop over the matches of a party pattern. *)
Definition add_party (text : string) (parties : list string) (m : rmatch)
  : list string :=
  let name := Py.strip (match group text m 1 with
                        | Some g => g
                        | None => EmptyString
                        end) in
  if Py.truthy name && negb (Py.mem name parties)
     && (String.length name <? 200)%nat
  then parties ++ [name] else parties.

Definition group1_stripped (r : regex) (text : string) : option string :=
  match search r text with
  | Some m => match group text m 1 with
              | Some g => Some (Py.strip g)
              | None => None
              end
  | None => None
  end.

Definition extract_entities (text : string) : Entities :=
  let party_patterns :=
    [party_between; party_by_and_between; party_first_part] in
  let parties :=
    fold_left (fun ps pat => fold_left (add_party text) (finditer pat text) ps)
              party_patterns [] in
  let amounts := findall0 amount_re text in
  let dates := findall0 date_numeric text ++ findall1 date_month text in
  let jurisdiction := group1_stripped laws_of_re text in
  let duration := group1_stripped duration_re text in
  mkEntities parties dates duration amounts jurisdiction
    (NlpUtils.extract_termination_conditions text)
    (found (search confidential_re text))
    (found (search ip_re text)).

(** *** Intent *)

Inductive Intent : Type :=
| PROHIBITION | OBLIGATION | RIGHT | CONDITIONAL | INFORMATIONAL.

Definition intent_name (i : Intent) : string :=
  match i with
  | PROHIBITION => "PROHIBITION"
  | OBLIGATION => "OBLIGATION"
  | RIGHT => "RIGHT"
  | CONDITIONAL => "CONDITIONAL"
  | INFORMATIONAL => "INFORMATIONAL"
  end.

Definition classify_clause_intent (text : string) : Intent :=
  let lower := Py.lower text in
  if Py.any_in ["shall not"; "must not"; "prohibited"; "no party shall"] lower
  then PROHIBITION
  else if Py.any_in ["shall"; "must"; "agrees to"; "undertakes to"] lower
  then OBLIGATION
  else if Py.any_in ["may"; "entitled to"; "reserves the right"] lower
  then RIGHT
  else if Py.any_in ["subject to"; "provided that"; "if "; "in the event that"] lower
  then CONDITIONAL
  else INFORMATIONAL.

Definition business_impact (intent : Intent) (text : string) : string :=
  match intent with
  | OBLIGATION =>
      "Specifies something a party is required to do; missing this may lead to breach."
  | RIGHT =>
      "Gives a party a choice or benefit they can exercise."
  | PROHIBITION =>
      "Restricts or stops a party from doing something; breach can trigger penalties or termination."
  | CONDITIONAL =>
      "Describes what happens only if certain conditions or events occur."
  | INFORMATIONAL =>
      "Explains background, definitions, or general information without direct action."
  end.

(** *** Risk *)

Inductive RiskLevel : Type := LOW | MEDIUM | HIGH.

Definition risk_name (r : RiskLevel) : string :=
  match r with LOW => "LOW" | MEDIUM => "MEDIUM" | HIGH => "HIGH" end.

(** [["LOW", "MEDIUM", "HIGH"].index] *)
Definition risk_index (r : RiskLevel) : nat :=
  match r with LOW => 0 | MEDIUM => 1 | HIGH => 2 end.

(** [max(a, b, key=["LOW", "MEDIUM", "HIGH"].index)]: the first of the
    two unless the second has the larger index. *)
Definition risk_max (a b : RiskLevel) : RiskLevel :=
  if (risk_index a <? risk_index b)%nat then b else a.

Inductive Flag : Type :=
| lock_in_or_non_cancellable
| auto_renewal
| indemnity
| unlimited_liability
| limitation_of_liability
| ip_assignment
| non_compete_or_exclusivity
| penalties_or_liquidated_damages
| late_payment_interest
| unilateral_termination
| confidentiality
| arbitration_and_jurisdiction.

Definition flag_name (f : Flag) : string :=
  match f with
  | lock_in_or_non_cancellable => "lock_in_or_non_cancellable"
  | auto_renewal => "auto_renewal"
  | indemnity => "indemnity"
  | unlimited_liability => "unlimited_liability"
  | limitation_of_liability => "limitation_of_liability"
  | ip_assignment => "ip_assignment"
  | non_compete_or_exclusivity => "non_compete_or_exclusivity"
  | penalties_or_liquidated_damages => "penalties_or_liquidated_damages"
  | late_payment_interest => "late_payment_interest"
  | unilateral_termination => "unilateral_termination"
  | confidentiality => "confidentiality"
  | arbitration_and_jurisdiction => "arbitration_and_jurisdiction"
  end.

Definition Flag_eq_dec (a b : Flag) : {a = b} + {a <> b}.
Proof. decide equality. Defined.

Definition RiskLevel_eq_dec (a b : RiskLevel) : {a = b} + {a <> b}.
Proof. decide equality. Defined.

(** [name in flags] *)
Definition has_flag (f : Flag) (flags : list Flag) : bool :=
  existsb (fun g => if Flag_eq_dec f g then true else false) flags.

(** The state of the classifier is the pair [(risk, flags)].  One rule of
    the source, [if fired: risk = raise(risk); flags.append(flag)]: *)
Definition rule_step (fired : bool) (raise : RiskLevel -> RiskLevel)
  (flag : Flag) (st : RiskLevel * list Flag) : RiskLevel * list Flag :=
  if fired then (raise (fst st), snd st ++ [flag]) else st.

(** [if intent in ["PROHIBITION"] and risk == "LOW": risk = "MEDIUM"] *)
Definition prohibition_bump (intent : Intent) (st : RiskLevel * list Flag)
  : RiskLevel * list Flag :=
  match intent, fst st with
  | PROHIBITION, LOW => (MEDIUM, snd st)
  | _, _ => st
  end.

(** The rules of the source, one line each, in its order. *)
Definition clause_risk_level (text : string) (intent : Intent)
  : RiskLevel * list Flag :=
  let lower := Py.lower text in
  let st := (LOW, @nil Flag) in
  (* Termination / lock-in *)
  let st :=
    rule_step (Py.isin "lock-in" lower || Py.isin "lock in" lower
               || Py.isin "non-cancellable" lower)
      (fun _ => HIGH) lock_in_or_non_cancellable st in
  let st :=
    rule_step (Py.isin "auto-renew" lower
               || Py.isin "automatically renew" lower)
      (fun risk => risk_max risk MEDIUM) auto_renewal st in
  (* Indemnity *)
  let st :=
    rule_step (Py.isin "indemnify" lower || Py.isin "indemnity" lower)
      (fun risk =>
         if Py.isin "unlimited" lower || Py.isin "all claims" lower
         then HIGH else risk_max risk MEDIUM)
      indemnity st in
  (* Limitation of liability *)
  let st :=
    rule_step (Py.isin "unlimited liability" lower
               || Py.isin "without any limitation" lower)
      (fun _ => HIGH) unlimited_liability st in
  let st :=
    rule_step (Py.isin "limitation of liability" lower
               || Py.isin "liability shall be limited" lower)
      (fun risk => risk) limitation_of_liability st in
  (* IP transfer / broad license *)
  let st :=
    rule_step (Py.isin "assign all intellectual property" lower
               || (Py.isin "hereby assigns" lower
                   && Py.isin "intellectual property" lower))
      (fun risk => risk_max risk MEDIUM) ip_assignment st in
  (* Non-compete / exclusivity *)
  let st :=
    rule_step (Py.isin "non-compete" lower || Py.isin "non compete" lower
               || (Py.isin "exclusive" lower && Py.isin "territory" lower))
      (fun risk => risk_max risk MEDIUM) non_compete_or_exclusivity st in
  (* Payment / penalties *)
  let st :=
    rule_step (Py.isin "penalty" lower || Py.isin "liquidated damages" lower
               || Py.isin "fine" lower)
      (fun risk => risk_max risk MEDIUM) penalties_or_liquidated_damages st in
  let st :=
    rule_step (Py.isin "interest" lower && Py.isin "late payment" lower)
      (fun risk => risk) late_payment_interest st in
  (* One-sided termination *)
  let st :=
    rule_step (Py.isin "may terminate" lower
               && negb (Py.isin "other party may not" lower))
      (fun risk => risk_max risk MEDIUM) unilateral_termination st in
  (* Confidentiality / data *)
  let st :=
    rule_step (Py.isin "confidential" lower || Py.isin "non-disclosure" lower)
      (fun risk => risk) confidentiality st in
  (* Arbitration & jurisdiction *)
  let st :=
    rule_step (Py.isin "arbitration" lower || Py.isin "arbitral" lower
               || Py.isin "arbitrator" lower)
      (fun risk => risk_max risk MEDIUM) arbitration_and_jurisdiction st in
  (* Heuristic bump: prohibitions get at least MEDIUM *)
  prohibition_bump intent st.

(** *** Renegotiation *)

Definition suggestion_lock_in : string :=
  "Replace strict lock-in with the ability for either party to terminate for convenience with 30 days' notice and payment only for work actually done.".

Definition suggestion_auto_renewal : string :=
  "Change auto-renewal to renewal only with written confirmation, or allow either party to opt out by giving prior written notice (for example, 30 days before renewal).".

Definition suggestion_indemnity : string :=
  "Limit indemnity to direct third-party claims caused by proven breach or gross negligence, and cap the indemnity amount to a reasonable multiple of the total fees paid.".

(** The dash of [6–12] in this sentence and in the non-compete one is
    U+2013 in the source; the literal holds it in UTF-8. *)
Definition suggestion_unlimited_liability : string :=
  "Cap total liability to 6–12 months of fees paid under the agreement, except for confidentiality breach and willful misconduct.".

Definition suggestion_ip_assignment : string :=
  "Clarify that only project-specific deliverables are assigned and the service provider keeps all tools, templates and background IP, while giving the client a license to use them as embedded in the deliverables.".

Definition suggestion_non_compete : string :=
  "Narrow any non-compete or exclusivity to specific customers, products or territory, and limit the duration to a reasonable period (for example, 6–12 months).".

Definition suggestion_penalties : string :=
  "Replace strict penalties with reasonable, pre-agreed service credits or a capped amount, and ensure any liquidated damages reflect a genuine pre-estimate of loss.".

Definition suggestion_unilateral : string :=
  "Allow both parties to terminate for material breach (with a cure period) and for convenience with notice, rather than only one side having this right.".

Definition suggestion_arbitration : string :=
  "Ensure arbitration seat and governing law are in India (e.g. Indian Arbitration Act) and venue is practical for both parties; consider mutual consent for arbitrator appointment.".

(** [if name in flags: suggestions.append(sentence)] *)
Definition suggest_if (f : Flag) (flags : list Flag) (sentence : string)
  : list string :=
  if has_flag f flags then [sentence] else [].

Definition renegotiation_suggestion_for_clause (flags : list Flag)
  (text : string) : option string :=
  match flags with
  | [] => None
  | _ =>
      let suggestions :=
        suggest_if lock_in_or_non_cancellable flags suggestion_lock_in
        ++ suggest_if auto_renewal flags suggestion_auto_renewal
        ++ suggest_if indemnity flags suggestion_indemnity
        ++ suggest_if unlimited_liability flags suggestion_unlimited_liability
        ++ suggest_if ip_assignment flags suggestion_ip_assignment
        ++ suggest_if non_compete_or_exclusivity flags suggestion_non_compete
        ++ suggest_if penalties_or_liquidated_damages flags suggestion_penalties
        ++ suggest_if unilateral_termination flags suggestion_unilateral
        ++ suggest_if arbitration_and_jurisdiction flags suggestion_arbitration in
      match suggestions with
      | [] => None
      | _ => Some (Py.join " " suggestions)
      end
  end.

(** *** The composite score *)

Definition weights (r : RiskLevel) : Z :=
  match r with LOW => 1 | MEDIUM => 3 | HIGH => 6 end%Z.

(** [sum(weights.get(r, 1) for r in clause_risks)] *)
Definition total_weight (clause_risks : list RiskLevel) : Z :=
  fold_left (fun acc r => (acc + weights r)%Z) clause_risks 0%Z.

(** [max(0, x)] and [min(100, y)]: Python keeps the first argument
    unless the second is strictly beyond it. *)
Definition max_0 (x : Q) : Q := if B64.ltb 0 x then x else 0%Q.
Definition min_100 (y : Q) : Q := if B64.ltb y 100 then y else 100%Q.

Definition contract_level_risk_score (clause_risks : list RiskLevel) : Z :=
  match clause_risks with
  | [] => 0%Z
  | _ =>
      let total := total_weight clause_risks in
      let avg := B64.int_truediv total (Z.of_nat (List.length clause_risks)) in
      B64.to_int
        (min_100 (max_0 (B64.fmul (B64.fdiv avg (B64.of_int 6))
                                  (B64.of_int 100))))
  end.

(** The bands of [analyze_contract]. *)
Definition risk_interpretation (composite_score : Z) : string :=
  if (composite_score <=? 30)%Z then "Safe"
  else if (composite_score <=? 60)%Z then "Needs review"
  else "High risk".

(** *** The result and the orchestration *)

Import ClauseTemplates.

Record ClauseExplanation : Type := mkClauseExplanation {
  ce_clause_number : nat;
  ce_heading : string;
  ce_intent : Intent;
  ce_business_impact : string;
  ce_text_preview : string;
  ce_template_matches : list TemplateMatch
}.

Record RiskFlags : Type := mkRiskFlags {
  rf_clause_number : nat;
  rf_heading : string;
  rf_risk_level : RiskLevel;
  rf_flags : list Flag;
  rf_justification : string
}.

Record Renegotiation : Type := mkRenegotiation {
  rn_clause_number : nat;
  rn_heading : string;
  rn_risk_level : RiskLevel;
  suggested_change : string;
  why_it_helps : string
}.

Record FairnessFlag : Type := mkFairnessFlag {
  ff_clause_number : nat;
  ff_heading : string;
  one_sided_or_risky_for_sme : bool;
  ff_flags : list Flag
}.

Record RiskRow : Type := mkRiskRow {
  rr_clause_number : nat;
  rr_heading : string;
  rr_risk_level : RiskLevel;
  rr_flags : list Flag
}.

Record ContractOverview : Type := mkContractOverview {
  contract_type : string;
  explanation : string
}.

Record RiskAnalysis : Type := mkRiskAnalysis {
  clause_risk_table : list RiskRow;
  fairness_and_sme_flags : list FairnessFlag;
  ambiguity_flags : list (string * string)
}.

Record ScoreSummary : Type := mkScoreSummary {
  composite_risk_score_0_to_100 : Z;
  interpretation : string
}.

Record ExecutiveSummary : Type := mkExecutiveSummary {
  overview : string;
  key_obligations_to_note : list string;
  biggest_risks_in_simple_terms : list string;
  what_to_negotiate_before_signing : list string
}.

Record BestPractices : Type := mkBestPractices {
  recommendations : list string;
  clauses_to_add_or_strengthen : list string
}.

Record AuditLog : Type := mkAuditLog {
  timestamp_utc : string;
  actions : list string;
  risk_flags_summary : list FairnessFlag;
  jurisdiction_scope : string;
  business_role_input : option string
}.

(** The ten sections of the response, by their number. *)
Record AnalysisResult : Type := mkAnalysisResult {
  s1_contract_type_and_overview : ContractOverview;
  s2_structured_clause_extraction_json : list Clause;
  s3_entity_and_attribute_extraction : Entities;
  s4_clause_by_clause_explanation_table : list ClauseExplanation;
  s5_risk_analysis_and_flags : RiskAnalysis;
  s6_renegotiation_suggestions : list Renegotiation;
  s7_contract_risk_score_summary : ScoreSummary;
  s8_executive_business_summary : ExecutiveSummary;
  s9_sme_template_and_best_practices : BestPractices;
  s10_audit_log : AuditLog
}.

(** [(c["heading"] + "\n" + c["body"]).strip()] *)
Definition full_text_of (c : Clause) : string :=
  Py.strip (c_heading c ++ Py.nl ++ c_body c).

(** The body of the first loop over the clauses. *)
Definition explain_clause (c : Clause) : ClauseExplanation * RiskFlags :=
  let full_text := full_text_of c in
  let intent := classify_clause_intent full_text in
  let impact := business_impact intent full_text in
  let '(risk_level, flags) := clause_risk_level full_text intent in
  let template_matches :=
    clause_similarity_to_templates (c_heading c) (c_body c) in
  (mkClauseExplanation (clause_number c) (c_heading c) intent impact
     (Py.take 500 full_text) template_matches,
   mkRiskFlags (clause_number c) (c_heading c) risk_level flags
     "Heuristic India-SME oriented scoring based on presence of lock-in, indemnity, liability, IP, non-compete, penalties and unilateral rights.").

(** The body of the second loop: what one clause adds to
    [renegotiations] and to [fairness_flags]. *)
Definition renegotiation_of (rf : RiskFlags) : list Renegotiation :=
  match rf_risk_level rf with
  | MEDIUM | HIGH =>
      match renegotiation_suggestion_for_clause (rf_flags rf) EmptyString with
      | Some suggestion =>
          if Py.truthy suggestion
          then [mkRenegotiation (rf_clause_number rf) (rf_heading rf)
                  (rf_risk_level rf) suggestion
                  "Reduces one-sided exposure and aligns with commonly negotiated positions for Indian SMEs."]
          else []
      | None => []
      end
  | LOW => []
  end.

Definition fairness_of (rf : RiskFlags) : list FairnessFlag :=
  match rf_flags rf with
  | [] => []
  | _ => [mkFairnessFlag (rf_clause_number rf) (rf_heading rf) true (rf_flags rf)]
  end.

Definition or_default (s default : string) : string :=
  if Py.truthy s then s else default.

Definition biggest_risk_line (rf : RiskFlags) : string :=
  "Clause " ++ Py.str_of_nat (rf_clause_number rf) ++ " ('" ++ rf_heading rf
  ++ "') has high risk indicators: "
  ++ or_default (Py.join ", " (map flag_name (rf_flags rf))) "general exposure"
  ++ ".".

Definition key_obligation_line (c : ClauseExplanation) : string :=
  "Clause " ++ Py.str_of_nat (ce_clause_number c) ++ " ('" ++ ce_heading c
  ++ "') defines obligations or important actions.".

Definition is_high (r : RiskLevel) : bool :=
  match r with HIGH => true | _ => false end.

Definition is_duty (i : Intent) : bool :=
  match i with OBLIGATION | PROHIBITION => true | _ => false end.

Definition best_practices : BestPractices :=
  mkBestPractices
    ["Ensure mutual termination rights with reasonable notice (for example, 30 days) instead of strict lock-ins.";
     "Cap total liability to a multiple of the annual contract value, with limited exceptions.";
     "Avoid very broad IP assignments; prefer assignment of project-specific deliverables and retention of tools and background IP.";
     "Tighten any non-compete or exclusivity clauses to specific customers, products, or territories and limit duration.";
     "Replace heavy penalties with realistic service credits or capped liquidated damages.";
     "Clearly document payment terms, late payment interest, and milestone acceptance in simple language."]
    ["Mutual limitation of liability with a clear cap.";
     "Mutual confidentiality obligations with reasonable exclusions.";
     "Mutual termination for convenience and for material breach with cure period.";
     "Dispute resolution clause with Indian governing law and a practical city jurisdiction."].

Definition audit_actions : list string :=
  ["received_input"; "normalized_language"; "classified_contract_type";
   "parsed_structure"; "extracted_entities"; "ambiguity_detection";
   "clause_template_matching"; "classified_clause_intents";
   "assigned_clause_risks"; "generated_renegotiation_suggestions";
   "computed_contract_level_risk_score"; "generated_executive_summary";
   "compiled_best_practices"].

Definition analyze_contract (env : Env) (contract_text : string)
  (language business_role : option string) : AnalysisResult :=
  let normalized := normalize_language env contract_text language in
  (* STEP 1 *)
  let '(contract_type, type_explanation) := detect_contract_type normalized in
  (* STEP 2 *)
  let clauses := split_into_clauses normalized in
  let structured_json := clauses in
  (* STEP 3 *)
  let entities := extract_entities normalized in
  let ambiguity_findings := NlpUtils.detect_ambiguity normalized in
  (* STEP 4 & 5 *)
  let explained := map explain_clause clauses in
  let clause_explanations := map fst explained in
  let risk_flags := map snd explained in
  let clause_risk_levels := map rf_risk_level risk_flags in
  (* STEP 6 & 7 *)
  let renegotiations := flat_map renegotiation_of risk_flags in
  let fairness_flags := flat_map fairness_of risk_flags in
  (* STEP 8 *)
  let composite_score := contract_level_risk_score clause_risk_levels in
  let clause_risk_table :=
    map (fun rf => mkRiskRow (rf_clause_number rf) (rf_heading rf)
                     (rf_risk_level rf) (rf_flags rf)) risk_flags in
  (* STEP 9 *)
  let biggest_risk_clauses :=
    Py.sort_by (fun x y => (rf_clause_number x <=? rf_clause_number y)%nat)
      (filter (fun rf => is_high (rf_risk_level rf)) risk_flags) in
  let summary_biggest_risks := map biggest_risk_line biggest_risk_clauses in
  let key_obligations :=
    firstn 10 (map key_obligation_line
                 (filter (fun c => is_duty (ce_intent c)) clause_explanations)) in
  let executive_summary :=
    mkExecutiveSummary
      ("This appears to be a " ++ contract_type
       ++ " drafted in an Indian business context. "
       ++ "The analysis focuses on commercial balance, lock-ins, indemnity, IP, termination, "
       ++ "and other points that matter to SMEs, without using any specific legal statutes.")
      key_obligations
      summary_biggest_risks
      (firstn 10 (map suggested_change renegotiations)) in
  (* STEP 11 *)
  let timestamp := (utcnow_isoformat env ++ "Z")%string in
  let audit_log :=
    mkAuditLog timestamp audit_actions fairness_flags
      "India (generic contractual practice, no statutes)" business_role in
  mkAnalysisResult
    (mkContractOverview contract_type type_explanation)
    structured_json
    entities
    clause_explanations
    (mkRiskAnalysis clause_risk_table fairness_flags ambiguity_findings)
    renegotiations
    (mkScoreSummary composite_score (risk_interpretation composite_score))
    executive_summary
    best_practices
    audit_log.

End Analysis.

(* ================================================================== *)
(** ** Notions the properties are stated with *)
(* ================================================================== *)

Import Analysis.

Local Open Scope nat_scope.

(** *** The trigger rules of [clause_risk_level] as a table *)

(** A rule: when it fires on the lower-cased text, what it makes of the
    risk, and the flag it appends. *)
Record Rule : Type := mkRule {
  fires : string -> bool;
  then_risk : string -> RiskLevel -> RiskLevel;
  adds : Flag
}.

Definition apply_rule (lower : string) (st : RiskLevel * list Flag)
  (rule : Rule) : RiskLevel * list Flag :=
  rule_step (fires rule lower) (then_risk rule lower) (adds rule) st.

Definition TRIGGER_RULES : list Rule :=
  [ mkRule (fun lower => Py.isin "lock-in" lower || Py.isin "lock in" lower
                         || Py.isin "non-cancellable" lower)
           (fun _ _ => HIGH) lock_in_or_non_cancellable;
    mkRule (fun lower => Py.isin "auto-renew" lower
                         || Py.isin "automatically renew" lower)
           (fun _ risk => risk_max risk MEDIUM) auto_renewal;
    mkRule (fun lower => Py.isin "indemnify" lower || Py.isin "indemnity" lower)
           (fun lower risk =>
              if Py.isin "unlimited" lower || Py.isin "all claims" lower
              then HIGH else risk_max risk MEDIUM)
           indemnity;
    mkRule (fun lower => Py.isin "unlimited liability" lower
                         || Py.isin "without any limitation" lower)
           (fun _ _ => HIGH) unlimited_liability;
    mkRule (fun lower => Py.isin "limitation of liability" lower
                         || Py.isin "liability shall be limited" lower)
           (fun _ risk => risk) limitation_of_liability;
    mkRule (fun lower => Py.isin "assign all intellectual property" lower
                         || (Py.isin "hereby assigns" lower
                             && Py.isin "intellectual property" lower))
           (fun _ risk => risk_max risk MEDIUM) ip_assignment;
    mkRule (fun lower => Py.isin "non-compete" lower
                         || Py.isin "non compete" lower
                         || (Py.isin "exclusive" lower
                             && Py.isin "territory" lower))
           (fun _ risk => risk_max risk MEDIUM) non_compete_or_exclusivity;
    mkRule (fun lower => Py.isin "penalty" lower
                         || Py.isin "liquidated damages" lower
                         || Py.isin "fine" lower)
           (fun _ risk => risk_max risk MEDIUM) penalties_or_liquidated_damages;
    mkRule (fun lower => Py.isin "interest" lower
                         && Py.isin "late payment" lower)
           (fun _ risk => risk) late_payment_interest;
    mkRule (fun lower => Py.isin "may terminate" lower
                         && negb (Py.isin "other party may not" lower))
           (fun _ risk => risk_max risk MEDIUM) unilateral_termination;
    mkRule (fun lower => Py.isin "confidential" lower
                         || Py.isin "non-disclosure" lower)
           (fun _ risk => risk) confidentiality;
    mkRule (fun lower => Py.isin "arbitration" lower
                         || Py.isin "arbitral" lower
                         || Py.isin "arbitrator" lower)
           (fun _ risk => risk_max risk MEDIUM) arbitration_and_jurisdiction ].

(** The classifier run with the rules in a given order. *)
Definition classify_with (rules : list Rule) (text : string) (intent : Intent)
  : RiskLevel * list Flag :=
  prohibition_bump intent
    (fold_left (apply_rule (Py.lower text)) rules (LOW, [])).

(** The ordinal comparison of risk levels. *)
Definition risk_le (a b : RiskLevel) : Prop :=
  (risk_index a <= risk_index b)%nat.

(** A rule that raises: it replaces the risk by its maximum with a level
    that depends on the text alone. *)
Definition raises (lower : string) (rule : Rule) : Prop :=
  exists target, forall risk, then_risk rule lower risk = risk_max risk target.

(** The two components of a run of the rules. *)
Definition risk_step (lower : string) (risk : RiskLevel) (rule : Rule)
  : RiskLevel :=
  if fires rule lower then then_risk rule lower risk else risk.

(** A rule that fires and sets the risk to HIGH. *)
Definition sets_high (lower : string) (rule : Rule) : bool :=
  fires rule lower
  && match then_risk rule lower LOW with HIGH => true | _ => false end.

(** *** The structural parser *)

(** A line that the parser takes for a top-level heading. *)
Definition is_top_heading (h : string) : bool :=
  Re.found (Re.pmatch top_level h).

(** The headings of the clauses the parser holds, flushed ones first, the
    open clause last. *)
Definition headings_of (st : ParseState) : list string :=
  map (fun cs => heading (fst cs)) (clauses st)
  ++ match current st with Some c => [heading c] | None => [] end.

(** Only the first clause can be the synthesized one. *)
Definition preamble_first (hs : list string) : Prop :=
  match hs with
  | [] => True
  | h :: rest =>
      (is_top_heading h = true \/ h = "Preamble")
      /\ Forall (fun h' => is_top_heading h' = true) rest
  end.

Definition parser_invariant (st : ParseState) : Prop :=
  (current st = None -> clauses st = []) /\ preamble_first (headings_of st).

(** *** Environments and the scenario of the specification *)

(** The environment with the clock read as [now], everything else kept. *)
Definition set_clock (env : Env) (now : string) : Env :=
  mkEnv (environ env) (anthropic_create env) (openai_create env) now.

(** No API key, and services that fail. *)
Definition offline_env : Env :=
  mkEnv (fun _ => None) (fun _ _ _ _ _ => None) (fun _ _ _ _ _ => None)
        "2026-01-01T00:00:00.000000".

(** A configured translation service that answers. *)
Definition translating_env : Env :=
  mkEnv (fun name => if String.eqb name "ANTHROPIC_API_KEY"
                     then Some "sk-test" else None)
        (fun _ _ _ _ _ => Some "This Agreement is made in Delhi.")
        (fun _ _ _ _ _ => None)
        "2026-01-01T00:00:00.000000".

Definition scenario_text : string :=
  "1. Payment Terms" ++ Py.nl
  ++ "The Client shall pay within 30 days." ++ Py.nl
  ++ "2. Termination" ++ Py.nl
  ++ "Either party may terminate this Agreement upon 30 days written notice. This is a lock-in period with no early exit.".

(** The tag test of [normalize_language], and a text with nothing but
    white space. *)
Definition tagged_hindi (language : option string) : bool :=
  String.eqb
    (Py.lower (Py.strip (match language with
                         | Some l => l
                         | None => EmptyString
                         end)))
    "hindi".

Definition blank (text : string) : bool := negb (Py.truthy (Py.strip text)).

(** *** Flags and their remediation *)

(** The flags in the order in which [clause_risk_level] checks them. *)
Definition FLAG_ORDER : list Flag :=
  [lock_in_or_non_cancellable; auto_renewal; indemnity; unlimited_liability;
   limitation_of_liability; ip_assignment; non_compete_or_exclusivity;
   penalties_or_liquidated_damages; late_payment_interest;
   unilateral_termination; confidentiality; arbitration_and_jurisdiction].

(** The remediation sentence of a flag, if it has one. *)
Definition remediation (f : Flag) : option string :=
  match f with
  | lock_in_or_non_cancellable => Some suggestion_lock_in
  | auto_renewal => Some suggestion_auto_renewal
  | indemnity => Some suggestion_indemnity
  | unlimited_liability => Some suggestion_unlimited_liability
  | ip_assignment => Some suggestion_ip_assignment
  | non_compete_or_exclusivity => Some suggestion_non_compete
  | penalties_or_liquidated_damages => Some suggestion_penalties
  | unilateral_termination => Some suggestion_unilateral
  | arbitration_and_jurisdiction => Some suggestion_arbitration
  | limitation_of_liability | late_payment_interest | confidentiality => None
  end.

Definition sentences_of (flags : list Flag) : list string :=
  flat_map (fun f => match remediation f with Some s => [s] | None => [] end)
           flags.

(** The flags of a list, in the order of the classifier. *)
Definition in_check_order (flags : list Flag) : list Flag :=
  filter (fun f => has_flag f flags) FLAG_ORDER.

(** The suggestion of the scenario's second clause. *)
Definition scenario_renegotiation : Renegotiation :=
  mkRenegotiation 2 "2. Termination" HIGH
    (suggestion_lock_in ++ " " ++ suggestion_unilateral)
    "Reduces one-sided exposure and aligns with commonly negotiated positions for Indian SMEs.".

(** *** Template matches *)

Import ClauseTemplates.

(** The place of a string in a list (its length if it is not there). *)
Fixpoint position (x : string) (l : list string) : nat :=
  match l with
  | [] => 0
  | y :: l' => if String.eqb x y then 0 else S (position x l')
  end.

(** The place of a match's template in the declaration order. *)
Definition decl_index (m : TemplateMatch) : nat :=
  position (template_id m) (map t_id STANDARD_CLAUSE_TEMPLATES).

(** The share of a template's keywords found in the normalized clause
    text, as an exact fraction. *)
Definition keyword_ratio (combined : string) (t : Template) : Q :=
  Qmake (Z.of_nat (List.length (matched_in combined t)))
        (Pos.of_nat (List.length (keywords_of t))).

(** What the matcher reports for a template it keeps. *)
Definition record_of (combined : string) (t : Template) : TemplateMatch :=
  mkTemplateMatch (t_id t) (t_heading t)
    (B64.round2
       (B64.int_truediv (Z.of_nat (List.length (matched_in combined t)))
                        (Z.of_nat (List.length (keywords_of t)))))
    (firstn 5 (matched_in combined t)).

(** The order of the result: a higher score first, and among equal scores
    the template declared first. *)
Definition ranks_before (a b : TemplateMatch) : Prop :=
  (match_score b < match_score a)%Q
  \/ ((match_score a == match_score b)%Q /\ decl_index a < decl_index b).

(** The words of the normalized clause text. *)
Definition words_present (clause_heading clause_body : string) : list string :=
  Py.split (_normalize_for_similarity (clause_heading ++ " " ++ clause_body)).

(** *** The composite score and its floats *)

(** The score as a function of the mean alone. *)
Definition score_of_mean (avg : Q) : Z :=
  B64.to_int (min_100 (max_0 (B64.fmul (B64.fdiv avg (B64.of_int 6))
                                       (B64.of_int 100)))).

(** The score of [n] clauses of total weight [t], and the truncation of
    the exact quotient [100 t / (6 n)]. *)
Definition score_of_total (t n : Z) : Z :=
  score_of_mean (B64.int_truediv t n).

Definition exact_score (t n : Z) : Z := (100 * t / (6 * n))%Z.

(** One part in 2^53 below and above a number: the range of its
    rounding. *)
Definition below (q : Q) : Q := (q * (9007199254740991 # 9007199254740992))%Q.
Definition above (q : Q) : Q := (q * (9007199254740993 # 9007199254740992))%Q.

(** The three float operations of [contract_level_risk_score] on a total
    [t] and a count [n], in the model and on the kernel's floats. *)
Definition model_stages (t n : Z) : Q * Q * Q :=
  let avg := B64.int_truediv t n in
  let sixth := B64.fdiv avg (B64.of_int 6) in
  (avg, sixth, B64.fmul sixth (B64.of_int 100)).

Definition kernel_stages (t n : Z) : Q * Q * Q :=
  let avg := PrimFloat.div (B64.prim_of_Z t) (B64.prim_of_Z n) in
  let sixth := PrimFloat.div avg 6%float in
  (B64.prim_to_Q avg, B64.prim_to_Q sixth,
   B64.prim_to_Q (PrimFloat.mul sixth 100%float)).

Definition same_stages (x y : Q * Q * Q) : bool :=
  Qeq_bool (fst (fst x)) (fst (fst y))
  && Qeq_bool (snd (fst x)) (snd (fst y))
  && Qeq_bool (snd x) (snd y).

Fixpoint Z_range (lo : Z) (len : nat) : list Z :=
  match len with
  | O => []
  | S len' => lo :: Z_range (lo + 1)%Z len'
  end.

(** Every count up to [bound] with every total from [n] (all LOW) to
    [6 n] (all HIGH). *)
Definition score_grid (bound : nat) : list (Z * Z) :=
  flat_map (fun n => map (fun t => (t, n)) (Z_range n (Z.to_nat (5 * n + 1))))
           (Z_range 1 bound).

(** The scores of the template matcher: [m / k], and the results of
    [round(m / k, 2)] as the float literals they print as. *)
Definition ratio_table : list (Z * Z * float) :=
  [ (1%Z, 1%Z, 0x1p+0%float); (1%Z, 2%Z, 0x1p-1%float);
    (1%Z, 3%Z, 0x1.51eb851eb851fp-2%float);
    (2%Z, 3%Z, 0x1.570a3d70a3d71p-1%float);
    (1%Z, 4%Z, 0x1p-2%float); (3%Z, 4%Z, 0x1.8p-1%float);
    (1%Z, 5%Z, 0x1.999999999999ap-3%float);
    (2%Z, 5%Z, 0x1.999999999999ap-2%float);
    (3%Z, 5%Z, 0x1.3333333333333p-1%float);
    (4%Z, 5%Z, 0x1.999999999999ap-1%float) ].
(* ================================================================== *)
(** ** Notions for the further properties *)
(* ================================================================== *)

(** *** The risk classifier *)

(** A rule that fires and raises a LOW risk. *)
Definition escalates (lower : string) (rule : Rule) : bool :=
  fires rule lower
  && match then_risk rule lower LOW with LOW => false | _ => true end.

(** The flags of a clause and its level, for short. *)
Definition flags_of (text : string) (intent : Intent) : list Flag :=
  snd (clause_risk_level text intent).

Definition level_of (text : string) (intent : Intent) : RiskLevel :=
  fst (clause_risk_level text intent).

(** *** Priorities of the keyword classifiers *)

(** The place of an intent in the order of the tests of
    [classify_clause_intent], and of a contract type in the order of the
    tests of [detect_contract_type]. *)
Definition intent_rank (i : Intent) : nat :=
  match i with
  | PROHIBITION => 0
  | OBLIGATION => 1
  | RIGHT => 2
  | CONDITIONAL => 3
  | INFORMATIONAL => 4
  end.

Definition CONTRACT_TYPES : list string :=
  ["NDA / Confidentiality Agreement"; "Employment Agreement";
   "Lease / Rental Agreement"; "Partnership Deed";
   "Vendor / Supplier Contract"; "Service Agreement";
   "Mixed / Hybrid Contract"].

Definition type_rank (text : string) : nat :=
  position (fst (detect_contract_type text)) CONTRACT_TYPES.

(** *** The sections of an analysis *)

(** The clauses [analyze_contract] works on. *)
Definition clauses_of (env : Env) (text : string) (language : option string)
  : list Clause :=
  split_into_clauses (normalize_language env text language).

(** The row of the risk table of an entry of [risk_flags], when the row is
    given a suggestion, and the suggestion it is given. *)
Definition row_of (rf : RiskFlags) : RiskRow :=
  mkRiskRow (rf_clause_number rf) (rf_heading rf) (rf_risk_level rf)
            (rf_flags rf).

Definition suggestible (row : RiskRow) : bool :=
  match rr_risk_level row with
  | LOW => false
  | _ => match sentences_of (rr_flags row) with [] => false | _ => true end
  end.

Definition renegotiation_for_row (row : RiskRow) : Renegotiation :=
  mkRenegotiation (rr_clause_number row) (rr_heading row) (rr_risk_level row)
    (Py.join " " (sentences_of (rr_flags row)))
    "Reduces one-sided exposure and aligns with commonly negotiated positions for Indian SMEs.".

(** *** The text the parser keeps *)

(** A text of white space only, character by character. *)
Fixpoint all_space (s : string) : bool :=
  match s with
  | EmptyString => true
  | String c s' => Py.isspace c && all_space s'
  end.

(** The lines of a text that are not blank, stripped. *)
Definition content_lines (text : string) : list string :=
  filter Py.truthy (map Py.strip (Py.splitlines text)).

(** The pieces of text a sub-clause, a clause and the parser's state hold:
    a heading (the synthesized one apart) and a body that is not empty. *)
Definition section_text (s : Section) : list string :=
  heading s :: (if Py.truthy (body s) then [body s] else []).

Definition entry_text (cs : Section * list Section) : list string :=
  (if String.eqb (heading (fst cs)) "Preamble" then []
   else [heading (fst cs)])
  ++ (if Py.truthy (body (fst cs)) then [body (fst cs)] else [])
  ++ flat_map section_text (snd cs).

Definition clause_text (c : Clause) : list string :=
  entry_text (mkSection (c_heading c) (c_body c), sub_clauses c).

Definition render (st : ParseState) : list string :=
  flat_map entry_text (clauses st)
  ++ match current st with
     | Some c => entry_text (c, current_subs st)
     | None => []
     end.

(** The text grows by one line: a new piece, or more of the last one. *)
Definition extends (l l' : list string) (s : string) : Prop :=
  l' = l ++ [s]
  \/ exists X b, Py.truthy b = true /\ l = X ++ [b]
                 /\ l' = X ++ [(b ++ Py.nl ++ s)%string].

(** A line that the parser takes for a sub-clause heading. *)
Definition is_sub_heading (h : string) : bool :=
  Re.found (Re.pmatch sub_level h).

(** What holds of every clause the parser has, flushed or open. *)
Definition well_formed_entry (cs : Section * list Section) : Prop :=
  (heading (fst cs) = "Preamble" -> Py.truthy (body (fst cs)) = true)
  /\ Forall (fun sec => is_sub_heading (heading sec) = true) (snd cs).

Definition entries_of (st : ParseState) : list (Section * list Section) :=
  clauses st
  ++ match current st with
     | Some c => [(c, current_subs st)]
     | None => []
     end.

(** *** Rows of the risk table *)

(** The fairness entry of a row, the rows that get one, the line of the
    executive summary for a row rated HIGH, and the verdict of the
    classifier on a clause. *)
Definition fairness_for_row (row : RiskRow) : FairnessFlag :=
  mkFairnessFlag (rr_clause_number row) (rr_heading row) true (rr_flags row).

Definition flagged (row : RiskRow) : bool :=
  match rr_flags row with [] => false | _ => true end.

Definition high_risk_line (row : RiskRow) : string :=
  "Clause " ++ Py.str_of_nat (rr_clause_number row) ++ " ('" ++ rr_heading row
  ++ "') has high risk indicators: "
  ++ Py.join ", " (map flag_name (rr_flags row)) ++ ".".

Definition verdict_of (c : Clause) : RiskLevel * list Flag :=
  clause_risk_level (full_text_of c) (classify_clause_intent (full_text_of c)).

(** *** Ambiguity findings *)

(** The reasons [detect_ambiguity] gives, and the two phrases it reports
    that are labels and not excerpts. *)
Definition AMBIGUITY_REASONS : list string :=
  ["Vague time or standard; 'reasonable' or 'appropriate' may be interpreted differently.";
   "Obligation level unclear; 'reasonable efforts' vs 'best efforts' have different legal weight.";
   "Threshold not defined; 'material' or 'substantial' is subjective without a definition.";
   "Scope may be broader than expected; list is non-exhaustive.";
   "Ambiguous whether one or both apply; can cause dispute.";
   "Reference may be unclear; which obligation is referred to?"].

Definition AMBIGUITY_LABELS : list string :=
  ["including but not limited to / including without limitation";
   "it/this/that + shall/will/may"].

(** *** [backend/llm_client.py]: the explanation of one clause *)

Definition explain_system : string :=
  "You are a legal advisor for Indian SMEs. Explain contract clauses in one short, simple business sentence. No legal jargon. No statutes or case names.".

Definition explain_prompt (clause_heading clause_text intent role : string)
  : string :=
  "Contract clause heading: " ++ clause_heading ++ Py.nl
  ++ "Clause text (excerpt): " ++ Py.take 800 clause_text ++ Py.nl
  ++ "Detected intent: " ++ intent ++ ". Audience: " ++ role
  ++ ". Give one sentence plain-language explanation only.".

Definition enhance_explanation_with_llm (env : Env)
  (clause_heading clause_text intent : string) (business_role : option string)
  : option string :=
  let role := match business_role with
              | Some r => if Py.truthy r then r else "SME"
              | None => "SME"
              end in
  let system := explain_system in
  let prompt := explain_prompt clause_heading clause_text intent role in
  match (if Py.truthy (environ_get env "ANTHROPIC_API_KEY")
         then usable (_call_anthropic env prompt system 150)
         else None) with
  | Some out => Some out
  | None =>
      if Py.truthy (environ_get env "OPENAI_API_KEY")
      then usable (_call_openai env prompt system 150)
      else None
  end.

(* ================================================================== *)
(** ** [backend/extractors.py] *)
(* ================================================================== *)

Module Extractors.

(** The bytes of an uploaded file. *)
Definition bytes : Type := list Byte.byte.

(** What the libraries read out of a file: the text of each page of a PDF,
    the paragraphs of a DOCX and the cells of the rows of its tables, and
    the decoding of bytes in a named encoding.  A reader that raises gives
    the message of the exception; a decoding that raises UnicodeDecodeError
    gives nothing. *)
Record Readers : Type := mkReaders {
  pdf_pages : bytes -> string + list string;
  docx_parts : bytes -> string + (list string * list (list (list string)));
  decode : string -> bytes -> option string
}.

(** [s.endswith(suffix)] *)
Definition endswith (s suffix : string) : bool :=
  (String.length suffix <=? String.length s)
  && String.eqb (String.substring (String.length s - String.length suffix)
                                  (String.length suffix) s)
                suffix.

Definition extract_from_pdf (rd : Readers) (content : bytes)
  : string * option string :=
  match pdf_pages rd content with
  | inr parts =>
      let text := Py.strip (Py.join Py.nl parts) in
      if negb (Py.truthy text)
      then (EmptyString,
            Some "PDF appears to be image-based or empty; no text could be extracted.")
      else (text, None)
  | inl e => (EmptyString, Some e)
  end.

Definition extract_from_docx (rd : Readers) (content : bytes)
  : string * option string :=
  match docx_parts rd content with
  | inr (paragraphs, tables) =>
      let parts :=
        paragraphs
        ++ flat_map (fun table => map (fun row => Py.join " " row) table)
                    tables in
      let text := Py.strip (Py.join Py.nl parts) in
      if negb (Py.truthy text)
      then (EmptyString, Some "DOCX appears to be empty.")
      else (text, None)
  | inl e => (EmptyString, Some e)
  end.

(** The loop over the encodings: the first one that decodes wins. *)
Fixpoint decode_first (rd : Readers) (encodings : list string)
  (content : bytes) : string * option string :=
  match encodings with
  | [] => (EmptyString, Some "Could not decode file as text.")
  | enc :: rest =>
      match decode rd enc content with
      | Some text => (Py.strip text, None)
      | None => decode_first rd rest content
      end
  end.

Definition extract_from_txt (rd : Readers) (content : bytes)
  : string * option string :=
  decode_first rd ["utf-8"; "utf-8-sig"; "latin-1"; "cp1252"] content.

Definition extract_text_from_file (rd : Readers) (content : bytes)
  (filename : string) : string * option string :=
  let name := Py.lower filename in
  if endswith name ".pdf" then extract_from_pdf rd content
  else if endswith name ".docx" then extract_from_docx rd content
  else if endswith name ".txt" then extract_from_txt rd content
  else (EmptyString,
        Some ("Unsupported format. Use PDF, DOCX, or TXT. Got: "
              ++ filename)%string).

End Extractors.

(* ================================================================== *)
(** ** [backend/main.py] *)
(* ================================================================== *)

Module Main.

Import Extractors.

(** The answer of an endpoint: a body, or an HTTPException. *)
Inductive Response (A : Type) : Type :=
| Ok (body : A)
| HTTPException (status_code : nat) (detail : string).

Arguments Ok {A} body.
Arguments HTTPException {A} status_code detail.

(** [x or default] on an optional string. *)
Definition or_else (x : option string) (default : string) : string :=
  match x with
  | Some s => if Py.truthy s then s else default
  | None => default
  end.

Definition truthy_opt (x : option string) : bool :=
  match x with Some s => Py.truthy s | None => false end.

(** POST /analyze: the response, and the audit entry handed to
    [_persist_audit_log]. *)
Definition analyze (env : Env) (contract_text : string)
  (language business_role : option string)
  : Response AnalysisResult * option AuditLog :=
  let result := analyze_contract env contract_text language business_role in
  (Ok result, Some (s10_audit_log result)).

(** POST /analyze/file *)
Definition analyze_file (env : Env) (rd : Readers) (content : bytes)
  (filename : option string) (language business_role : option string)
  : Response AnalysisResult * option AuditLog :=
  let '(text, err) :=
    extract_text_from_file rd content (or_else filename EmptyString) in
  if truthy_opt err || negb (Py.truthy (Py.strip text))
  then (HTTPException 400 (or_else err "No text extracted from file."), None)
  else
    let result := analyze_contract env text language business_role in
    (Ok result, Some (s10_audit_log result)).

End Main.

(** The extension test of [extract_text_from_file]. *)
Definition supported (filename : string) : bool :=
  Extractors.endswith (Py.lower filename) ".pdf"
  || Extractors.endswith (Py.lower filename) ".docx"
  || Extractors.endswith (Py.lower filename) ".txt".

(** What [add_party] keeps true of the list of parties. *)
Definition party_names (text : string) (ps : list string) : Prop :=
  NoDup ps
  /\ Forall (fun p => Py.truthy p = true
                      /\ String.length p < 200
                      /\ Py.strip p = p
                      /\ Py.isin p text = true) ps.

(** The second clause of the scenario, as the parser gives it. *)
Definition scenario_termination_clause : Clause :=
  mkClause 2 "2. Termination"
    "Either party may terminate this Agreement upon 30 days written notice. This is a lock-in period with no early exit."
    [].


(* ================================================================== *)
(** ** The primitives on small inputs *)
(* ================================================================== *)

Example splitlines_example :
  Py.splitlines ("a" ++ Py.nl ++ Py.nl ++ "b" ++ Py.nl) = ["a"; ""; "b"].
Proof. reflexivity. Qed.

Example split_example : Py.split "  liability,   limited " = ["liability,"; "limited"].
Proof. reflexivity. Qed.

Example strip_example : Py.strip "  1. Scope  " = "1. Scope".
Proof. reflexivity. Qed.

Example normalize_example :
  ClauseTemplates._normalize_for_similarity "Non-Disclosure, (NDA)!"
  = "non disclosure nda".
Proof. reflexivity. Qed.

(** Headings: a number or a run of one roman letter, then white space; or
    five or more capitals, digits, blanks, hyphens and commas. *)
Example top_level_examples :
  map is_top_heading
      ["1. Payment Terms"; "2) Fees"; "12 Notices"; "ii) Scope"; "iv) Scope";
       "WHEREAS"; "TERM"; "1.1 Scope"; "Preamble"; "3."]
  = [true; true; true; true; false; true; false; false; false; false].
Proof. vm_compute. reflexivity. Qed.

Example sub_level_examples :
  map (fun l => Re.found (Re.pmatch sub_level l))
      ["1.1 Scope"; "2.3.1) Fees"; "1. Scope"; "1.1"; "1.1. Scope"]
  = [true; true; false; false; true].
Proof. vm_compute. reflexivity. Qed.

(** The amounts of the specification's scenario are found as written. *)
Example amounts_example :
  amounts_mentions
    (extract_entities "The fee is INR 1,00,000 plus Rs. 5000 per month.")
  = ["INR 1,00,000"; "Rs. 5000"].
Proof. vm_compute. reflexivity. Qed.

Example parties_example :
  parties
    (extract_entities
       "This Agreement is made between Acme Pvt Ltd and Beta LLP, on 12/05/2024.")
  = ["Acme Pvt Ltd"]
  /\ dates_raw
       (extract_entities
          "This Agreement is made between Acme Pvt Ltd and Beta LLP, on 12/05/2024.")
     = ["12/05/2024"].
Proof. split; vm_compute; reflexivity. Qed.

(** A greedy and a lazy repetition, and the matches of [findall]. *)
Example repetition_examples :
  Re.findall0 (Re.plus (Re.lit "a")) "aaa b aa" = ["aaa"; "aa"]
  /\ Re.findall1 (Re.seqs [Re.lit "<"; Re.Group 1 (Re.LazyStar Re.dot_all);
                            Re.lit ">"]) "<a><bc>" = ["a"; "bc"]
  /\ Re.findall1 (Re.seqs [Re.lit "<"; Re.Group 1 (Re.Star Re.dot_all);
                            Re.lit ">"]) "<a><bc>" = ["a><bc"].
Proof. repeat split; vm_compute; reflexivity. Qed.

(* ================================================================== *)
(** ** The float model agrees with the kernel's binary64 arithmetic *)
(* ================================================================== *)

(** On every count of clauses up to 24 and every total weight they can
    have, the quotient, its sixth and the product by 100 are the same
    numbers in the model and in the kernel's floating point. *)
Lemma score_floats_agree_with_kernel :
  forallb (fun tn => same_stages (model_stages (fst tn) (snd tn))
                                 (kernel_stages (fst tn) (snd tn)))
          (score_grid 24) = true.
Proof. vm_compute. reflexivity. Qed.

(** The quotients of the template matcher, the literal 0.2 and the
    rounding to two decimals, likewise. *)
Lemma ratio_floats_agree_with_kernel :
  forallb (fun mkf =>
             let '(m, k, printed) := mkf in
             Qeq_bool (B64.int_truediv m k)
                      (B64.prim_to_Q (PrimFloat.div (B64.prim_of_Z m)
                                                    (B64.prim_of_Z k)))
             && Qeq_bool (B64.round2 (B64.int_truediv m k))
                         (B64.prim_to_Q printed))
          ratio_table = true
  /\ Qeq_bool (B64.literal 2 10) (B64.prim_to_Q 0x1.999999999999ap-3%float)
     = true.
Proof. split; vm_compute; reflexivity. Qed.

(* ================================================================== *)
(** ** The error of a rounding, and of the score *)
(* ================================================================== *)

Section RoundingError.

Local Open Scope Z_scope.

(** The significand chosen is within half a unit of the scaled
    quotient. *)
Lemma nearest_even_close (n d : Z) :
  0 < d -> 0 <= n ->
  - d <= 2 * (B64.nearest_even n d * d - n) <= d.
Proof.
  intros Hd Hn. unfold B64.nearest_even.
  pose proof (Z.div_mod n d ltac:(lia)) as E.
  pose proof (Z.mod_pos_bound n d Hd) as Hr.
  set (m := n / d) in *. set (r := n mod d) in *.
  destruct (Z.ltb_spec (2 * r) d).
  - nia.
  - destruct (Z.ltb_spec d (2 * r)).
    + nia.
    + destruct (Z.even m); nia.
Qed.

(** What [scale] returns, by the sign of the exponent. *)
Lemma scale_spec (s a b : Z) :
  0 < a -> 0 < b ->
  let '(n, d) := B64.scale s a b in
  0 < n /\ 0 < d
  /\ ((0 <= s /\ n = a * 2 ^ s /\ d = b)
      \/ (s < 0 /\ n = a /\ d = b * 2 ^ (- s))).
Proof.
  intros Ha Hb. unfold B64.scale. destruct (Z.leb_spec 0 s).
  - split; [|split; [lia|left; auto]].
    apply Z.mul_pos_pos; [lia|]. apply Z.pow_pos_nonneg; lia.
  - split; [lia|]. split; [|right; repeat split; lia].
    apply Z.mul_pos_pos; [lia|]. apply Z.pow_pos_nonneg; lia.
Qed.

(** The exponent chosen leaves at least 53 bits before the point. *)
Lemma shift_of_lower (a b : Z) :
  0 < a -> 0 < b ->
  let '(n, d) := B64.scale (B64.shift_of a b) a b in
  2 ^ 52 * d <= n.
Proof.
  intros Ha Hb. unfold B64.shift_of.
  set (la := Z.log2 a). set (lb := Z.log2 b).
  remember (52 - (la - lb)) as s0 eqn:Hs0.
  pose proof (Z.log2_spec a Ha) as [Hla1 Hla2]. fold la in Hla1, Hla2.
  pose proof (Z.log2_spec b Hb) as [Hlb1 Hlb2]. fold lb in Hlb1, Hlb2.
  pose proof (Z.log2_nonneg a) as Hla0. fold la in Hla0.
  pose proof (Z.log2_nonneg b) as Hlb0. fold lb in Hlb0.
  clearbody la lb.
  pose proof (scale_spec s0 a b Ha Hb) as H0.
  destruct (B64.scale s0 a b) as [n0 d0] eqn:E0.
  destruct H0 as [Hn0 [Hd0 Hcase0]].
  destruct (Z.ltb_spec (n0 / d0) (2 ^ 52)) as [Hlt|Hge].
  - (* one more bit is needed *)
    assert (Hhalf : 2 ^ 51 * d0 <= n0).
    { destruct Hcase0 as [[Hs [-> ->]]|[Hs [-> ->]]].
      - assert (E : la + s0 = 51 + Z.succ lb) by lia.
        assert (Hp : 2 ^ la * 2 ^ s0 = 2 ^ 51 * 2 ^ Z.succ lb).
        { rewrite <- !Z.pow_add_r by lia. now rewrite E. }
        assert (0 < 2 ^ s0) by (apply Z.pow_pos_nonneg; lia).
        nia.
      - assert (E : 51 + (Z.succ lb + - s0) = la) by lia.
        assert (Hp : 2 ^ 51 * (2 ^ Z.succ lb * 2 ^ (- s0)) = 2 ^ la).
        { rewrite <- !Z.pow_add_r by lia. now rewrite E. }
        assert (0 < 2 ^ (- s0)) by (apply Z.pow_pos_nonneg; lia).
        nia. }
    pose proof (scale_spec (s0 + 1) a b Ha Hb) as H1.
    destruct (B64.scale (s0 + 1) a b) as [n d] eqn:E1.
    destruct H1 as [Hn [Hd Hcase1]].
    change (2 ^ 52) with (2 * 2 ^ 51).
    destruct Hcase0 as [[Hs [-> ->]]|[Hs [-> ->]]];
      destruct Hcase1 as [[Hs1 [-> ->]]|[Hs1 [-> ->]]]; try lia.
    + rewrite Z.pow_add_r by lia. change (2 ^ 1) with 2.
      replace (a * (2 ^ s0 * 2)) with (2 * (a * 2 ^ s0)) by ring.
      rewrite <- Z.mul_assoc. apply Z.mul_le_mono_nonneg_l; [lia|exact Hhalf].
    + assert (E : s0 = -1) by (clear - Hs Hs1; lia).
      rewrite E in Hhalf |- *. change (2 ^ (- -1)) with 2 in Hhalf.
      change (2 ^ (-1 + 1)) with 1. clear - Hhalf.
      replace (2 ^ 51 * (b * 2)) with (2 * 2 ^ 51 * b) in Hhalf by ring.
      now rewrite Z.mul_1_r.
    + replace (- s0) with (1 + - (s0 + 1)) in Hhalf by (clear; lia).
      rewrite Z.pow_add_r in Hhalf by (clear - Hs1; lia).
      change (2 ^ 1) with 2 in Hhalf.
      replace (2 ^ 51 * (b * (2 * 2 ^ (- (s0 + 1)))))
        with (2 * 2 ^ 51 * (b * 2 ^ (- (s0 + 1)))) in Hhalf by ring.
      exact Hhalf.
  - rewrite E0.
    pose proof (Z.mul_div_le n0 d0 Hd0). nia.
Qed.

(** Half a unit in the last of 53 bits is at most one part in 2^53. *)
Lemma half_unit_bounds (P D M : Z) :
  0 < D -> 2 ^ 52 * D <= P -> - D <= 2 * (M - P) <= D ->
  P * (2 ^ 53 - 1) <= M * 2 ^ 53 /\ M * 2 ^ 53 <= P * (2 ^ 53 + 1).
Proof.
  change (2 ^ 52) with 4503599627370496.
  change (2 ^ 53) with 9007199254740992. lia.
Qed.

(** One rounding changes a positive number by at most one part in 2^53. *)
Lemma round_pos_bounds (a b : Z) :
  0 < a -> 0 < b ->
  (below (Qmake a (Z.to_pos b)) <= B64.round_pos a b)%Q
  /\ (B64.round_pos a b <= above (Qmake a (Z.to_pos b)))%Q.
Proof.
  intros Ha Hb. unfold B64.round_pos.
  pose proof (shift_of_lower a b Ha Hb) as Hlow.
  pose proof (scale_spec (B64.shift_of a b) a b Ha Hb) as Hsc.
  set (s := B64.shift_of a b) in *.
  destruct (B64.scale s a b) as [n d].
  destruct Hsc as [Hn [Hd Hcase]].
  pose proof (nearest_even_close n d Hd ltac:(lia)) as Hm.
  set (m := B64.nearest_even n d) in *. clearbody m s.
  destruct (half_unit_bounds n d (m * d) Hd Hlow) as [H1 H2].
  { lia. }
  rewrite !Qred_correct. unfold below, above, Qle, Qmult.
  destruct Hcase as [[Hs [-> ->]]|[Hs [-> ->]]].
  - destruct (Z.leb_spec 0 s); [|lia]. cbn [Qnum Qden].
    assert (Hp : 0 < 2 ^ s) by (apply Z.pow_pos_nonneg; lia).
    rewrite !Pos2Z.inj_mul, !Z2Pos.id by lia.
    change (2 ^ 53) with 9007199254740992 in H1, H2.
    change (9007199254740992 - 1) with 9007199254740991 in H1.
    change (9007199254740992 + 1) with 9007199254740993 in H2.
    split; nia.
  - destruct (Z.leb_spec 0 s); [lia|]. cbn [Qnum Qden].
    assert (Hp : 0 < 2 ^ (- s)) by (apply Z.pow_pos_nonneg; lia).
    rewrite !Pos2Z.inj_mul, !Z2Pos.id by lia.
    change (2 ^ 53) with 9007199254740992 in H1, H2.
    change (9007199254740992 - 1) with 9007199254740991 in H1.
    change (9007199254740992 + 1) with 9007199254740993 in H2.
    split; nia.
Qed.

Lemma round_ne_bounds (q : Q) :
  (0 < q)%Q ->
  (below q <= B64.round_ne q)%Q /\ (B64.round_ne q <= above q)%Q.
Proof.
  intros Hq. unfold B64.round_ne.
  pose proof (Qred_correct q) as Hred.
  destruct (Qred q) as [num den] eqn:E. cbn [Qnum Qden].
  assert (Hnum : 0 < num).
  { rewrite <- Hred in Hq. unfold Qlt in Hq. cbn in Hq. lia. }
  destruct num as [|a|a]; try lia.
  pose proof (round_pos_bounds (Zpos a) (Zpos den) ltac:(lia) ltac:(lia))
    as [H1 H2].
  change (Z.to_pos (Zpos den)) with den in H1, H2.
  unfold below, above in *. rewrite <- Hred. split; assumption.
Qed.

Lemma of_int_6 : B64.of_int 6 = 6%Q.
Proof. vm_compute. reflexivity. Qed.

Lemma of_int_100 : B64.of_int 100 = 100%Q.
Proof. vm_compute. reflexivity. Qed.

(** The product [(total / n) / 6.0 * 100] in floats, against the mean. *)
Lemma float_product_bounds (v0 : Q) :
  (0 < v0)%Q ->
  let c := B64.fmul (B64.fdiv (B64.round_ne v0) (B64.of_int 6))
                    (B64.of_int 100) in
  (below (below (below (v0 * (100 # 6))%Q)) <= c)%Q
  /\ (c <= above (above (above (v0 * (100 # 6))%Q)))%Q.
Proof.
  intros Hv c. unfold c, B64.fmul, B64.fdiv. rewrite of_int_6, of_int_100.
  destruct (round_ne_bounds v0 Hv) as [Ha1 Ha2].
  set (a := B64.round_ne v0) in *.
  assert (Ha : (0 < a)%Q) by (unfold below in Ha1; lra).
  assert (Hdiv : (a / 6 == a * (1 # 6))%Q) by (unfold Qdiv; reflexivity).
  assert (Ha6 : (0 < a / 6)%Q) by (rewrite Hdiv; lra).
  destruct (round_ne_bounds (a / 6)%Q Ha6) as [Hb1 Hb2].
  set (b := B64.round_ne (a / 6)) in *.
  assert (Hb : (0 < b)%Q) by (unfold below in Hb1; rewrite Hdiv in Hb1; lra).
  assert (Hb100 : (0 < b * 100)%Q) by lra.
  destruct (round_ne_bounds (b * 100)%Q Hb100) as [Hc1 Hc2].
  set (c' := B64.round_ne (b * 100)) in *.
  unfold below, above in *. rewrite Hdiv in Hb1, Hb2. split; lra.
Qed.

(** The exact quotient lies between its truncation and the next integer,
    short of it by one part in [6 n] at least. *)
Lemma exact_quotient_in_Q (t n : Z) :
  0 < n -> 0 <= t ->
  let v := (Qmake t (Z.to_pos n) * (100 # 6))%Q in
  let w := Qmake 1 (Z.to_pos (6 * n)) in
  (inject_Z (exact_score t n) <= v)%Q
  /\ (v + w <= inject_Z (exact_score t n) + 1)%Q.
Proof.
  intros Hn Ht v w. unfold exact_score.
  pose proof (Z.div_mod (100 * t) (6 * n) ltac:(lia)) as E.
  pose proof (Z.mod_pos_bound (100 * t) (6 * n) ltac:(lia)) as Hr.
  set (e := 100 * t / (6 * n)) in *. set (r := (100 * t) mod (6 * n)) in *.
  unfold v, w, Qle, Qplus, Qmult, inject_Z. cbn [Qnum Qden].
  rewrite !Pos2Z.inj_mul, !Z2Pos.id by lia.
  split; nia.
Qed.

(** Up to 2^40 clauses the three roundings cannot carry the product over
    the next integer, and carry it below the truncation by less than 1. *)
Lemma score_within_one (t n : Z) :
  0 < n -> n <= 2 ^ 40 -> n <= t <= 6 * n ->
  exact_score t n - 1 <= score_of_total t n <= exact_score t n.
Proof.
  intros Hn Hbig Ht.
  destruct (exact_quotient_in_Q t n Hn ltac:(lia)) as [HVE HVw].
  assert (Hv0 : (0 < Qmake t (Z.to_pos n))%Q).
  { unfold Qlt. cbn. lia. }
  destruct (float_product_bounds _ Hv0) as [Hc1 Hc2].
  assert (HV100 : (Qmake t (Z.to_pos n) * (100 # 6) <= 100)%Q).
  { unfold Qle, Qmult. cbn [Qnum Qden].
    rewrite !Pos2Z.inj_mul, !Z2Pos.id by lia. lia. }
  assert (Hw : (1 # 6597069766656 <= Qmake 1 (Z.to_pos (6 * n)))%Q).
  { unfold Qle. cbn [Qnum Qden]. rewrite Z2Pos.id by lia.
    change (2 ^ 40) with 1099511627776 in Hbig. lia. }
  assert (HVpos : (0 < Qmake t (Z.to_pos n) * (100 # 6))%Q) by lra.
  assert (HEle : exact_score t n <= 100).
  { unfold exact_score. apply Z.div_le_upper_bound; lia. }
  unfold score_of_total, score_of_mean, B64.int_truediv.
  set (c := B64.fmul _ _) in *.
  set (V := (Qmake t (Z.to_pos n) * (100 # 6))%Q) in *.
  set (w := Qmake 1 (Z.to_pos (6 * n))) in *.
  set (E := exact_score t n) in *. clearbody c V w E.
  unfold below, above in Hc1, Hc2.
  assert (Hlo : (inject_Z E - 1 < c)%Q) by lra.
  assert (Hhi : (c < inject_Z E + 1)%Q) by lra.
  assert (Hpos : (0 < c)%Q) by lra.
  unfold max_0, min_100, B64.ltb, B64.to_int.
  assert (E0 : Qle_bool c 0 = false).
  { destruct (Qle_bool c 0) eqn:H; [|reflexivity].
    apply Qle_bool_iff in H. lra. }
  rewrite E0. cbn [negb].
  destruct (Qle_bool 100 c) eqn:E100; cbn [negb].
  - apply Qle_bool_iff in E100.
    assert (H99 : (inject_Z 99 < inject_Z E)%Q)
      by (change (inject_Z 99) with 99%Q; lra).
    rewrite <- Zlt_Qlt in H99.
    change (if Qle_bool 0 100 then Qfloor 100 else Qceiling 100) with 100.
    lia.
  - assert (Hc0 : Qle_bool 0 c = true) by (apply Qle_bool_iff; lra).
    rewrite Hc0. split.
    + assert (H : (inject_Z E < inject_Z (Qfloor c + 1 + 1))%Q).
      { rewrite !inject_Z_plus. change (inject_Z 1) with 1%Q.
        pose proof (Qlt_floor c) as Hf. rewrite inject_Z_plus in Hf.
        change (inject_Z 1) with 1%Q in Hf. lra. }
      rewrite <- Zlt_Qlt in H. lia.
    + assert (H : (inject_Z (Qfloor c) < inject_Z (E + 1))%Q).
      { rewrite inject_Z_plus. change (inject_Z 1) with 1%Q.
        pose proof (Qfloor_le c). lra. }
      rewrite <- Zlt_Qlt in H. lia.
Qed.

End RoundingError.

(* ================================================================== *)
(** ** The composite score (C1) *)
(* ================================================================== *)

Lemma round_ne_proper (p q : Q) : (p == q)%Q -> B64.round_ne p = B64.round_ne q.
Proof.
  intros H. unfold B64.round_ne. rewrite (Qred_complete p q H). reflexivity.
Qed.

Lemma total_weight_from (rs : list RiskLevel) (acc : Z) :
  fold_left (fun a r => (a + weights r)%Z) rs acc
  = (acc + total_weight rs)%Z.
Proof.
  unfold total_weight. revert acc.
  induction rs as [|r rs IH]; intros acc; simpl.
  - lia.
  - rewrite IH, (IH (weights r)). lia.
Qed.

Lemma total_weight_repeat (r : RiskLevel) (n : nat) :
  total_weight (repeat r n) = (weights r * Z.of_nat n)%Z.
Proof.
  induction n as [|n IH].
  - simpl. unfold total_weight. simpl. lia.
  - change (repeat r (S n)) with (r :: repeat r n).
    unfold total_weight. simpl fold_left. rewrite total_weight_from, IH. lia.
Qed.

Lemma score_nonempty (r : RiskLevel) (rs : list RiskLevel) :
  contract_level_risk_score (r :: rs)
  = score_of_mean (B64.int_truediv (total_weight (r :: rs))
                                   (Z.of_nat (List.length (r :: rs)))).
Proof. reflexivity. Qed.

Lemma mean_of_repeat (r : RiskLevel) (n : nat) :
  B64.int_truediv (total_weight (repeat r (S n)))
                  (Z.of_nat (List.length (repeat r (S n))))
  = B64.round_ne (inject_Z (weights r)).
Proof.
  rewrite total_weight_repeat, repeat_length.
  unfold B64.int_truediv. apply round_ne_proper.
  unfold Qeq, inject_Z. cbn [Qnum Qden].
  rewrite Z2Pos.id by lia. lia.
Qed.

Lemma score_of_repeat (r : RiskLevel) (n : nat) :
  contract_level_risk_score (repeat r (S n))
  = score_of_mean (B64.round_ne (inject_Z (weights r))).
Proof.
  change (repeat r (S n)) with (r :: repeat r n) at 1.
  rewrite score_nonempty.
  change (r :: repeat r n) with (repeat r (S n)).
  now rewrite mean_of_repeat.
Qed.

Lemma to_int_clamp_range (x : Q) :
  (0 <= B64.to_int (min_100 (max_0 x)) <= 100)%Z.
Proof.
  unfold min_100, max_0, B64.ltb, B64.to_int.
  destruct (Qle_bool x 0) eqn:H0; simpl.
  - vm_compute. split; discriminate.
  - destruct (Qle_bool 100 x) eqn:H1; simpl.
    + vm_compute. split; discriminate.
    + assert (Hx0 : (0 < x)%Q).
      { apply Qnot_le_lt. intro H. apply Qle_bool_iff in H. congruence. }
      assert (Hx1 : (x < 100)%Q).
      { apply Qnot_le_lt. intro H. apply Qle_bool_iff in H. congruence. }
      assert (Hle : Qle_bool 0 x = true) by (apply Qle_bool_iff, Qlt_le_weak, Hx0).
      rewrite Hle. split.
      * change 0%Z with (Qfloor 0). apply Qfloor_resp_le, Qlt_le_weak, Hx0.
      * change 100%Z with (Qfloor 100). apply Qfloor_resp_le, Qlt_le_weak, Hx1.
Qed.

(** The score against the truncation of the exact quotient. *)
Lemma total_weight_bounds (rs : list RiskLevel) :
  (Z.of_nat (List.length rs) <= total_weight rs
   <= 6 * Z.of_nat (List.length rs))%Z.
Proof.
  induction rs as [|r rs IH].
  - unfold total_weight. simpl. lia.
  - unfold total_weight in *. cbn [fold_left List.length].
    rewrite total_weight_from. unfold total_weight.
    destruct r; cbn [weights]; lia.
Qed.

Lemma score_near_exact_quotient (rs : list RiskLevel) :
  rs <> [] -> (Z.of_nat (List.length rs) <= 2 ^ 40)%Z ->
  let e := exact_score (total_weight rs) (Z.of_nat (List.length rs)) in
  (e - 1 <= contract_level_risk_score rs <= e)%Z.
Proof.
  intros Hne Hlen e. destruct rs as [|r rs]; [contradiction|].
  rewrite score_nonempty.
  apply (score_within_one (total_weight (r :: rs))
           (Z.of_nat (List.length (r :: rs)))).
  - cbn [List.length]. lia.
  - exact Hlen.
  - apply total_weight_bounds.
Qed.

Lemma analyze_contract_score (env : Env) (text : string)
  (language business_role : option string) :
  let r := analyze_contract env text language business_role in
  composite_risk_score_0_to_100 (s7_contract_risk_score_summary r)
  = contract_level_risk_score
      (map rr_risk_level (clause_risk_table (s5_risk_analysis_and_flags r)))
  /\ interpretation (s7_contract_risk_score_summary r)
     = risk_interpretation
         (composite_risk_score_0_to_100 (s7_contract_risk_score_summary r)).
Proof.
  intros r. unfold r, analyze_contract.
  destruct (detect_contract_type _) as [ctype cexpl].
  cbn [s7_contract_risk_score_summary s5_risk_analysis_and_flags
       composite_risk_score_0_to_100 interpretation clause_risk_table].
  rewrite !map_map. cbn [rr_risk_level]. split; reflexivity.
Qed.

(** C1, as the code has it.  The score of an analysis is
    [contract_level_risk_score] of the risk levels of its clauses, and its
    interpretation is the band of that score.  With weights LOW = 1,
    MEDIUM = 3, HIGH = 6, the score of no clause is 0, and the score of at
    least one clause is the truncation toward zero of
    [min(100, max(0, (total / n) / 6.0 * 100))], each operation being the
    binary64 one; it lies in 0..100, and (up to 2^40 clauses) it is the
    truncation of the exact quotient [100 * total / (6 * n)] or one below
    it.  Clauses that are all LOW score 16
    ("Safe"), clauses that are all HIGH score 100 ("High risk").  The bands
    are: at most 30 "Safe", at most 60 "Needs review", above "High risk". *)
Theorem C1_composite_score :
  (forall env text language business_role,
     let r := analyze_contract env text language business_role in
     composite_risk_score_0_to_100 (s7_contract_risk_score_summary r)
     = contract_level_risk_score
         (map rr_risk_level (clause_risk_table (s5_risk_analysis_and_flags r)))
     /\ interpretation (s7_contract_risk_score_summary r)
        = risk_interpretation
            (composite_risk_score_0_to_100 (s7_contract_risk_score_summary r)))
  /\ contract_level_risk_score [] = 0%Z
  /\ (forall r rs,
        contract_level_risk_score (r :: rs)
        = B64.to_int
            (min_100 (max_0
               (B64.fmul
                  (B64.fdiv
                     (B64.int_truediv (total_weight (r :: rs))
                                      (Z.of_nat (List.length (r :: rs))))
                     (B64.of_int 6))
                  (B64.of_int 100)))))
  /\ (weights LOW = 1 /\ weights MEDIUM = 3 /\ weights HIGH = 6)%Z
  /\ (forall rs, (0 <= contract_level_risk_score rs <= 100)%Z)
  /\ (forall rs,
        rs <> [] -> (Z.of_nat (List.length rs) <= 2 ^ 40)%Z ->
        let e := exact_score (total_weight rs) (Z.of_nat (List.length rs)) in
        (e - 1 <= contract_level_risk_score rs <= e)%Z)
  /\ (forall n,
        contract_level_risk_score (repeat LOW (S n)) = 16%Z
        /\ risk_interpretation (contract_level_risk_score (repeat LOW (S n)))
           = "Safe")
  /\ (forall n,
        contract_level_risk_score (repeat HIGH (S n)) = 100%Z
        /\ risk_interpretation (contract_level_risk_score (repeat HIGH (S n)))
           = "High risk")
  /\ (forall s : Z,
        ((s <= 30)%Z -> risk_interpretation s = "Safe")
        /\ ((30 < s <= 60)%Z -> risk_interpretation s = "Needs review")
        /\ ((60 < s)%Z -> risk_interpretation s = "High risk")).
Proof.
  split; [exact analyze_contract_score|].
  split; [reflexivity|].
  split; [intros; reflexivity|].
  split; [repeat split|].
  split.
  { intros [|r rs]; [vm_compute; split; discriminate|].
    rewrite score_nonempty. apply to_int_clamp_range. }
  split; [exact score_near_exact_quotient|].
  split.
  { intros n. rewrite score_of_repeat. split; vm_compute; reflexivity. }
  split.
  { intros n. rewrite score_of_repeat. split; vm_compute; reflexivity. }
  intros s. unfold risk_interpretation. repeat split; intros H.
  - destruct (Z.leb_spec s 30); [reflexivity|lia].
  - destruct (Z.leb_spec s 30); [lia|].
    destruct (Z.leb_spec s 60); [reflexivity|lia].
  - destruct (Z.leb_spec s 30); [lia|].
    destruct (Z.leb_spec s 60); [lia|reflexivity].
Qed.

(** The claim fails on the code: three LOW clauses score 16, not 0. *)
Lemma C1_counterexample :
  contract_level_risk_score [LOW; LOW; LOW] <> 0%Z.
Proof. vm_compute. discriminate. Qed.

(** The truncation is that of the float: nine MEDIUM clauses and one HIGH
    score 54, where the exact quotient 100 * 33 / 60 is 55. *)
Lemma score_below_exact_quotient :
  contract_level_risk_score (repeat MEDIUM 9 ++ [HIGH]) = 54%Z
  /\ (100 * total_weight (repeat MEDIUM 9 ++ [HIGH])
      / (6 * Z.of_nat (List.length (repeat MEDIUM 9 ++ [HIGH]))) = 55)%Z.
Proof. split; vm_compute; reflexivity. Qed.

(** Up to 24 clauses, the score is the truncation of the exact quotient or
    one below it, and it is one below only where the exact quotient is a
    whole number. *)
Lemma score_within_one_of_exact_quotient :
  forallb (fun tn =>
             let s := score_of_total (fst tn) (snd tn) in
             let e := exact_score (fst tn) (snd tn) in
             (s =? e)%Z
             || ((s =? e - 1)%Z && (100 * fst tn mod (6 * snd tn) =? 0)%Z))
          (score_grid 24) = true.
Proof. vm_compute. reflexivity. Qed.

(* ================================================================== *)
(** ** The risk classifier (C2, C10) *)
(* ================================================================== *)

Lemma clause_risk_level_as_rules (text : string) (intent : Intent) :
  clause_risk_level text intent = classify_with TRIGGER_RULES text intent.
Proof. reflexivity. Qed.

Lemma risk_max_HIGH (r : RiskLevel) : risk_max r HIGH = HIGH.
Proof. destruct r; reflexivity. Qed.

Lemma risk_max_LOW (r : RiskLevel) : risk_max r LOW = r.
Proof. destruct r; reflexivity. Qed.

Lemma risk_max_comm_assoc (r a b : RiskLevel) :
  risk_max (risk_max r a) b = risk_max (risk_max r b) a.
Proof. destruct r, a, b; reflexivity. Qed.

Lemma risk_max_ge (r t : RiskLevel) : risk_le r (risk_max r t).
Proof. destruct r, t; unfold risk_le; simpl; lia. Qed.

Lemma trigger_rules_raise (lower : string) :
  Forall (raises lower) TRIGGER_RULES.
Proof.
  unfold TRIGGER_RULES.
  repeat constructor; unfold raises; cbn [then_risk].
  - exists HIGH. intros; now rewrite risk_max_HIGH.
  - exists MEDIUM. reflexivity.
  - destruct (Py.isin "unlimited" lower || Py.isin "all claims" lower).
    + exists HIGH. intros; now rewrite risk_max_HIGH.
    + exists MEDIUM. reflexivity.
  - exists HIGH. intros; now rewrite risk_max_HIGH.
  - exists LOW. intros; now rewrite risk_max_LOW.
  - exists MEDIUM. reflexivity.
  - exists MEDIUM. reflexivity.
  - exists MEDIUM. reflexivity.
  - exists LOW. intros; now rewrite risk_max_LOW.
  - exists MEDIUM. reflexivity.
  - exists LOW. intros; now rewrite risk_max_LOW.
  - exists MEDIUM. reflexivity.
Qed.

Lemma fold_rules_fst (lower : string) (rules : list Rule)
  (st : RiskLevel * list Flag) :
  fst (fold_left (apply_rule lower) rules st)
  = fold_left (risk_step lower) rules (fst st).
Proof.
  revert st. induction rules as [|rule rules IH]; intros st; simpl.
  - reflexivity.
  - rewrite IH. f_equal. unfold apply_rule, rule_step, risk_step.
    destruct (fires rule lower); reflexivity.
Qed.

Lemma fold_rules_snd (lower : string) (rules : list Rule)
  (st : RiskLevel * list Flag) :
  snd (fold_left (apply_rule lower) rules st)
  = snd st ++ map adds (filter (fun rule => fires rule lower) rules).
Proof.
  revert st. induction rules as [|rule rules IH]; intros st; simpl.
  - now rewrite app_nil_r.
  - rewrite IH. unfold apply_rule, rule_step.
    destruct (fires rule lower); simpl.
    + now rewrite <- app_assoc.
    + reflexivity.
Qed.

Lemma risk_step_swap (lower : string) (a b : Rule) (risk : RiskLevel) :
  raises lower a -> raises lower b ->
  risk_step lower (risk_step lower risk a) b
  = risk_step lower (risk_step lower risk b) a.
Proof.
  intros [ta Ha] [tb Hb]. unfold risk_step.
  destruct (fires a lower), (fires b lower); try reflexivity.
  rewrite !Ha, !Hb. apply risk_max_comm_assoc.
Qed.

Lemma risk_fold_permutation (lower : string) (rs rs' : list Rule) :
  Permutation rs rs' -> Forall (raises lower) rs ->
  forall risk,
    fold_left (risk_step lower) rs risk = fold_left (risk_step lower) rs' risk.
Proof.
  induction 1 as [|x l l' Hp IH|x y l|l l' l'' Hp1 IH1 Hp2 IH2];
    intros Hall risk; simpl.
  - reflexivity.
  - apply IH. now inversion Hall.
  - inversion Hall as [|? ? Hy Hrest]; subst.
    inversion Hrest as [|? ? Hx _]; subst.
    now rewrite (risk_step_swap lower y x risk Hy Hx).
  - rewrite IH1 by assumption. apply IH2.
    eapply Permutation_Forall; eassumption.
Qed.

Lemma filter_permutation {A : Type} (f : A -> bool) (l l' : list A) :
  Permutation l l' -> Permutation (filter f l) (filter f l').
Proof.
  induction 1 as [|x l l' Hp IH|x y l|l l' l'' Hp1 IH1 Hp2 IH2]; simpl.
  - apply perm_nil.
  - destruct (f x); [apply perm_skip|]; exact IH.
  - destruct (f x), (f y);
      first [apply perm_swap | apply Permutation_refl].
  - eapply Permutation_trans; eassumption.
Qed.

Lemma risk_step_monotone (lower : string) (rule : Rule) (risk : RiskLevel) :
  raises lower rule -> risk_le risk (risk_step lower risk rule).
Proof.
  intros [t Ht]. unfold risk_step. destruct (fires rule lower).
  - rewrite Ht. apply risk_max_ge.
  - unfold risk_le. lia.
Qed.

(** C2.  Every trigger rule of the classifier replaces the risk by its
    maximum with a level fixed by the text (HIGH, MEDIUM, or LOW for a rule
    that only flags), so no rule lowers the risk; hence, with the rules
    evaluated in any order, the final risk level of a clause is the one
    [clause_risk_level] returns, and the flags are the same up to their
    order. *)
Theorem C2_rule_order_irrelevant (text : string) (intent : Intent)
  (rules : list Rule) :
  Permutation TRIGGER_RULES rules ->
  (* every rule is a maximum with a target level, so none lowers the risk *)
  (forall rule, In rule rules ->
     raises (Py.lower text) rule
     /\ forall risk, risk_le risk (risk_step (Py.lower text) risk rule))
  (* the level does not depend on the order *)
  /\ fst (classify_with rules text intent) = fst (clause_risk_level text intent)
  (* the flags are the same, in the order of the rules *)
  /\ Permutation (snd (classify_with rules text intent))
                 (snd (clause_risk_level text intent)).
Proof.
  intros Hperm.
  pose proof (trigger_rules_raise (Py.lower text)) as Hall.
  assert (Hall' : Forall (raises (Py.lower text)) rules)
    by (eapply Permutation_Forall; eassumption).
  split.
  { intros rule Hin. rewrite Forall_forall in Hall'.
    split; [now apply Hall'|].
    intros risk. apply risk_step_monotone. now apply Hall'. }
  rewrite clause_risk_level_as_rules. unfold classify_with.
  set (lower := Py.lower text) in *.
  assert (Hfst : fst (fold_left (apply_rule lower) rules (LOW, []))
                 = fst (fold_left (apply_rule lower) TRIGGER_RULES (LOW, []))).
  { rewrite !fold_rules_fst. symmetry.
    now apply risk_fold_permutation. }
  assert (Hsnd : Permutation
                   (snd (fold_left (apply_rule lower) rules (LOW, [])))
                   (snd (fold_left (apply_rule lower) TRIGGER_RULES (LOW, [])))).
  { rewrite !fold_rules_snd. cbn [snd app]. apply Permutation_map.
    apply filter_permutation. now symmetry. }
  set (st' := fold_left (apply_rule lower) rules (LOW, [])) in *.
  set (st := fold_left (apply_rule lower) TRIGGER_RULES (LOW, [])) in *.
  clearbody st st'. destruct st as [risk flags], st' as [risk' flags'].
  cbn [fst snd] in Hfst, Hsnd. subst risk'.
  unfold prohibition_bump.
  destruct intent, risk; cbn [fst snd]; split; assumption || reflexivity.
Qed.

Lemma C2_witness :
  Permutation TRIGGER_RULES (rev TRIGGER_RULES)
  /\ fst (classify_with (rev TRIGGER_RULES)
            "Lock-in period; the Vendor shall indemnify the Client." OBLIGATION)
     = HIGH.
Proof.
  split.
  - apply Permutation_rev.
  - rewrite (proj1 (proj2 (C2_rule_order_irrelevant
               "Lock-in period; the Vendor shall indemnify the Client."
               OBLIGATION (rev TRIGGER_RULES)
               (Permutation_rev TRIGGER_RULES)))).
    vm_compute. reflexivity.
Defined.

Lemma flags_follow_risk (lower : string) (rules : list Rule)
  (st : RiskLevel * list Flag) :
  (fst st <> LOW -> snd st <> []) ->
  fst (fold_left (apply_rule lower) rules st) <> LOW ->
  snd (fold_left (apply_rule lower) rules st) <> [].
Proof.
  revert st. induction rules as [|rule rules IH]; intros st Hst; simpl.
  - exact Hst.
  - apply IH. unfold apply_rule, rule_step.
    destruct (fires rule lower); [|exact Hst].
    simpl. intros _ H. now apply app_eq_nil in H as [_ H].
Qed.

(** C10.  Whenever [clause_risk_level] returns MEDIUM or HIGH, the flag
    list it returns is not empty or the intent is PROHIBITION: every rule
    that can raise the risk appends a flag, the final bump for prohibitions
    being the only escalation without one. *)
Theorem C10_risk_above_low_is_flagged (text : string) (intent : Intent) :
  fst (clause_risk_level text intent) <> LOW ->
  snd (clause_risk_level text intent) <> [] \/ intent = PROHIBITION.
Proof.
  rewrite clause_risk_level_as_rules. unfold classify_with.
  set (st := fold_left _ _ _).
  assert (Hst : fst st <> LOW -> snd st <> [])
    by (apply flags_follow_risk; simpl; congruence).
  unfold prohibition_bump.
  destruct intent; try (intros H; left; now apply Hst).
  destruct (fst st) eqn:E; simpl.
  - intros _. now right.
  - intros _. left. apply Hst. congruence.
  - intros _. left. apply Hst. congruence.
Qed.

Lemma C10_witness :
  fst (clause_risk_level "This is a lock-in period." INFORMATIONAL) <> LOW
  /\ (snd (clause_risk_level "This is a lock-in period." INFORMATIONAL) <> []
      \/ INFORMATIONAL = PROHIBITION).
Proof.
  assert (H : fst (clause_risk_level "This is a lock-in period." INFORMATIONAL)
              <> LOW) by (vm_compute; discriminate).
  split; [exact H|].
  exact (C10_risk_above_low_is_flagged "This is a lock-in period."
           INFORMATIONAL H).
Defined.

(** *** A clause at HIGH stays at HIGH when text is appended *)

Lemma lower_app (a b : string) :
  Py.lower (a ++ b) = (Py.lower a ++ Py.lower b)%string.
Proof. induction a as [|c a IH]; simpl; [|rewrite IH]; reflexivity. Qed.

Lemma prefix_app (k a b : string) :
  String.prefix k a = true -> String.prefix k (a ++ b) = true.
Proof.
  revert a. induction k as [|c k IH]; intros a H.
  - destruct (a ++ b)%string; reflexivity.
  - destruct a as [|d a]; [discriminate H|]. simpl in *.
    destruct (Ascii.ascii_dec c d); [now apply IH|discriminate H].
Qed.

Lemma isin_app (k a b : string) :
  Py.isin k a = true -> Py.isin k (a ++ b) = true.
Proof.
  induction a as [|c a IH]; intros H.
  - destruct k as [|d k]; [|discriminate H].
    destruct b; reflexivity.
  - simpl in H. apply orb_true_iff in H as [H|H].
    + apply (prefix_app k (String c a) b) in H.
      change (String c a ++ b)%string with (String c (a ++ b)) in *.
      cbn [Py.isin]. now rewrite H.
    + change (String c a ++ b)%string with (String c (a ++ b)).
      cbn [Py.isin]. rewrite (IH H). apply orb_true_r.
Qed.

Lemma risk_step_high (lower : string) (rule : Rule) (risk : RiskLevel) :
  raises lower rule ->
  risk_step lower risk rule = HIGH
  <-> risk = HIGH \/ sets_high lower rule = true.
Proof.
  intros [t Ht]. unfold risk_step, sets_high.
  destruct (fires rule lower); cbn [andb].
  - rewrite !Ht. destruct risk, t; cbn; intuition congruence.
  - intuition congruence.
Qed.

Lemma fold_risk_high (lower : string) (rules : list Rule) (risk : RiskLevel) :
  Forall (raises lower) rules ->
  fold_left (risk_step lower) rules risk = HIGH
  <-> risk = HIGH \/ existsb (sets_high lower) rules = true.
Proof.
  intros Hall. revert risk.
  induction Hall as [|rule rules Hr _ IH]; intros risk; simpl.
  - intuition congruence.
  - rewrite IH, (risk_step_high lower rule risk Hr), orb_true_iff. tauto.
Qed.

Lemma sets_high_app (a b : string) :
  Forall (fun rule => sets_high a rule = true ->
                      sets_high (a ++ b) rule = true) TRIGGER_RULES.
Proof.
  unfold TRIGGER_RULES, sets_high.
  repeat constructor; cbn [fires then_risk risk_max risk_index Nat.ltb Nat.leb];
    try (rewrite !andb_false_r; discriminate).
  - rewrite !andb_true_r, !orb_true_iff.
    intros [[H|H]|H]; auto using isin_app.
  - rewrite !andb_true_iff, !orb_true_iff. intros [Hf Hh]. split.
    + destruct Hf; auto using isin_app.
    + destruct (Py.isin "unlimited" a || Py.isin "all claims" a) eqn:E;
        [|discriminate Hh].
      apply orb_true_iff in E.
      assert (E' : Py.isin "unlimited" (a ++ b)
                   || Py.isin "all claims" (a ++ b) = true)
        by (apply orb_true_iff; destruct E; auto using isin_app).
      now rewrite E'.
  - rewrite !andb_true_r, !orb_true_iff.
    intros [H|H]; auto using isin_app.
Qed.

Lemma bump_high (intent : Intent) (st : RiskLevel * list Flag) :
  fst (prohibition_bump intent st) = HIGH <-> fst st = HIGH.
Proof.
  unfold prohibition_bump. destruct intent, st as [[] flags];
    cbn; intuition congruence.
Qed.

(** Appending text to a clause rated HIGH leaves it at HIGH: the rules
    that set HIGH test for the presence of phrases only. *)
Lemma high_risk_survives_appended_text (text extra : string)
  (intent : Intent) :
  fst (clause_risk_level text intent) = HIGH ->
  fst (clause_risk_level (text ++ extra) intent) = HIGH.
Proof.
  rewrite (clause_risk_level_as_rules text intent),
          (clause_risk_level_as_rules (text ++ extra) intent).
  unfold classify_with.
  rewrite !bump_high, !fold_rules_fst, lower_app. cbn [fst].
  rewrite !fold_risk_high by apply trigger_rules_raise.
  intros [H|H]; [discriminate H|]. right.
  apply existsb_exists in H as [rule [Hin Hhigh]].
  apply existsb_exists. exists rule. split; [exact Hin|].
  pose proof (sets_high_app (Py.lower text) (Py.lower extra)) as Happ.
  rewrite Forall_forall in Happ. now apply Happ.
Qed.

(* ================================================================== *)
(** ** The structural parser (C5) *)
(* ================================================================== *)

Lemma preamble_first_snoc (hs : list string) (h : string) :
  preamble_first hs -> is_top_heading h = true -> preamble_first (hs ++ [h]).
Proof.
  destruct hs as [|h0 rest]; simpl.
  - intros _ Hh. split; [now left|constructor].
  - intros [H0 Hrest] Hh. split; [exact H0|].
    apply Forall_app. split; [exact Hrest|now constructor].
Qed.

Lemma headings_of_flush (st : ParseState) :
  map (fun cs => heading (fst cs)) (clauses (flush_current st))
  = headings_of st.
Proof.
  unfold flush_current, headings_of.
  destruct (current st) as [c|]; simpl.
  - now rewrite map_app.
  - now rewrite app_nil_r.
Qed.

Lemma parse_line_invariant (st : ParseState) (line : string) :
  parser_invariant st -> parser_invariant (parse_line st line).
Proof.
  intros [Hnone Hshape]. unfold parse_line.
  destruct (negb (Py.truthy (Py.strip line))); [now split|].
  destruct (Re.found (Re.pmatch sub_level (Py.strip line))
            && is_some (current st)) eqn:Hsub.
  - (* a sub-clause of the open clause *)
    split; [exact Hnone|exact Hshape].
  - destruct (Re.found (Re.pmatch top_level (Py.strip line))) eqn:Htop.
    + (* a new top-level clause *)
      split; [discriminate|].
      unfold headings_of. cbn [clauses current].
      rewrite headings_of_flush.
      now apply preamble_first_snoc.
    + destruct (current st) as [c|] eqn:Hcur.
      * destruct (current_subs st) as [|s subs];
          (split; [discriminate|]);
          unfold headings_of in *; cbn [clauses current heading];
          rewrite Hcur in Hshape; exact Hshape.
      * (* the preamble: nothing was open, so nothing was flushed *)
        split; [discriminate|].
        unfold headings_of. cbn [clauses current heading].
        rewrite (Hnone eq_refl). simpl. split; [now right|constructor].
Qed.

Lemma fold_parse_invariant (lines : list string) (st : ParseState) :
  parser_invariant st -> parser_invariant (fold_left parse_line lines st).
Proof.
  revert st. induction lines as [|l lines IH]; intros st H; simpl.
  - exact H.
  - apply IH, parse_line_invariant, H.
Qed.

Lemma enumerate_length {A : Type} (l : list A) (i : nat) :
  List.length (Py.enumerate i l) = List.length l.
Proof.
  revert i. induction l as [|x l IH]; intros i; simpl; [|rewrite IH];
    reflexivity.
Qed.

Lemma enumerate_numbers (l : list (Section * list Section)) (i : nat) :
  map clause_number (map number_clause (Py.enumerate i l))
  = seq i (List.length l).
Proof.
  revert i. induction l as [|[c subs] l IH]; intros i; simpl.
  - reflexivity.
  - now rewrite IH.
Qed.

Lemma enumerate_headings (l : list (Section * list Section)) (i : nat) :
  map c_heading (map number_clause (Py.enumerate i l))
  = map (fun cs => heading (fst cs)) l.
Proof.
  revert i. induction l as [|[c subs] l IH]; intros i; simpl.
  - reflexivity.
  - now rewrite IH.
Qed.

Lemma split_into_clauses_headings (text : string) :
  preamble_first (map c_heading (split_into_clauses text)).
Proof.
  unfold split_into_clauses. rewrite enumerate_headings, headings_of_flush.
  apply fold_parse_invariant. split; [reflexivity|exact I].
Qed.

Lemma preamble_is_no_heading : is_top_heading "Preamble" = false.
Proof. vm_compute. reflexivity. Qed.

(** C5.  For every text, the clauses of the structural parser are numbered
    1..N in output order, N being the number of clauses flushed; every
    clause is headed by a top-level heading line except possibly the first,
    which is then the synthesized clause "Preamble" (a line the parser never
    takes for a heading); so "Preamble" occurs at most once, as clause 1. *)
Theorem C5_clause_numbers_and_preamble (text : string) :
  let cs := split_into_clauses text in
  map clause_number cs = seq 1 (List.length cs)
  /\ (forall c, In c cs ->
        is_top_heading (c_heading c) = true
        \/ (c_heading c = "Preamble" /\ clause_number c = 1
            /\ nth_error cs 0 = Some c))
  /\ is_top_heading "Preamble" = false
  /\ (List.length (filter (fun c => String.eqb (c_heading c) "Preamble") cs)
      <= 1)%nat.
Proof.
  intros cs.
  assert (Hnum : map clause_number cs = seq 1 (List.length cs)).
  { unfold cs, split_into_clauses.
    rewrite enumerate_numbers, length_map, enumerate_length. reflexivity. }
  pose proof (split_into_clauses_headings text) as Hshape.
  fold cs in Hshape.
  split; [exact Hnum|].
  destruct cs as [|c0 rest]; simpl in *.
  - split; [intros c []|split; [apply preamble_is_no_heading|lia]].
  - destruct Hshape as [H0 Hrest].
    injection Hnum as Hn0 _.
    rewrite Forall_map in Hrest.
    assert (Hfilter : filter (fun c => String.eqb (c_heading c) "Preamble") rest
                      = []).
    { clear -Hrest. induction Hrest as [|c l Hc _ IH]; simpl; [reflexivity|].
      destruct (String.eqb_spec (c_heading c) "Preamble") as [E|_];
        [|exact IH].
      rewrite E, preamble_is_no_heading in Hc. discriminate. }
    split; [|split; [apply preamble_is_no_heading|]].
    + intros c [<-|Hin].
      * destruct H0 as [H0|H0]; [now left|right; repeat split; auto].
      * left. rewrite Forall_forall in Hrest. now apply Hrest.
    + rewrite Hfilter. destruct (String.eqb _ _); simpl; lia.
Qed.

(* ================================================================== *)
(** ** The scenarios (C3, C6) *)
(* ================================================================== *)

(** C3.  On the two-clause scenario the pipeline produces exactly two
    clauses; clause 2 is flagged [lock_in_or_non_cancellable] and rated HIGH
    through the direct match of "lock-in", although the unilateral
    termination rule fires on it too; clause 1 has intent OBLIGATION and
    risk LOW. *)
Theorem C3_scenario (env : Env) (business_role : option string) :
  let r := analyze_contract env scenario_text (Some "english") business_role in
  map (fun c => (clause_number c, c_heading c))
      (s2_structured_clause_extraction_json r)
  = [(1, "1. Payment Terms"); (2, "2. Termination")]
  /\ map (fun c => (clause_number c, c_heading c))
         (split_into_clauses scenario_text)
     = [(1, "1. Payment Terms"); (2, "2. Termination")]
  /\ map (fun row => (rr_clause_number row, rr_risk_level row, rr_flags row))
         (clause_risk_table (s5_risk_analysis_and_flags r))
     = [(1, LOW, []);
        (2, HIGH, [lock_in_or_non_cancellable; unilateral_termination])]
  /\ map (fun e => (ce_clause_number e, ce_intent e))
         (s4_clause_by_clause_explanation_table r)
     = [(1, OBLIGATION); (2, RIGHT)]
  /\ (forall c, nth_error (split_into_clauses scenario_text) 1 = Some c ->
        Py.isin "lock-in" (Py.lower (full_text_of c)) = true
        /\ Py.isin "may terminate" (Py.lower (full_text_of c)) = true
        /\ Py.isin "other party may not" (Py.lower (full_text_of c)) = false).
Proof.
  repeat split; try (vm_compute; reflexivity);
    vm_compute in H; injection H as <-; vm_compute; reflexivity.
Qed.

(** C6.  On the empty text the analysis returns a result with no clause,
    composite score 0, no party, date or amount, and no ambiguity finding,
    whatever the language tag, the role and the environment. *)
Theorem C6_empty_input (env : Env) (language business_role : option string) :
  let r := analyze_contract env EmptyString language business_role in
  s2_structured_clause_extraction_json r = []
  /\ composite_risk_score_0_to_100 (s7_contract_risk_score_summary r) = 0%Z
  /\ parties (s3_entity_and_attribute_extraction r) = []
  /\ dates_raw (s3_entity_and_attribute_extraction r) = []
  /\ amounts_mentions (s3_entity_and_attribute_extraction r) = []
  /\ ambiguity_flags (s5_risk_analysis_and_flags r) = []
  /\ NlpUtils.detect_ambiguity EmptyString = [].
Proof. repeat split; vm_compute; reflexivity. Qed.

(* ================================================================== *)
(** ** Determinism and the language normalizer (C4, C9) *)
(* ================================================================== *)

Lemma normalize_language_clock (env : Env) (now text : string)
  (language : option string) :
  normalize_language (set_clock env now) text language
  = normalize_language env text language.
Proof. reflexivity. Qed.

(** The record without its time stamp. *)
Lemma analyze_contract_clock (env : Env) (now text : string)
  (language business_role : option string) :
  let r := analyze_contract env text language business_role in
  analyze_contract (set_clock env now) text language business_role
  = mkAnalysisResult
      (s1_contract_type_and_overview r)
      (s2_structured_clause_extraction_json r)
      (s3_entity_and_attribute_extraction r)
      (s4_clause_by_clause_explanation_table r)
      (s5_risk_analysis_and_flags r)
      (s6_renegotiation_suggestions r)
      (s7_contract_risk_score_summary r)
      (s8_executive_business_summary r)
      (s9_sme_template_and_best_practices r)
      (mkAuditLog (now ++ "Z")%string
         (actions (s10_audit_log r))
         (risk_flags_summary (s10_audit_log r))
         (jurisdiction_scope (s10_audit_log r))
         (business_role_input (s10_audit_log r))).
Proof.
  intros r. unfold r, analyze_contract.
  rewrite normalize_language_clock.
  destruct (detect_contract_type (normalize_language env text language))
    as [ctype cexpl].
  reflexivity.
Qed.

(** C4, as the code has it.  Two invocations on the same input, with the
    same environment variables and the same answers of the translation
    services, return records that agree on sections 1 to 9 and on the audit
    log except for [timestamp_utc]; the time stamp of each is the reading of
    the UTC clock at that invocation, followed by "Z". *)
Theorem C4_deterministic_up_to_timestamp (env : Env) (now1 now2 text : string)
  (language business_role : option string) :
  let r1 := analyze_contract (set_clock env now1) text language business_role in
  let r2 := analyze_contract (set_clock env now2) text language business_role in
  s1_contract_type_and_overview r1 = s1_contract_type_and_overview r2
  /\ s2_structured_clause_extraction_json r1
     = s2_structured_clause_extraction_json r2
  /\ s3_entity_and_attribute_extraction r1
     = s3_entity_and_attribute_extraction r2
  /\ s4_clause_by_clause_explanation_table r1
     = s4_clause_by_clause_explanation_table r2
  /\ s5_risk_analysis_and_flags r1 = s5_risk_analysis_and_flags r2
  /\ s6_renegotiation_suggestions r1 = s6_renegotiation_suggestions r2
  /\ s7_contract_risk_score_summary r1 = s7_contract_risk_score_summary r2
  /\ s8_executive_business_summary r1 = s8_executive_business_summary r2
  /\ s9_sme_template_and_best_practices r1
     = s9_sme_template_and_best_practices r2
  /\ actions (s10_audit_log r1) = actions (s10_audit_log r2)
  /\ risk_flags_summary (s10_audit_log r1)
     = risk_flags_summary (s10_audit_log r2)
  /\ jurisdiction_scope (s10_audit_log r1)
     = jurisdiction_scope (s10_audit_log r2)
  /\ business_role_input (s10_audit_log r1)
     = business_role_input (s10_audit_log r2)
  /\ timestamp_utc (s10_audit_log r1) = (now1 ++ "Z")%string
  /\ timestamp_utc (s10_audit_log r2) = (now2 ++ "Z")%string
  /\ (now1 = now2 -> r1 = r2).
Proof.
  intros r1 r2. unfold r1, r2.
  rewrite !analyze_contract_clock. cbn.
  repeat split. intros ->. reflexivity.
Qed.

(** The claim fails on the code: the same input analysed at two readings
    of the clock gives two different records. *)
Lemma C4_counterexample :
  analyze_contract (set_clock offline_env "2026-01-01T00:00:00.000000")
    scenario_text (Some "english") None
  <> analyze_contract (set_clock offline_env "2026-01-01T00:00:01.000000")
       scenario_text (Some "english") None.
Proof.
  intros H.
  apply (f_equal (fun r => timestamp_utc (s10_audit_log r))) in H.
  vm_compute in H. discriminate H.
Qed.

Lemma normalize_hindi_unconfigured (env : Env) (text : string) :
  Py.truthy (environ_get env "ANTHROPIC_API_KEY") = false ->
  Py.truthy (environ_get env "OPENAI_API_KEY") = false ->
  normalize_hindi_to_english env text = text.
Proof.
  intros Ha Ho. unfold normalize_hindi_to_english. rewrite Ha, Ho.
  destruct (negb (Py.truthy text) || negb (Py.truthy (Py.strip text)));
    reflexivity.
Qed.

Lemma normalize_hindi_failing (env : Env) (text : string) :
  (forall key model n sys prompt,
     anthropic_create env key model n sys prompt = None) ->
  (forall key model n sys prompt,
     openai_create env key model n sys prompt = None) ->
  normalize_hindi_to_english env text = text.
Proof.
  intros Ha Ho.
  unfold normalize_hindi_to_english, _call_anthropic, _call_openai.
  rewrite Ha, Ho. cbn [usable].
  destruct (negb (Py.truthy text) || negb (Py.truthy (Py.strip text)));
    [reflexivity|].
  destruct (Py.truthy _), (Py.truthy _); reflexivity.
Qed.

(** C9, as the code has it.  The normalizer hands the text to the
    translator exactly when the tag, stripped and lower-cased, is "hindi"
    and the text is not blank; under any other tag, or none, and for a blank
    text, it returns the text unchanged.  The translator is a total
    function; it returns its input for a blank text, when no API key is
    configured, and when the calls to both services fail. *)
Theorem C9_normalizer_translates_hindi_only :
  (forall env text language,
     normalize_language env text language
     = if tagged_hindi language && negb (blank text)
       then normalize_hindi_to_english env text
       else text)
  /\ (forall env text language,
        tagged_hindi language = false ->
        normalize_language env text language = text)
  /\ (forall env text,
        blank text = true -> normalize_hindi_to_english env text = text)
  /\ (forall env text,
        Py.truthy (environ_get env "ANTHROPIC_API_KEY") = false ->
        Py.truthy (environ_get env "OPENAI_API_KEY") = false ->
        normalize_hindi_to_english env text = text)
  /\ (forall env text,
        (forall key model n sys prompt,
           anthropic_create env key model n sys prompt = None) ->
        (forall key model n sys prompt,
           openai_create env key model n sys prompt = None) ->
        normalize_hindi_to_english env text = text)
  /\ normalize_hindi_to_english offline_env scenario_text = scenario_text.
Proof.
  assert (H : forall env text language,
            normalize_language env text language
            = if tagged_hindi language && negb (blank text)
              then normalize_hindi_to_english env text
              else text).
  { intros env text language.
    unfold normalize_language, tagged_hindi, blank.
    destruct text as [|c text]; cbn [Py.truthy negb orb].
    - rewrite andb_false_r. reflexivity.
    - destruct (Py.truthy (Py.strip (String c text))); cbn [negb];
        [|rewrite andb_false_r; reflexivity].
      rewrite andb_true_r. reflexivity. }
  split; [exact H|]. split.
  - intros env text language Htag. rewrite H, Htag. reflexivity.
  - split.
    { intros env text Hb. unfold normalize_hindi_to_english.
      unfold blank in Hb. rewrite Hb, orb_true_r. reflexivity. }
    split; [exact normalize_hindi_unconfigured|].
    split; [exact normalize_hindi_failing|].
    vm_compute. reflexivity.
Qed.

(** The claim fails on the code: a text tagged "french" is returned as it
    is, although the configured translator would have translated it (and
    does, under the tag "Hindi"). *)
Lemma C9_counterexample :
  normalize_language translating_env "Le present contrat" (Some "french")
  = "Le present contrat"
  /\ normalize_hindi_to_english translating_env "Le present contrat"
     = "This Agreement is made in Delhi."
  /\ normalize_language translating_env "Le present contrat" (Some " Hindi ")
     = "This Agreement is made in Delhi."
  /\ normalize_language translating_env "Le present contrat" (Some "french")
     <> normalize_hindi_to_english translating_env "Le present contrat".
Proof.
  repeat split; try (vm_compute; reflexivity).
  vm_compute. discriminate.
Qed.

(* ================================================================== *)
(** ** Renegotiation suggestions (C8) *)
(* ================================================================== *)

Lemma flat_map_filter_cons {A B : Type} (g : A -> list B) (p : A -> bool)
  (x : A) (l : list A) :
  flat_map g (filter p (x :: l))
  = (if p x then g x else []) ++ flat_map g (filter p l).
Proof. simpl. destruct (p x); reflexivity. Qed.

Lemma if_same {A : Type} (b : bool) (x : A) : (if b then x else x) = x.
Proof. destruct b; reflexivity. Qed.

(** The suggestion is the join of the sentences of the flags present, in
    the order of the classifier, for any list of flags. *)
Lemma renegotiation_suggestion_spec (flags : list Flag) (text : string) :
  renegotiation_suggestion_for_clause flags text
  = match flags with
    | [] => None
    | _ => match sentences_of (in_check_order flags) with
           | [] => None
           | ss => Some (Py.join " " ss)
           end
    end.
Proof.
  unfold renegotiation_suggestion_for_clause.
  destruct flags as [|f0 flags0]; [reflexivity|].
  set (flags := f0 :: flags0).
  assert (E : sentences_of (in_check_order flags)
              = suggest_if lock_in_or_non_cancellable flags suggestion_lock_in
                ++ suggest_if auto_renewal flags suggestion_auto_renewal
                ++ suggest_if indemnity flags suggestion_indemnity
                ++ suggest_if unlimited_liability flags
                     suggestion_unlimited_liability
                ++ suggest_if ip_assignment flags suggestion_ip_assignment
                ++ suggest_if non_compete_or_exclusivity flags
                     suggestion_non_compete
                ++ suggest_if penalties_or_liquidated_damages flags
                     suggestion_penalties
                ++ suggest_if unilateral_termination flags
                     suggestion_unilateral
                ++ suggest_if arbitration_and_jurisdiction flags
                     suggestion_arbitration).
  { unfold sentences_of, in_check_order, FLAG_ORDER, suggest_if.
    rewrite !flat_map_filter_cons. cbn [remediation filter flat_map].
    rewrite !if_same, !app_nil_l, app_nil_r. reflexivity. }
  rewrite E. cbv zeta.
  match goal with |- match ?x with _ => _ end = _ => destruct x end;
    reflexivity.
Qed.

Lemma has_flag_cons_ne (f g : Flag) (l : list Flag) :
  f <> g -> has_flag f (g :: l) = has_flag f l.
Proof.
  intros H. unfold has_flag. simpl.
  destruct (Flag_eq_dec f g); [contradiction|reflexivity].
Qed.

Lemma has_flag_In (f : Flag) (l : list Flag) :
  has_flag f l = true <-> In f l.
Proof.
  unfold has_flag. rewrite existsb_exists. split.
  - intros [g [Hin Hg]]. destruct (Flag_eq_dec f g); [now subst|discriminate].
  - intros H. exists f. split; [exact H|].
    destruct (Flag_eq_dec f f); [reflexivity|contradiction].
Qed.

(** The flags a run of rules appends are the rules' flags that fired, so
    they come in the order of the rules. *)
Lemma fired_flags_in_rule_order (p : Rule -> bool) (rules : list Rule) :
  NoDup (map adds rules) ->
  filter (fun f => has_flag f (map adds (filter p rules))) (map adds rules)
  = map adds (filter p rules).
Proof.
  induction rules as [|r rs IH]; intros Hnd; [reflexivity|].
  inversion Hnd as [|a l Hnotin Hnd']; subst.
  assert (Hext : forall S,
            filter (fun f => has_flag f (adds r :: S)) (map adds rs)
            = filter (fun f => has_flag f S) (map adds rs)).
  { intros S. apply filter_ext_in. intros f Hf.
    apply has_flag_cons_ne. intros ->. contradiction. }
  cbn [map filter]. destruct (p r); cbn [map filter].
  - rewrite (proj2 (has_flag_In (adds r) (adds r :: map adds (filter p rs)))
               (in_eq _ _)).
    rewrite Hext, IH by assumption. reflexivity.
  - destruct (has_flag (adds r) (map adds (filter p rs))) eqn:E.
    + apply has_flag_In in E. exfalso. apply Hnotin.
      apply in_map_iff in E as [r' [<- Hr']].
      apply in_map. apply filter_In in Hr'. tauto.
    + now apply IH.
Qed.

Lemma classifier_flags_in_check_order (text : string) (intent : Intent) :
  in_check_order (snd (clause_risk_level text intent))
  = snd (clause_risk_level text intent).
Proof.
  rewrite clause_risk_level_as_rules. unfold classify_with.
  set (st := fold_left _ _ _).
  assert (Hsnd : snd (prohibition_bump intent st) = snd st).
  { unfold prohibition_bump. destruct intent, (fst st); reflexivity. }
  rewrite Hsnd. unfold st. rewrite fold_rules_snd. cbn [snd app].
  change FLAG_ORDER with (map adds TRIGGER_RULES).
  unfold in_check_order.
  change FLAG_ORDER with (map adds TRIGGER_RULES).
  apply fired_flags_in_rule_order.
  unfold TRIGGER_RULES. cbn [map adds].
  repeat (constructor; [simpl; intuition discriminate|]). constructor.
Qed.

Lemma explain_clause_risk (c : Clause) :
  let full_text := full_text_of c in
  let verdict := clause_risk_level full_text (classify_clause_intent full_text) in
  rf_clause_number (snd (explain_clause c)) = clause_number c
  /\ rf_heading (snd (explain_clause c)) = c_heading c
  /\ rf_risk_level (snd (explain_clause c)) = fst verdict
  /\ rf_flags (snd (explain_clause c)) = snd verdict.
Proof.
  intros full_text verdict. unfold explain_clause.
  fold full_text. fold verdict. destruct verdict as [risk flags].
  repeat split.
Qed.

Lemma analyze_contract_renegotiations (env : Env) (text : string)
  (language business_role : option string) :
  let r := analyze_contract env text language business_role in
  let risk_flags :=
    map snd (map explain_clause
               (split_into_clauses (normalize_language env text language))) in
  s6_renegotiation_suggestions r = flat_map renegotiation_of risk_flags
  /\ clause_risk_table (s5_risk_analysis_and_flags r)
     = map (fun rf => mkRiskRow (rf_clause_number rf) (rf_heading rf)
                        (rf_risk_level rf) (rf_flags rf)) risk_flags.
Proof.
  intros r risk_flags. unfold r, analyze_contract.
  destruct (detect_contract_type _) as [ctype cexpl]. split; reflexivity.
Qed.

(** C8.  Every renegotiation suggestion of an analysis belongs to a row of
    the risk table whose level is MEDIUM or HIGH and whose flag list is not
    empty; the flags of the row stand in the check order of the classifier,
    each flag has at most one remediation sentence ([remediation]), and the
    suggested change is the sentences of the row's flags joined by one
    space, in that order. *)
Theorem C8_renegotiation_suggestions (env : Env) (text : string)
  (language business_role : option string) (rn : Renegotiation) :
  let r := analyze_contract env text language business_role in
  In rn (s6_renegotiation_suggestions r) ->
  exists row,
    In row (clause_risk_table (s5_risk_analysis_and_flags r))
    /\ rr_clause_number row = rn_clause_number rn
    /\ rr_heading row = rn_heading rn
    /\ rr_risk_level row = rn_risk_level rn
    /\ (rr_risk_level row = MEDIUM \/ rr_risk_level row = HIGH)
    /\ rr_flags row <> []
    /\ in_check_order (rr_flags row) = rr_flags row
    /\ suggested_change rn = Py.join " " (sentences_of (rr_flags row)).
Proof.
  intros r Hin.
  destruct (analyze_contract_renegotiations env text language business_role)
    as [Hs6 Hs5].
  fold r in Hs6, Hs5. rewrite Hs6 in Hin. rewrite Hs5.
  apply in_flat_map in Hin as [rf [Hrf Hrn]].
  exists (mkRiskRow (rf_clause_number rf) (rf_heading rf)
            (rf_risk_level rf) (rf_flags rf)).
  split; [apply in_map_iff; now exists rf|]. cbn [rr_clause_number rr_heading
    rr_risk_level rr_flags].
  assert (Horder : in_check_order (rf_flags rf) = rf_flags rf).
  { apply in_map_iff in Hrf as [ex [<- Hex]].
    apply in_map_iff in Hex as [c [<- _]].
    destruct (explain_clause_risk c) as [_ [_ [_ ->]]].
    apply classifier_flags_in_check_order. }
  unfold renegotiation_of in Hrn.
  rewrite renegotiation_suggestion_spec, Horder in Hrn.
  destruct (rf_flags rf) as [|f fl] eqn:Hfl.
  { destruct (rf_risk_level rf); contradiction. }
  destruct (sentences_of (f :: fl)) as [|s ss] eqn:Hss.
  { destruct (rf_risk_level rf); contradiction. }
  assert (Hlevel : rf_risk_level rf = MEDIUM \/ rf_risk_level rf = HIGH
                   -> In rn (if Py.truthy (Py.join " " (s :: ss))
                             then [mkRenegotiation (rf_clause_number rf)
                                     (rf_heading rf) (rf_risk_level rf)
                                     (Py.join " " (s :: ss))
                                     "Reduces one-sided exposure and aligns with commonly negotiated positions for Indian SMEs."]
                             else [])
                   -> rf_clause_number rf = rn_clause_number rn
                      /\ rf_heading rf = rn_heading rn
                      /\ rf_risk_level rf = rn_risk_level rn
                      /\ suggested_change rn = Py.join " " (s :: ss)).
  { intros _ H. destruct (Py.truthy _); [|contradiction].
    destruct H as [<-|[]]. repeat split. }
  destruct (rf_risk_level rf) eqn:Hlv; [contradiction| |];
    (destruct Hlevel as [H1 [H2 [H3 H4]]]; [auto|exact Hrn|]);
    repeat split; auto; discriminate.
Qed.

Lemma C8_witness :
  exists row,
    In row (clause_risk_table
              (s5_risk_analysis_and_flags
                 (analyze_contract offline_env scenario_text
                    (Some "english") None)))
    /\ rr_clause_number row = 2
    /\ rr_heading row = "2. Termination"
    /\ rr_risk_level row = HIGH
    /\ (rr_risk_level row = MEDIUM \/ rr_risk_level row = HIGH)
    /\ rr_flags row <> []
    /\ in_check_order (rr_flags row) = rr_flags row
    /\ suggested_change scenario_renegotiation
       = Py.join " " (sentences_of (rr_flags row)).
Proof.
  apply (C8_renegotiation_suggestions offline_env scenario_text
           (Some "english") None scenario_renegotiation).
  vm_compute. left. reflexivity.
Defined.

(* ================================================================== *)
(** ** The template similarity matcher (C7) *)
(* ================================================================== *)

Lemma by_score_desc_spec (x y : TemplateMatch) :
  by_score_desc x y = true <-> (match_score y <= match_score x)%Q.
Proof.
  unfold by_score_desc. rewrite Qle_bool_iff. split; intros H.
  - apply Qopp_le_compat in H. now rewrite !Qopp_involutive in H.
  - now apply Qopp_le_compat.
Qed.

Lemma ranks_before_le (a b : TemplateMatch) :
  ranks_before a b -> (match_score b <= match_score a)%Q.
Proof.
  intros [H|[H _]]; [now apply Qlt_le_weak|].
  rewrite H. apply Qle_refl.
Qed.

Section StableSort.

Variable A : Type.
Variable le : A -> A -> bool.

Lemma insert_by_In (x z : A) (l : list A) :
  In z (Py.insert_by le x l) <-> z = x \/ In z l.
Proof.
  induction l as [|y l IH]; simpl.
  - intuition auto.
  - destruct (le x y); simpl; [intuition auto|].
    rewrite IH. intuition auto.
Qed.

Lemma sort_by_In (z : A) (l : list A) :
  In z (Py.sort_by le l) <-> In z l.
Proof.
  induction l as [|x l IH]; simpl; [reflexivity|].
  rewrite insert_by_In, IH. intuition auto.
Qed.

Lemma insert_by_length (x : A) (l : list A) :
  List.length (Py.insert_by le x l) = S (List.length l).
Proof.
  induction l as [|y l IH]; simpl; [reflexivity|].
  destruct (le x y); simpl; [reflexivity|now rewrite IH].
Qed.

End StableSort.

Lemma firstn_In {A : Type} (x : A) (n : nat) (l : list A) :
  In x (firstn n l) -> In x l.
Proof.
  revert l. induction n as [|n IH]; intros [|y l]; simpl; try tauto.
  intros [H|H]; [now left|right; now apply IH].
Qed.

Lemma StronglySorted_firstn {A : Type} (R : A -> A -> Prop) (n : nat)
  (l : list A) :
  StronglySorted R l -> StronglySorted R (firstn n l).
Proof.
  revert l. induction n as [|n IH]; intros l H; [constructor|].
  destruct H as [|x l Hl Hx]; simpl; [constructor|].
  constructor; [now apply IH|].
  rewrite Forall_forall in *. intros y Hy. apply Hx.
  eapply firstn_In. exact Hy.
Qed.

Lemma StronglySorted_impl_in {A : Type} (R R' : A -> A -> Prop) (l : list A) :
  (forall a b, In a l -> In b l -> R a b -> R' a b) ->
  StronglySorted R l -> StronglySorted R' l.
Proof.
  intros Himp H. induction H as [|x l Hl IH Hx]; constructor.
  - apply IH. intros a b Ha Hb. apply Himp; now right.
  - rewrite Forall_forall in *. intros y Hy.
    apply Himp; [now left|now right|now apply Hx].
Qed.

(** The stable sort puts a list given in declaration order into the order
    [ranks_before]. *)
Lemma insert_ranked (x : TemplateMatch) (s : list TemplateMatch) :
  StronglySorted ranks_before s ->
  Forall (fun y => decl_index x < decl_index y) s ->
  StronglySorted ranks_before (Py.insert_by by_score_desc x s).
Proof.
  intros Hs. induction Hs as [|y s Hs IH Hy]; intros Hidx; simpl.
  - repeat constructor.
  - inversion Hidx as [|? ? Hxy Hxs]; subst.
    destruct (by_score_desc x y) eqn:E.
    + apply by_score_desc_spec in E.
      constructor; [now constructor|].
      assert (Hall : forall z, In z (y :: s) ->
                (match_score z <= match_score y)%Q).
      { intros z [<-|Hz]; [apply Qle_refl|].
        rewrite Forall_forall in Hy. now apply ranks_before_le, Hy. }
      rewrite Forall_forall in Hidx |- *. intros z Hz.
      assert (Hzx : (match_score z <= match_score x)%Q)
        by (eapply Qle_trans; [now apply Hall|exact E]).
      apply Qle_lteq in Hzx as [Hlt|Heq]; [now left|right].
      split; [now symmetry|now apply Hidx].
    + assert (Hlt : (match_score x < match_score y)%Q).
      { apply Qnot_le_lt. intros H. apply by_score_desc_spec in H.
        congruence. }
      constructor; [now apply IH|].
      rewrite Forall_forall in Hy |- *. intros z Hz.
      apply insert_by_In in Hz as [->|Hz]; [now left|now apply Hy].
Qed.

Lemma sort_ranked (l : list TemplateMatch) :
  StronglySorted (fun a b => decl_index a < decl_index b) l ->
  StronglySorted ranks_before (Py.sort_by by_score_desc l).
Proof.
  induction 1 as [|x l Hl IH Hx]; simpl; [constructor|].
  apply insert_ranked; [exact IH|].
  rewrite Forall_forall in Hx |- *. intros y Hy.
  apply Hx. now apply sort_by_In in Hy.
Qed.

Lemma sort_by_length {A : Type} (le : A -> A -> bool) (l : list A) :
  List.length (Py.sort_by le l) = List.length l.
Proof.
  induction l as [|x l IH]; simpl; [reflexivity|].
  now rewrite insert_by_length, IH.
Qed.

(** The scores a template of one to five keywords can get: the float test
    against 0.2 agrees with the exact one against 1/5, the minimum with 1.0
    changes nothing, and a score that is kept is reported in [0.2, 1]. *)
Lemma score_table (m k : nat) :
  1 <= k <= 5 -> m <= k ->
  let s := B64.int_truediv (Z.of_nat m) (Z.of_nat (Nat.max k 1)) in
  s = B64.int_truediv (Z.of_nat m) (Z.of_nat k)
  /\ B64.leb (B64.literal 2 10) s
     = Qle_bool (1 # 5) (Qmake (Z.of_nat m) (Pos.of_nat k))
  /\ min_one s = s
  /\ (B64.leb (B64.literal 2 10) s = true ->
      (2 # 10 <= B64.round2 s)%Q /\ (B64.round2 s <= 1)%Q).
Proof.
  intros Hk Hm.
  assert (Hcases : k = 1 \/ k = 2 \/ k = 3 \/ k = 4 \/ k = 5) by lia.
  assert (Hm' : m = 0 \/ m = 1 \/ m = 2 \/ m = 3 \/ m = 4 \/ m = 5) by lia.
  destruct Hcases as [->|[->|[->|[->| ->]]]];
    destruct Hm' as [->|[->|[->|[->|[->| ->]]]]]; try lia;
    vm_compute;
    (split; [reflexivity|split; [reflexivity|split; [reflexivity|]]]);
    intros H; try discriminate H; split; discriminate.
Qed.

Lemma templates_have_keywords :
  Forall (fun t => 1 <= List.length (keywords_of t) <= 5)
         STANDARD_CLAUSE_TEMPLATES.
Proof.
  apply Forall_forall. intros t Ht.
  assert (H : forallb (fun t => (1 <=? List.length (keywords_of t))
                                && (List.length (keywords_of t) <=? 5))
                      STANDARD_CLAUSE_TEMPLATES = true)
    by (vm_compute; reflexivity).
  rewrite forallb_forall in H. specialize (H t Ht).
  apply andb_true_iff in H as [H1 H2].
  apply Nat.leb_le in H1. apply Nat.leb_le in H2. lia.
Qed.

Lemma matched_in_length (combined : string) (t : Template) :
  List.length (matched_in combined t) <= List.length (keywords_of t).
Proof. unfold matched_in. apply filter_length_le. Qed.

(** What the loop appends for a declared template. *)
Lemma match_template_spec (combined : string) (t : Template) :
  In t STANDARD_CLAUSE_TEMPLATES ->
  match_template combined t
  = (if Qle_bool (1 # 5) (keyword_ratio combined t)
     then [record_of combined t] else [])
  /\ (Qle_bool (1 # 5) (keyword_ratio combined t) = true ->
      (2 # 10 <= match_score (record_of combined t))%Q
      /\ (match_score (record_of combined t) <= 1)%Q).
Proof.
  intros Hin.
  pose proof templates_have_keywords as Hk. rewrite Forall_forall in Hk.
  specialize (Hk t Hin).
  pose proof (matched_in_length combined t) as Hm.
  destruct (score_table _ _ Hk Hm) as [Hmax [Hkeep [Hmin Hrange]]].
  unfold match_template, keyword_ratio, record_of, raw_score in *.
  cbn [match_score].
  rewrite <- Hkeep, <- Hmax.
  destruct (matched_in combined t) as [|kw kws] eqn:E.
  - split; [reflexivity|]. intros H. exact (Hrange H).
  - rewrite Hmin. split; [reflexivity|exact Hrange].
Qed.

Lemma position_head (x : string) (l : list string) : position x (x :: l) = 0.
Proof. simpl. now rewrite String.eqb_refl. Qed.

Lemma position_tail (x y : string) (l : list string) :
  x <> y -> position x (y :: l) = S (position x l).
Proof.
  intros H. simpl. destruct (String.eqb_spec x y); [contradiction|reflexivity].
Qed.

(** A loop over the templates that appends at most one record per
    template, under the template's id, builds its list in declaration
    order. *)
Lemma declared_order (f : Template -> list TemplateMatch)
  (ts : list Template) :
  NoDup (map t_id ts) ->
  (forall t r, In r (f t) -> template_id r = t_id t) ->
  (forall t, List.length (f t) <= 1) ->
  StronglySorted
    (fun a b => position (template_id a) (map t_id ts)
                < position (template_id b) (map t_id ts))
    (flat_map f ts).
Proof.
  intros Hnd Hid Hone. induction ts as [|t ts IH]; [constructor|].
  inversion Hnd as [|? ? Hnotin Hnd']; subst.
  assert (Htail : forall b, In b (flat_map f ts) ->
            position (template_id b) (map t_id (t :: ts))
            = S (position (template_id b) (map t_id ts))).
  { intros b Hb. apply in_flat_map in Hb as [t' [Ht' Hb]].
    cbn [map]. apply position_tail. rewrite (Hid _ _ Hb).
    intros E. apply Hnotin. rewrite <- E. now apply in_map. }
  assert (Hsorted : StronglySorted
            (fun a b => position (template_id a) (map t_id (t :: ts))
                        < position (template_id b) (map t_id (t :: ts)))
            (flat_map f ts)).
  { apply (StronglySorted_impl_in _ _ _ (fun a b Ha Hb H =>
      eq_ind_r (fun n => n < _) (eq_ind_r (fun n => _ < n)
        (proj1 (Nat.succ_lt_mono _ _) H) (Htail b Hb)) (Htail a Ha))).
    now apply IH. }
  cbn [flat_map]. specialize (Hone t).
  destruct (f t) as [|r [|r' rest]] eqn:E; simpl in Hone; try lia.
  - exact Hsorted.
  - cbn [app]. constructor; [exact Hsorted|].
    rewrite Forall_forall. intros b Hb. rewrite (Htail b Hb).
    assert (Hr : template_id r = t_id t) by (apply Hid; rewrite E; now left).
    rewrite Hr. cbn [map]. rewrite position_head. lia.
Qed.

Lemma template_ids_distinct : NoDup (map t_id STANDARD_CLAUSE_TEMPLATES).
Proof.
  cbn [map STANDARD_CLAUSE_TEMPLATES t_id].
  repeat (constructor; [simpl; intuition discriminate|]). constructor.
Qed.

Lemma match_template_shape (combined : string) (t : Template) :
  (forall r, In r (match_template combined t) -> template_id r = t_id t)
  /\ List.length (match_template combined t) <= 1.
Proof.
  unfold match_template.
  destruct (matched_in combined t); [simpl; split; [tauto|lia]|].
  destruct (B64.leb _ _); simpl; split; try tauto; try lia.
  intros r [<-|[]]. reflexivity.
Qed.

Lemma nothing_matches_empty :
  flat_map (match_template EmptyString) STANDARD_CLAUSE_TEMPLATES = [].
Proof. vm_compute. reflexivity. Qed.

(** C7, as the code has it.  For every clause, with [combined] its
    normalized text: the result is the first five of a ranking whose
    records are those of the templates, among the 10 declared, whose share
    of keywords occurring in [combined] as substrings is at least 1/5; the
    ranking is by descending reported score, equal scores in declaration
    order (a strict order, so no record comes twice); a record reports the
    share rounded to two decimals and the first five matched keywords;
    every reported score lies in [0.20, 1.0]. *)
Theorem C7_template_matches (clause_heading clause_body : string) :
  let combined :=
    _normalize_for_similarity (clause_heading ++ " " ++ clause_body) in
  let res := clause_similarity_to_templates clause_heading clause_body in
  List.length STANDARD_CLAUSE_TEMPLATES = 10
  /\ exists ranked,
       res = firstn 5 ranked
       /\ (forall m, In m ranked <->
             exists t, In t STANDARD_CLAUSE_TEMPLATES
                       /\ (1 # 5 <= keyword_ratio combined t)%Q
                       /\ m = record_of combined t)
       /\ StronglySorted ranks_before ranked
       /\ StronglySorted ranks_before res
       /\ List.length res <= 5
       /\ (forall m, In m res ->
             (2 # 10 <= match_score m)%Q /\ (match_score m <= 1)%Q).
Proof.
  intros combined res. split; [reflexivity|].
  set (results := flat_map (match_template combined) STANDARD_CLAUSE_TEMPLATES).
  exists (Py.sort_by by_score_desc results).
  assert (Hres : res = firstn 5 (Py.sort_by by_score_desc results)).
  { unfold res, clause_similarity_to_templates. fold combined.
    unfold results. destruct combined; [|reflexivity].
    cbn [Py.truthy negb]. now rewrite nothing_matches_empty. }
  assert (Hmem : forall m, In m (Py.sort_by by_score_desc results) <->
            exists t, In t STANDARD_CLAUSE_TEMPLATES
                      /\ (1 # 5 <= keyword_ratio combined t)%Q
                      /\ m = record_of combined t).
  { intros m. rewrite sort_by_In. unfold results. rewrite in_flat_map.
    split.
    - intros [t [Ht Hm]]. exists t. split; [exact Ht|].
      destruct (match_template_spec combined t Ht) as [Hspec _].
      rewrite Hspec in Hm.
      destruct (Qle_bool (1 # 5) (keyword_ratio combined t)) eqn:E;
        [|contradiction].
      destruct Hm as [<-|[]]. split; [apply Qle_bool_iff; exact E|reflexivity].
    - intros [t [Ht [Hr ->]]]. exists t. split; [exact Ht|].
      destruct (match_template_spec combined t Ht) as [Hspec _].
      rewrite Hspec. apply Qle_bool_iff in Hr. rewrite Hr. now left. }
  assert (Hsorted : StronglySorted ranks_before
                      (Py.sort_by by_score_desc results)).
  { apply sort_ranked. unfold decl_index, results.
    apply declared_order.
    - exact template_ids_distinct.
    - intros t r. apply (proj1 (match_template_shape combined t)).
    - intros t. apply (proj2 (match_template_shape combined t)). }
  split; [exact Hres|]. split; [exact Hmem|]. split; [exact Hsorted|].
  split; [rewrite Hres; now apply StronglySorted_firstn|].
  split; [rewrite Hres; apply firstn_le_length|].
  intros m Hm. rewrite Hres in Hm. apply firstn_In in Hm.
  destruct (proj1 (Hmem m) Hm) as [t [Ht [Hr ->]]].
  destruct (match_template_spec combined t Ht) as [_ Hrange].
  apply Hrange. apply Qle_bool_iff. exact Hr.
Qed.

(** The claim fails on the code: the clause "Determination" contains no
    keyword of the first template as a word, yet it is matched with it
    through the keyword "term", which occurs inside its only word. *)
Lemma C7_counterexample :
  words_present "Determination" EmptyString = ["determination"]
  /\ filter (fun k => Py.mem k (words_present "Determination" EmptyString))
            ["term"; "terminate"; "notice"; "days"; "renewal"] = []
  /\ map (fun m => (template_id m, matched_keywords m))
         (clause_similarity_to_templates "Determination" EmptyString)
     = [("term_notice", ["term"])].
Proof. repeat split; vm_compute; reflexivity. Qed.
(* ================================================================== *)
(** ** The risk classifier: flags, levels and surrounding text *)
(* ================================================================== *)

Lemma trigger_flags_distinct : NoDup (map adds TRIGGER_RULES).
Proof.
  unfold TRIGGER_RULES. cbn [map adds].
  repeat (constructor; [simpl; intuition discriminate|]). constructor.
Qed.

Lemma flags_of_fired (text : string) (intent : Intent) :
  flags_of text intent
  = map adds (filter (fun rule => fires rule (Py.lower text)) TRIGGER_RULES).
Proof.
  unfold flags_of. rewrite clause_risk_level_as_rules. unfold classify_with.
  set (st := fold_left _ _ _).
  assert (Hsnd : snd (prohibition_bump intent st) = snd st).
  { unfold prohibition_bump. destruct intent, (fst st); reflexivity. }
  rewrite Hsnd. unfold st. rewrite fold_rules_snd. reflexivity.
Qed.

Lemma fired_flags_distinct (p : Rule -> bool) (rules : list Rule) :
  NoDup (map adds rules) -> NoDup (map adds (filter p rules)).
Proof.
  induction rules as [|rule rules IH]; intros Hnd; [constructor|].
  inversion Hnd as [|? ? Hfresh Hrest]; subst. cbn [filter].
  destruct (p rule); [|now apply IH].
  cbn [map]. constructor; [|now apply IH].
  intros Hin. apply Hfresh. apply in_map_iff in Hin as [other [E Hother]].
  apply in_map_iff. exists other. split; [exact E|].
  apply filter_In in Hother. tauto.
Qed.

Lemma in_map_adds_filter (p : Rule -> bool) (rules : list Rule) (rule : Rule) :
  NoDup (map adds rules) -> In rule rules ->
  (In (adds rule) (map adds (filter p rules)) <-> p rule = true).
Proof.
  intros Hnd Hin. split.
  - intros H. apply in_map_iff in H as [r' [E Hr']].
    apply filter_In in Hr' as [Hr' Hp].
    assert (r' = rule); [|now subst].
    clear Hp. induction rules as [|x rules IH]; [contradiction|].
    inversion Hnd as [|? ? Hnotin Hnd']; subst.
    destruct Hin as [->|Hin], Hr' as [->|Hr']; auto.
    + exfalso. apply Hnotin. rewrite <- E. now apply in_map.
    + exfalso. apply Hnotin. rewrite E. now apply in_map.
  - intros Hp. apply in_map. apply filter_In. now split.
Qed.


Lemma flag_iff_rule (text : string) (intent : Intent) (i : nat) (rule : Rule) :
  nth_error TRIGGER_RULES i = Some rule ->
  (In (adds rule) (flags_of text intent)
   <-> fires rule (Py.lower text) = true).
Proof.
  intros H. rewrite flags_of_fired.
  apply (in_map_adds_filter (fun r => fires r (Py.lower text))
           TRIGGER_RULES rule trigger_flags_distinct).
  eapply nth_error_In. exact H.
Qed.

Lemma risk_step_low (lower : string) (rule : Rule) (risk : RiskLevel) :
  raises lower rule ->
  risk_step lower risk rule = LOW
  <-> risk = LOW /\ escalates lower rule = false.
Proof.
  intros [t Ht]. unfold risk_step, escalates.
  destruct (fires rule lower); cbn [andb].
  - rewrite !Ht. destruct risk, t; cbn; intuition congruence.
  - intuition congruence.
Qed.

Lemma fold_risk_low (lower : string) (rules : list Rule) (risk : RiskLevel) :
  Forall (raises lower) rules ->
  fold_left (risk_step lower) rules risk = LOW
  <-> risk = LOW /\ existsb (escalates lower) rules = false.
Proof.
  intros Hall. revert risk.
  induction Hall as [|rule rules Hr _ IH]; intros risk; simpl.
  - intuition congruence.
  - rewrite IH, (risk_step_low lower rule risk Hr), orb_false_iff. tauto.
Qed.

(** The rules that raise a LOW risk are those whose flag has a remediation
    sentence. *)
Lemma escalating_rules_have_remedies (lower : string) :
  Forall (fun rule =>
            escalates lower rule
            = fires rule lower
              && match remediation (adds rule) with
                 | Some _ => true
                 | None => false
                 end) TRIGGER_RULES.
Proof.
  unfold TRIGGER_RULES, escalates.
  repeat constructor; cbn [fires then_risk adds remediation risk_max
                           risk_index Nat.ltb Nat.leb]; try reflexivity.
  destruct (Py.isin "unlimited" lower || Py.isin "all claims" lower);
    reflexivity.
Qed.

Lemma sentences_of_nil (flags : list Flag) :
  sentences_of flags = [] <-> forall f, In f flags -> remediation f = None.
Proof.
  unfold sentences_of. induction flags as [|f flags IH]; simpl.
  - intuition auto.
  - destruct (remediation f) eqn:E; simpl.
    + split; [discriminate|]. intros H. specialize (H f (or_introl eq_refl)).
      congruence.
    + rewrite IH. split.
      * intros H g [<-|Hg]; auto.
      * intros H g Hg. apply H. now right.
Qed.

Lemma no_escalation_iff (lower : string) (rules : list Rule) :
  Forall (fun rule =>
            escalates lower rule
            = fires rule lower
              && match remediation (adds rule) with
                 | Some _ => true
                 | None => false
                 end) rules ->
  existsb (escalates lower) rules = false
  <-> sentences_of (map adds (filter (fun r => fires r lower) rules)) = [].
Proof.
  intros Hall. induction Hall as [|rule rules Hr _ IH]; simpl.
  - unfold sentences_of. simpl. tauto.
  - rewrite orb_false_iff, IH, Hr.
    destruct (fires rule lower); cbn [andb map].
    + unfold sentences_of. cbn [flat_map].
      destruct (remediation (adds rule)); simpl.
      * split; [intros [H _]; discriminate|discriminate].
      * tauto.
    + tauto.
Qed.

Lemma level_low_iff (text : string) (intent : Intent) :
  level_of text intent = LOW
  <-> (forall f, In f (flags_of text intent) -> remediation f = None)
      /\ intent <> PROHIBITION.
Proof.
  rewrite <- sentences_of_nil, flags_of_fired.
  rewrite <- (no_escalation_iff (Py.lower text) TRIGGER_RULES
                (escalating_rules_have_remedies (Py.lower text))).
  unfold level_of. rewrite clause_risk_level_as_rules. unfold classify_with.
  set (st := fold_left _ _ _).
  assert (Hst : fst st = LOW
                <-> existsb (escalates (Py.lower text)) TRIGGER_RULES = false).
  { unfold st. rewrite fold_rules_fst.
    rewrite (fold_risk_low _ _ _ (trigger_rules_raise (Py.lower text))).
    cbn [fst]. tauto. }
  rewrite <- Hst. clearbody st. unfold prohibition_bump.
  destruct intent, st as [[] flags]; cbn [fst snd];
    intuition congruence.
Qed.

Lemma level_high_iff (text : string) (intent : Intent) :
  level_of text intent = HIGH
  <-> In lock_in_or_non_cancellable (flags_of text intent)
      \/ In unlimited_liability (flags_of text intent)
      \/ (In indemnity (flags_of text intent)
          /\ Py.isin "unlimited" (Py.lower text)
             || Py.isin "all claims" (Py.lower text) = true).
Proof.
  rewrite (flag_iff_rule text intent 0 _ eq_refl).
  rewrite (flag_iff_rule text intent 2 _ eq_refl).
  rewrite (flag_iff_rule text intent 3 _ eq_refl).
  cbn [fires].
  unfold level_of. rewrite clause_risk_level_as_rules. unfold classify_with.
  rewrite bump_high, fold_rules_fst.
  rewrite (fold_risk_high _ _ _ (trigger_rules_raise (Py.lower text))).
  cbn [fst]. unfold TRIGGER_RULES, sets_high.
  cbn [existsb fires then_risk risk_max risk_index Nat.ltb Nat.leb].
  set (lower := Py.lower text).
  rewrite !andb_false_r, !andb_true_r, !orb_false_r.
  destruct (Py.isin "unlimited" lower || Py.isin "all claims" lower);
    rewrite ?andb_true_r, ?andb_false_r, ?orb_false_r, ?orb_false_l,
            !orb_true_iff;
    intuition congruence.
Qed.

(** X2.  The level of [clause_risk_level] read off its flags.  It is LOW
    exactly when no flag has a remediation sentence and the intent is not
    PROHIBITION; it is HIGH exactly when the lock-in flag or the
    unlimited-liability flag is raised, or the indemnity flag with
    unlimited or all claims in the text; a PROHIBITION is never LOW. *)
Theorem level_from_flags (text : string) (intent : Intent) :
  (level_of text intent = LOW
   <-> (forall f, In f (flags_of text intent) -> remediation f = None)
       /\ intent <> PROHIBITION)
  /\ (level_of text intent = HIGH
      <-> In lock_in_or_non_cancellable (flags_of text intent)
          \/ In unlimited_liability (flags_of text intent)
          \/ (In indemnity (flags_of text intent)
              /\ Py.isin "unlimited" (Py.lower text)
                 || Py.isin "all claims" (Py.lower text) = true))
  /\ (intent = PROHIBITION -> level_of text intent <> LOW).
Proof.
  split; [apply level_low_iff|]. split; [apply level_high_iff|].
  intros -> H. apply level_low_iff in H. tauto.
Qed.

(** *** Text around a clause *)

Lemma isin_prepend (k p s : string) :
  Py.isin k s = true -> Py.isin k (p ++ s) = true.
Proof.
  intros H. induction p as [|c p IH]; [exact H|].
  cbn [String.append Py.isin]. rewrite IH. apply orb_true_r.
Qed.

Lemma isin_context (k pre s post : string) :
  Py.isin k s = true -> Py.isin k (pre ++ s ++ post) = true.
Proof. intros H. apply isin_prepend, isin_app, H. Qed.

Lemma any_in_context (ks : list string) (pre s post : string) :
  Py.any_in ks s = true -> Py.any_in ks (pre ++ s ++ post) = true.
Proof.
  unfold Py.any_in. rewrite !existsb_exists.
  intros [k [Hk H]]. exists k. split; [exact Hk|]. now apply isin_context.
Qed.

Lemma lower_context (pre s post : string) :
  Py.lower (pre ++ s ++ post)
  = (Py.lower pre ++ Py.lower s ++ Py.lower post)%string.
Proof. now rewrite !lower_app. Qed.

Ltac grow_isin :=
  repeat match goal with
         | H : (_ || _) = true |- _ => apply orb_true_iff in H; destruct H
         | H : (_ && _) = true |- _ => apply andb_true_iff in H; destruct H
         | H : Py.isin ?k ?s = true |- context [Py.isin ?k (?p ++ ?s ++ ?q)] =>
             rewrite (isin_context k p s q H)
         end;
  rewrite ?orb_true_r, ?orb_true_l; cbn [andb orb]; try reflexivity.

Lemma rules_fire_in_context (pre s post : string) :
  Forall (fun rule =>
            adds rule <> unilateral_termination ->
            fires rule s = true -> fires rule (pre ++ s ++ post) = true)
         TRIGGER_RULES.
Proof.
  unfold TRIGGER_RULES.
  repeat constructor; cbn [fires adds]; intros Hne H;
    try congruence; grow_isin.
Qed.

Lemma sets_high_context (pre s post : string) :
  Forall (fun rule =>
            sets_high s rule = true ->
            sets_high (pre ++ s ++ post) rule = true) TRIGGER_RULES.
Proof.
  unfold TRIGGER_RULES, sets_high.
  repeat constructor; cbn [fires then_risk]; intros H;
    try (rewrite andb_false_r in H; discriminate);
    try (destruct (risk_max LOW MEDIUM) eqn:E; [ | |discriminate E];
         rewrite andb_false_r in H; discriminate).
  - grow_isin.
  - apply andb_true_iff in H. destruct H as [H1 H2].
    destruct (Py.isin "unlimited" s || Py.isin "all claims" s) eqn:E.
    + grow_isin.
    + cbn in H2. discriminate.
  - grow_isin.
Qed.

Lemma fired_in_context (pre text post : string) (intent intent' : Intent)
  (f : Flag) :
  In f (flags_of text intent) -> f <> unilateral_termination ->
  In f (flags_of (pre ++ text ++ post) intent').
Proof.
  rewrite !flags_of_fired, lower_context. intros Hin Hne.
  apply in_map_iff in Hin. destruct Hin as [rule [<- Hr]].
  apply filter_In in Hr. destruct Hr as [Hr Hf].
  apply in_map, filter_In. split; [exact Hr|].
  pose proof (rules_fire_in_context (Py.lower pre) (Py.lower text)
                (Py.lower post)) as Hall.
  rewrite Forall_forall in Hall. now apply Hall.
Qed.

Lemma high_in_context (pre text post : string) (intent intent' : Intent) :
  level_of text intent = HIGH -> level_of (pre ++ text ++ post) intent' = HIGH.
Proof.
  unfold level_of.
  rewrite (clause_risk_level_as_rules text intent),
          (clause_risk_level_as_rules (pre ++ text ++ post) intent').
  unfold classify_with.
  rewrite !bump_high, !fold_rules_fst, lower_context. cbn [fst].
  rewrite !fold_risk_high by apply trigger_rules_raise.
  intros [H|H]; [discriminate|]. right.
  apply existsb_exists in H. destruct H as [rule [Hr Hs]].
  apply existsb_exists. exists rule. split; [exact Hr|].
  pose proof (sets_high_context (Py.lower pre) (Py.lower text)
                (Py.lower post)) as Hall.
  rewrite Forall_forall in Hall. now apply Hall.
Qed.

(** X3.  Text put before and after a clause takes no flag away, the
    flag of one-sided termination apart, and leaves a HIGH clause at HIGH,
    whatever the intent.  The exception is real: the words the rule of
    one-sided termination excludes, once added, take the flag and the
    MEDIUM level away. *)
Theorem flags_survive_surrounding_text :
  (forall pre text post intent intent' f,
     In f (flags_of text intent) -> f <> unilateral_termination ->
     In f (flags_of (pre ++ text ++ post) intent'))
  /\ (forall pre text post intent intent',
        level_of text intent = HIGH ->
        level_of (pre ++ text ++ post) intent' = HIGH)
  /\ (In unilateral_termination
         (flags_of "The Client may terminate at will." RIGHT)
      /\ level_of "The Client may terminate at will." RIGHT = MEDIUM
      /\ flags_of ("The Client may terminate at will."
                   ++ " The other party may not.") RIGHT = []
      /\ level_of ("The Client may terminate at will."
                   ++ " The other party may not.") RIGHT = LOW).
Proof.
  split; [|split].
  - intros. eapply fired_in_context; eauto.
  - intros. eapply high_in_context; eauto.
  - vm_compute. intuition.
Qed.

(** X5.  Text put before and after a clause moves its intent up the
    order of the tests of [classify_clause_intent] (PROHIBITION,
    OBLIGATION, RIGHT, CONDITIONAL, INFORMATIONAL), never down. *)
Theorem intent_priority_in_context (pre text post : string) :
  intent_rank (classify_clause_intent (pre ++ text ++ post))
  <= intent_rank (classify_clause_intent text).
Proof.
  unfold classify_clause_intent. rewrite lower_context.
  set (a := Py.lower text). set (p := Py.lower pre). set (q := Py.lower post).
  repeat match goal with
         | |- context [Py.any_in ?ks a] =>
             let E := fresh "E" in
             destruct (Py.any_in ks a) eqn:E;
             [rewrite (any_in_context ks p a q E)|]
         end;
  repeat match goal with
         | |- context [Py.any_in ?ks (p ++ a ++ q)%string] =>
             destruct (Py.any_in ks (p ++ a ++ q)%string)
         end; cbn [intent_rank]; lia.
Qed.

Lemma detect_contract_type_cases (text : string) :
  In (fst (detect_contract_type text)) CONTRACT_TYPES.
Proof.
  unfold detect_contract_type.
  repeat match goal with
         | |- context [if ?c then _ else _] => destruct c
         end; cbn; tauto.
Qed.

(** X6.  [detect_contract_type] answers one of seven types, and text put
    before and after a contract moves its type up the order of the tests
    (NDA first, the mixed type last), never down. *)
Theorem contract_type_priority_in_context (pre text post : string) :
  In (fst (detect_contract_type text)) CONTRACT_TYPES
  /\ type_rank (pre ++ text ++ post) <= type_rank text.
Proof.
  split; [apply detect_contract_type_cases|].
  unfold type_rank, detect_contract_type. rewrite lower_context.
  set (a := Py.lower text). set (p := Py.lower pre). set (q := Py.lower post).
  repeat match goal with
         | |- context [Py.any_in ?ks a] =>
             let E := fresh "E" in
             destruct (Py.any_in ks a) eqn:E;
             [rewrite (any_in_context ks p a q E)|]
         end;
  repeat match goal with
         | |- context [Py.any_in ?ks (p ++ a ++ q)%string] =>
             destruct (Py.any_in ks (p ++ a ++ q)%string)
         end; vm_compute; lia.
Qed.

(** *** Keywords inside words *)

Lemma nda_inside (pre word post : string) :
  Py.isin "nda" (Py.lower word) = true ->
  detect_contract_type (pre ++ word ++ post)
  = ("NDA / Confidentiality Agreement",
     "Mentions non-disclosure / confidentiality obligations typical of NDAs.").
Proof.
  intros H. unfold detect_contract_type. rewrite lower_context.
  rewrite any_in_context; [reflexivity|].
  unfold Py.any_in. cbn [existsb]. rewrite H. now rewrite !orb_true_r.
Qed.

Lemma fine_inside (pre word post : string) (intent : Intent) :
  Py.isin "fine" (Py.lower word) = true ->
  In penalties_or_liquidated_damages (flags_of (pre ++ word ++ post) intent)
  /\ level_of (pre ++ word ++ post) intent <> LOW.
Proof.
  intros H.
  assert (Hin : In penalties_or_liquidated_damages
                   (flags_of (pre ++ word ++ post) intent)).
  { apply (proj2 (flag_iff_rule _ intent 7 _ eq_refl)). cbn [fires].
    rewrite lower_context, (isin_context _ _ _ _ H). apply orb_true_r. }
  split; [exact Hin|]. intros Hlow. apply level_low_iff in Hlow.
  destruct Hlow as [Hnone _]. specialize (Hnone _ Hin). discriminate.
Qed.

Lemma may_inside (pre word post : string) :
  Py.isin "may" (Py.lower word) = true ->
  intent_rank (classify_clause_intent (pre ++ word ++ post)) <= 2.
Proof.
  intros H. unfold classify_clause_intent. rewrite lower_context.
  set (t := (Py.lower pre ++ Py.lower word ++ Py.lower post)%string).
  assert (Hm : Py.any_in ["may"; "entitled to"; "reserves the right"] t = true).
  { unfold t. apply any_in_context. unfold Py.any_in. cbn [existsb].
    now rewrite H. }
  destruct (Py.any_in ["shall not"; "must not"; "prohibited"; "no party shall"]
              t); [cbn; lia|].
  destruct (Py.any_in ["shall"; "must"; "agrees to"; "undertakes to"] t);
    [cbn; lia|].
  rewrite Hm. cbn. lia.
Qed.

(** X26.  The keyword tests look for phrases inside words.  Whatever
    stands around them, the word standard (or Monday, calendar, mandatory)
    makes a contract an NDA, since it holds the letters nda; the word
    defined (or refinery, confined) raises the penalties flag and a level
    above LOW, since it holds the word fine; and the word maybe (or dismay,
    Mayor) makes a clause a RIGHT or more. *)
Theorem keywords_match_inside_words (pre post : string) :
  (forall word, In word ["standard"; "Monday"; "calendar"; "mandatory"] ->
     fst (detect_contract_type (pre ++ word ++ post))
     = "NDA / Confidentiality Agreement")
  /\ (forall word intent, In word ["defined"; "refinery"; "confined"] ->
        In penalties_or_liquidated_damages
           (flags_of (pre ++ word ++ post) intent)
        /\ level_of (pre ++ word ++ post) intent <> LOW)
  /\ (forall word, In word ["maybe"; "dismay"; "Mayor"] ->
        intent_rank (classify_clause_intent (pre ++ word ++ post)) <= 2).
Proof.
  split; [|split].
  - intros word Hw. rewrite nda_inside; [reflexivity|].
    cbn [In] in Hw. repeat destruct Hw as [<-|Hw]; try reflexivity.
    destruct Hw.
  - intros word intent Hw. apply fine_inside.
    cbn [In] in Hw. repeat destruct Hw as [<-|Hw]; try reflexivity.
    destruct Hw.
  - intros word Hw. apply may_inside.
    cbn [In] in Hw. repeat destruct Hw as [<-|Hw]; try reflexivity.
    destruct Hw.
Qed.

(* ================================================================== *)
(** ** Renegotiation suggestions *)
(* ================================================================== *)

Lemma every_flag_is_checked (f : Flag) : In f FLAG_ORDER.
Proof. destruct f; cbn; tauto. Qed.

Lemma in_check_order_In (flags : list Flag) (f : Flag) :
  In f (in_check_order flags) <-> In f flags.
Proof.
  unfold in_check_order. rewrite filter_In, has_flag_In.
  pose proof (every_flag_is_checked f). tauto.
Qed.

Lemma in_check_order_ext (a b : list Flag) :
  (forall f, In f a <-> In f b) -> in_check_order a = in_check_order b.
Proof.
  intros H. unfold in_check_order. apply filter_ext. intros f.
  apply eq_true_iff_eq. rewrite !has_flag_In. apply H.
Qed.

Lemma isin_refl (s : string) : Py.isin s s = true.
Proof.
  destruct s as [|c s]; cbn [Py.isin]; [reflexivity|].
  rewrite (proj2 (String.prefix_correct _ _)); [reflexivity|].
  cbn [String.length String.substring].
  f_equal. clear c. induction s as [|c s IH]; cbn; [reflexivity|].
  now rewrite IH.
Qed.

Lemma isin_in_join (sep x : string) (l : list string) :
  In x l -> Py.isin x (Py.join sep l) = true.
Proof.
  induction l as [|y l IH]; [intros []|].
  intros [->|Hin].
  - destruct l as [|z l]; cbn [Py.join]; [apply isin_refl|].
    apply isin_app, isin_refl.
  - destruct l as [|z l]; [destruct Hin|].
    change (Py.join sep (y :: z :: l))
      with (y ++ sep ++ Py.join sep (z :: l))%string.
    apply isin_prepend, isin_prepend, IH, Hin.
Qed.

Lemma remediation_truthy (f : Flag) (s : string) :
  remediation f = Some s -> Py.truthy s = true.
Proof. destruct f; cbn; intros H; inversion H; reflexivity. Qed.

Lemma sentences_of_In (flags : list Flag) (s : string) :
  In s (sentences_of flags) <-> exists f, In f flags /\ remediation f = Some s.
Proof.
  unfold sentences_of. rewrite in_flat_map. split.
  - intros [f [Hf Hs]]. exists f. split; [exact Hf|].
    destruct (remediation f); cbn in Hs; [|tauto].
    destruct Hs as [->|[]]. reflexivity.
  - intros [f [Hf Hs]]. exists f. split; [exact Hf|].
    rewrite Hs. now left.
Qed.

Lemma truthy_app_l (a b : string) :
  Py.truthy a = true -> Py.truthy (a ++ b) = true.
Proof. destruct a; [discriminate|reflexivity]. Qed.

Lemma join_sentences_truthy (flags : list Flag) :
  sentences_of flags <> [] ->
  Py.truthy (Py.join " " (sentences_of flags)) = true.
Proof.
  intros Hne.
  destruct (sentences_of flags) as [|s ss] eqn:E; [congruence|].
  assert (Hs : Py.truthy s = true).
  { assert (Hin : In s (sentences_of flags)) by (rewrite E; now left).
    apply sentences_of_In in Hin. destruct Hin as [f [_ Hf]].
    eapply remediation_truthy, Hf. }
  destruct ss; cbn [Py.join]; [exact Hs|]. now apply truthy_app_l.
Qed.

Lemma suggestion_none (flags : list Flag) (text : string) :
  renegotiation_suggestion_for_clause flags text = None
  <-> forall f, In f flags -> remediation f = None.
Proof.
  rewrite renegotiation_suggestion_spec.
  destruct flags as [|g flags].
  - split; [intros _ f []|intros _; reflexivity].
  - set (fl := g :: flags).
    assert (Hiff : sentences_of (in_check_order fl) = []
                   <-> forall f, In f fl -> remediation f = None).
    { rewrite sentences_of_nil. split; intros H f Hf; apply H.
      - apply (proj2 (in_check_order_In fl f)), Hf.
      - apply (proj1 (in_check_order_In fl f)), Hf. }
    destruct (sentences_of (in_check_order fl)); [tauto|].
    split; [discriminate|]. intros H. apply Hiff in H. discriminate.
Qed.

Lemma suggestion_some (flags : list Flag) (text s : string) :
  renegotiation_suggestion_for_clause flags text = Some s ->
  s = Py.join " " (sentences_of (in_check_order flags))
  /\ sentences_of (in_check_order flags) <> [].
Proof.
  rewrite renegotiation_suggestion_spec.
  destruct flags as [|g flags]; [discriminate|].
  destruct (sentences_of (in_check_order (g :: flags))); [discriminate|].
  intros H. inversion H. split; [reflexivity|discriminate].
Qed.

(** X7.  [renegotiation_suggestion_for_clause] depends on which flags are
    in the list only, not on their order, their repetition or the text
    argument; it gives nothing exactly when no flag has a remediation
    sentence; and a suggestion is not empty and holds the sentence of every
    flag that has one. *)
Theorem suggestion_depends_on_flag_set :
  (forall a b t1 t2,
     (forall f, In f a <-> In f b) ->
     renegotiation_suggestion_for_clause a t1
     = renegotiation_suggestion_for_clause b t2)
  /\ (forall flags text,
        renegotiation_suggestion_for_clause flags text = None
        <-> forall f, In f flags -> remediation f = None)
  /\ (forall flags text s,
        renegotiation_suggestion_for_clause flags text = Some s ->
        Py.truthy s = true
        /\ forall f r, In f flags -> remediation f = Some r ->
                       Py.isin r s = true).
Proof.
  split; [|split].
  - intros a b t1 t2 H. rewrite !renegotiation_suggestion_spec.
    rewrite (in_check_order_ext a b H).
    destruct a as [|x a], b as [|y b]; try reflexivity.
    destruct (proj2 (H y) (or_introl eq_refl)).
  - apply suggestion_none.
  - intros flags text s H. apply suggestion_some in H. destruct H as [-> Hne].
    split; [now apply join_sentences_truthy|].
    intros f r Hf Hr. apply isin_in_join, sentences_of_In.
    exists f. split; [now apply in_check_order_In|exact Hr].
Qed.

(** *** The suggestions of an analysis *)

Lemma analyze_contract_sections (env : Env) (text : string)
  (language business_role : option string) :
  let r := analyze_contract env text language business_role in
  let cs := clauses_of env text language in
  let rfs := map (fun c => snd (explain_clause c)) cs in
  s2_structured_clause_extraction_json r = cs
  /\ s4_clause_by_clause_explanation_table r
     = map (fun c => fst (explain_clause c)) cs
  /\ clause_risk_table (s5_risk_analysis_and_flags r) = map row_of rfs
  /\ fairness_and_sme_flags (s5_risk_analysis_and_flags r)
     = flat_map fairness_of rfs
  /\ risk_flags_summary (s10_audit_log r) = flat_map fairness_of rfs
  /\ s6_renegotiation_suggestions r = flat_map renegotiation_of rfs.
Proof.
  intros r cs rfs. unfold r, analyze_contract.
  destruct (detect_contract_type _) as [ctype cexpl].
  cbn -[split_into_clauses explain_clause normalize_language].
  unfold rfs, cs, clauses_of. rewrite !map_map. repeat split.
Qed.

Lemma flat_map_as_filter {A B C : Type} (f : A -> list C) (h : A -> B)
  (p : B -> bool) (g : B -> C) (l : list A) :
  (forall a, In a l -> f a = if p (h a) then [g (h a)] else []) ->
  flat_map f l = map g (filter p (map h l)).
Proof.
  induction l as [|a l IH]; intros H; [reflexivity|].
  cbn [flat_map map filter]. rewrite (H a (or_introl eq_refl)).
  rewrite IH by (intros b Hb; apply H; now right).
  destruct (p (h a)); reflexivity.
Qed.

Lemma renegotiation_of_classified (rf : RiskFlags) :
  in_check_order (rf_flags rf) = rf_flags rf ->
  renegotiation_of rf
  = if suggestible (row_of rf) then [renegotiation_for_row (row_of rf)]
    else [].
Proof.
  intros Horder. unfold renegotiation_of, suggestible, renegotiation_for_row.
  cbn [row_of rr_risk_level rr_flags rr_clause_number rr_heading].
  rewrite renegotiation_suggestion_spec, Horder.
  destruct (rf_flags rf) as [|f fl] eqn:Hfl.
  { destruct (rf_risk_level rf); reflexivity. }
  pose proof (join_sentences_truthy (f :: fl)) as Ht.
  destruct (sentences_of (f :: fl)) as [|s ss] eqn:Hss.
  { destruct (rf_risk_level rf); reflexivity. }
  rewrite Ht by discriminate.
  destruct (rf_risk_level rf); reflexivity.
Qed.

Lemma explained_flags_in_order (c : Clause) :
  in_check_order (rf_flags (snd (explain_clause c)))
  = rf_flags (snd (explain_clause c)).
Proof.
  destruct (explain_clause_risk c) as [_ [_ [_ ->]]].
  apply classifier_flags_in_check_order.
Qed.

Lemma explained_intent (c : Clause) :
  ce_intent (fst (explain_clause c))
  = classify_clause_intent (full_text_of c)
  /\ ce_clause_number (fst (explain_clause c)) = clause_number c
  /\ ce_heading (fst (explain_clause c)) = c_heading c
  /\ ce_text_preview (fst (explain_clause c)) = Py.take 500 (full_text_of c).
Proof.
  unfold explain_clause.
  destruct (clause_risk_level _ _) as [risk flags]. repeat split.
Qed.

Lemma high_is_suggestible (text : string) (intent : Intent) :
  level_of text intent = HIGH -> sentences_of (flags_of text intent) <> [].
Proof.
  intros H. apply (proj1 (level_high_iff text intent)) in H.
  intros Hnil. rewrite sentences_of_nil in Hnil.
  destruct H as [H|[H|[H _]]]; apply Hnil in H; discriminate.
Qed.

Lemma medium_without_remedy (text : string) (intent : Intent) :
  level_of text intent = MEDIUM -> sentences_of (flags_of text intent) = [] ->
  intent = PROHIBITION.
Proof.
  intros Hm Hnil. rewrite sentences_of_nil in Hnil.
  pose proof (level_low_iff text intent) as Hlow.
  destruct intent; try reflexivity;
    (assert (Hl : level_of text _ = LOW)
       by (apply Hlow; split; [exact Hnil|discriminate]);
     rewrite Hl in Hm; discriminate).
Qed.

(** X8.  The renegotiation list of an analysis is, row by row and in
    the order of the risk table, the suggestion of each row that is not LOW
    and has a flag with a remediation sentence.  Every HIGH row has its
    suggestion; a MEDIUM row without one belongs to a clause whose intent
    is PROHIBITION; and the executive summary lists the first ten
    suggested changes. *)
Theorem suggestions_cover_risky_clauses (env : Env) (text : string)
  (language business_role : option string) :
  let r := analyze_contract env text language business_role in
  let table := clause_risk_table (s5_risk_analysis_and_flags r) in
  s6_renegotiation_suggestions r
  = map renegotiation_for_row (filter suggestible table)
  /\ (forall row, In row table -> rr_risk_level row = HIGH ->
        In (renegotiation_for_row row) (s6_renegotiation_suggestions r))
  /\ (forall i row e,
        nth_error table i = Some row ->
        nth_error (s4_clause_by_clause_explanation_table r) i = Some e ->
        rr_risk_level row = MEDIUM -> suggestible row = false ->
        ce_intent e = PROHIBITION)
  /\ what_to_negotiate_before_signing (s8_executive_business_summary r)
     = firstn 10 (map suggested_change (s6_renegotiation_suggestions r)).
Proof.
  intros r table.
  destruct (analyze_contract_sections env text language business_role)
    as [_ [Hs4 [Hs5 [_ [_ Hs6]]]]].
  fold r in Hs4, Hs5, Hs6. fold table in Hs5.
  set (cs := clauses_of env text language) in *.
  assert (Heq : s6_renegotiation_suggestions r
                = map renegotiation_for_row (filter suggestible table)).
  { rewrite Hs6, Hs5. apply flat_map_as_filter.
    intros rf Hrf. apply renegotiation_of_classified.
    apply in_map_iff in Hrf. destruct Hrf as [c [<- _]].
    apply explained_flags_in_order. }
  split; [exact Heq|]. split; [|split].
  - intros row Hrow Hhigh. rewrite Heq. apply in_map, filter_In.
    split; [exact Hrow|].
    rewrite Hs5 in Hrow. apply in_map_iff in Hrow.
    destruct Hrow as [rf [<- Hrf]].
    apply in_map_iff in Hrf. destruct Hrf as [c [<- _]].
    destruct (explain_clause_risk c) as [_ [_ [Hl Hf]]].
    unfold suggestible in *. cbn [row_of rr_risk_level rr_flags] in *.
    rewrite Hhigh. rewrite Hl in Hhigh. rewrite Hf.
    pose proof (high_is_suggestible _ _ Hhigh) as Hne.
    unfold flags_of in Hne. destruct (sentences_of _); congruence.
  - intros i row e Hrow He Hmed Hno.
    rewrite Hs5, map_map in Hrow. rewrite Hs4 in He.
    rewrite nth_error_map in Hrow, He.
    destruct (nth_error cs i) as [c|]; [|discriminate].
    cbn in Hrow, He. inversion Hrow; subst row. inversion He; subst e.
    destruct (explain_clause_risk c) as [_ [_ [Hl Hf]]].
    destruct (explained_intent c) as [-> _].
    unfold suggestible in Hno. cbn [row_of rr_risk_level rr_flags] in *.
    rewrite Hmed in Hno. rewrite Hl in Hmed. rewrite Hf in Hno.
    apply (medium_without_remedy _ _ Hmed).
    unfold flags_of. destruct (sentences_of _); [reflexivity|discriminate].
  - unfold r, analyze_contract.
    destruct (detect_contract_type _) as [ctype cexpl]. reflexivity.
Qed.

(* ================================================================== *)
(** ** The composite score by clause levels *)
(* ================================================================== *)

Lemma total_weight_cons (r : RiskLevel) (rs : list RiskLevel) :
  total_weight (r :: rs) = (weights r + total_weight rs)%Z.
Proof. unfold total_weight. cbn [fold_left]. now rewrite total_weight_from. Qed.

Lemma total_weight_permutation (rs rs' : list RiskLevel) :
  Permutation rs rs' -> total_weight rs = total_weight rs'.
Proof.
  induction 1 as [|r rs rs' _ IH|a b rs|rs1 rs2 rs3 _ IH1 _ IH2].
  - reflexivity.
  - rewrite !total_weight_cons, IH. reflexivity.
  - rewrite !total_weight_cons. lia.
  - congruence.
Qed.

Lemma score_permutation (rs rs' : list RiskLevel) :
  Permutation rs rs' ->
  contract_level_risk_score rs = contract_level_risk_score rs'.
Proof.
  intros H.
  destruct rs as [|r rs].
  { apply Permutation_nil in H. now subst. }
  destruct rs' as [|r' rs'].
  { apply Permutation_sym, Permutation_nil in H. discriminate. }
  rewrite !score_nonempty.
  now rewrite (total_weight_permutation _ _ H), (Permutation_length H).
Qed.

(** The score of a total [t] over [n] clauses lies in the integers whose
    half-open unit interval the exact value [100 t / (6 n)] is well
    inside. *)
Lemma score_of_total_band (t n lo hi : Z) :
  (0 < n)%Z -> (n <= t <= 6 * n)%Z ->
  (inject_Z lo + (1 # 2) <= Qmake t (Z.to_pos n) * (100 # 6))%Q ->
  (Qmake t (Z.to_pos n) * (100 # 6) <= inject_Z hi + (1 # 2))%Q ->
  (lo <= score_of_total t n <= hi)%Z.
Proof.
  intros Hn Ht Hlo Hhi.
  assert (Hv0 : (0 < Qmake t (Z.to_pos n))%Q).
  { unfold Qlt. cbn. lia. }
  destruct (float_product_bounds _ Hv0) as [Hc1 Hc2].
  assert (HV100 : (Qmake t (Z.to_pos n) * (100 # 6) <= 100)%Q).
  { unfold Qle, Qmult. cbn [Qnum Qden].
    rewrite !Pos2Z.inj_mul, !Z2Pos.id by lia. lia. }
  assert (HVpos : (0 < Qmake t (Z.to_pos n) * (100 # 6))%Q) by lra.
  unfold score_of_total, score_of_mean, B64.int_truediv.
  set (c := B64.fmul _ _) in *.
  set (V := (Qmake t (Z.to_pos n) * (100 # 6))%Q) in *.
  clearbody c V.
  unfold below, above in Hc1, Hc2.
  assert (Hl : (inject_Z lo < c)%Q) by lra.
  assert (Hh : (c < inject_Z hi + 1)%Q) by lra.
  assert (Hpos : (0 < c)%Q) by lra.
  unfold max_0, min_100, B64.ltb, B64.to_int.
  assert (E0 : Qle_bool c 0 = false).
  { destruct (Qle_bool c 0) eqn:H; [|reflexivity].
    apply Qle_bool_iff in H. lra. }
  rewrite E0. cbn [negb].
  destruct (Qle_bool 100 c) eqn:E100; cbn [negb].
  - apply Qle_bool_iff in E100.
    change (if Qle_bool 0 100 then Qfloor 100 else Qceiling 100) with 100%Z.
    assert (H1 : (inject_Z lo < inject_Z 100)%Q)
      by (change (inject_Z 100) with 100%Q; lra).
    assert (H2 : (inject_Z 99 < inject_Z hi)%Q)
      by (change (inject_Z 99) with 99%Q; lra).
    rewrite <- Zlt_Qlt in H1, H2. lia.
  - assert (Hc0 : Qle_bool 0 c = true) by (apply Qle_bool_iff; lra).
    rewrite Hc0. split.
    + assert (H : (inject_Z lo < inject_Z (Qfloor c + 1))%Q).
      { pose proof (Qlt_floor c) as Hf. lra. }
      rewrite <- Zlt_Qlt in H. lia.
    + assert (H : (inject_Z (Qfloor c) < inject_Z (hi + 1))%Q).
      { rewrite inject_Z_plus. change (inject_Z 1) with 1%Q.
        pose proof (Qfloor_le c). lra. }
      rewrite <- Zlt_Qlt in H. lia.
Qed.

Lemma total_weight_no_high (rs : list RiskLevel) :
  Forall (fun r => r <> HIGH) rs ->
  (total_weight rs <= 3 * Z.of_nat (List.length rs))%Z.
Proof.
  induction 1 as [|r rs Hr _ IH].
  - unfold total_weight. cbn. lia.
  - rewrite total_weight_cons. cbn [List.length].
    destruct r; cbn [weights]; try congruence; lia.
Qed.

Lemma total_weight_no_low (rs : list RiskLevel) :
  Forall (fun r => r <> LOW) rs ->
  (3 * Z.of_nat (List.length rs) <= total_weight rs)%Z.
Proof.
  induction 1 as [|r rs Hr _ IH].
  - unfold total_weight. cbn. lia.
  - rewrite total_weight_cons. cbn [List.length].
    destruct r; cbn [weights]; try congruence; lia.
Qed.

Lemma mean_bounds (t n lo hi : Z) :
  (0 < n)%Z -> (lo * n <= t <= hi * n)%Z ->
  (inject_Z lo * (100 # 6) <= Qmake t (Z.to_pos n) * (100 # 6))%Q
  /\ (Qmake t (Z.to_pos n) * (100 # 6) <= inject_Z hi * (100 # 6))%Q.
Proof.
  intros Hn Ht.
  assert (H1 : (inject_Z lo <= Qmake t (Z.to_pos n))%Q).
  { unfold Qle, inject_Z. cbn [Qnum Qden]. rewrite Z2Pos.id by lia. lia. }
  assert (H2 : (Qmake t (Z.to_pos n) <= inject_Z hi)%Q).
  { unfold Qle, inject_Z. cbn [Qnum Qden]. rewrite Z2Pos.id by lia. lia. }
  split; lra.
Qed.

Lemma score_bands (rs : list RiskLevel) (lo hi slo shi : Z) :
  rs <> [] ->
  (1 <= lo)%Z -> (hi <= 6)%Z ->
  (lo * Z.of_nat (List.length rs) <= total_weight rs
   <= hi * Z.of_nat (List.length rs))%Z ->
  (inject_Z slo + (1 # 2) <= inject_Z lo * (100 # 6))%Q ->
  (inject_Z hi * (100 # 6) <= inject_Z shi + (1 # 2))%Q ->
  (slo <= contract_level_risk_score rs <= shi)%Z.
Proof.
  intros Hne Hlo Hhi Ht Hs1 Hs2.
  destruct rs as [|r rs]; [congruence|]. rewrite score_nonempty.
  pose proof (total_weight_bounds (r :: rs)) as Hb.
  set (n := Z.of_nat (List.length (r :: rs))) in *.
  set (t := total_weight (r :: rs)) in *.
  assert (Hn : (0 < n)%Z) by (unfold n; cbn [List.length]; lia).
  clearbody n t.
  destruct (mean_bounds t n lo hi Hn Ht) as [H1 H2].
  change (slo <= score_of_total t n <= shi)%Z.
  apply (score_of_total_band t n slo shi Hn Hb).
  - set (V := (Qmake t (Z.to_pos n) * (100 # 6))%Q) in *. clearbody V. lra.
  - set (V := (Qmake t (Z.to_pos n) * (100 # 6))%Q) in *. clearbody V. lra.
Qed.

Lemma score_facts :
  (forall rs, rs <> [] -> (16 <= contract_level_risk_score rs)%Z)
  /\ (forall rs, contract_level_risk_score rs = 0%Z <-> rs = [])
  /\ (forall rs, (contract_level_risk_score rs <= 100)%Z).
Proof.
  assert (H16 : forall rs, rs <> [] -> (16 <= contract_level_risk_score rs)%Z).
  { intros rs Hne. pose proof (total_weight_bounds rs) as Hb.
    apply (score_bands rs 1 6 16 100 Hne);
      [lia|lia|lia|vm_compute; discriminate|vm_compute; discriminate]. }
  split; [exact H16|]. split.
  - intros rs. split.
    + intros H0. destruct rs as [|r rs]; [reflexivity|].
      specialize (H16 (r :: rs) ltac:(discriminate)). lia.
    + intros ->. reflexivity.
  - intros [|r rs]; [cbn; lia|]. rewrite score_nonempty. unfold score_of_mean.
    apply to_int_clamp_range.
Qed.

(** X10.  The composite score depends on how many clauses have each
    level, not on their order.  With one clause or more it is 16 at least,
    so it is 0 for no clause only.  With no HIGH clause it is 50 at most and
    the contract is not rated High risk; with clauses and none of them LOW
    it is 49 at least and the contract is not rated Safe. *)
Theorem score_by_clause_levels :
  (forall rs rs', Permutation rs rs' ->
     contract_level_risk_score rs = contract_level_risk_score rs')
  /\ (forall rs, rs <> [] -> (16 <= contract_level_risk_score rs)%Z)
  /\ (forall rs, contract_level_risk_score rs = 0%Z <-> rs = [])
  /\ (forall rs, Forall (fun r => r <> HIGH) rs ->
        (contract_level_risk_score rs <= 50)%Z
        /\ risk_interpretation (contract_level_risk_score rs) <> "High risk")
  /\ (forall rs, rs <> [] -> Forall (fun r => r <> LOW) rs ->
        (49 <= contract_level_risk_score rs)%Z
        /\ risk_interpretation (contract_level_risk_score rs) <> "Safe").
Proof.
  destruct score_facts as [H16 [H0 _]].
  split; [exact score_permutation|]. split; [exact H16|].
  split; [exact H0|split].
  - intros rs Hall.
    assert (Hle : (contract_level_risk_score rs <= 50)%Z).
    { destruct rs as [|r rs]; [cbn [contract_level_risk_score]; lia|].
      pose proof (total_weight_bounds (r :: rs)) as Hb.
      pose proof (total_weight_no_high _ Hall) as Hh.
      apply (score_bands (r :: rs) 1 3 16 50);
        [discriminate|lia|lia|lia|vm_compute; discriminate
        |vm_compute; discriminate]. }
    split; [exact Hle|]. unfold risk_interpretation.
    destruct (contract_level_risk_score rs <=? 30)%Z; [discriminate|].
    destruct (contract_level_risk_score rs <=? 60)%Z eqn:E; [discriminate|].
    apply Z.leb_gt in E. lia.
  - intros rs Hne Hall.
    assert (Hge : (49 <= contract_level_risk_score rs)%Z).
    { pose proof (total_weight_bounds rs) as Hb.
      pose proof (total_weight_no_low _ Hall) as Hl.
      apply (score_bands rs 3 6 49 100 Hne);
        [lia|lia|lia|vm_compute; discriminate|vm_compute; discriminate]. }
    split; [exact Hge|]. unfold risk_interpretation.
    destruct (contract_level_risk_score rs <=? 30)%Z eqn:E; [|
      destruct (contract_level_risk_score rs <=? 60)%Z; discriminate].
    apply Z.leb_le in E. lia.
Qed.

(** *** One HIGH clause among LOW ones *)

Lemma total_weight_one_high (n : nat) :
  total_weight (HIGH :: repeat LOW n) = (6 + Z.of_nat n)%Z.
Proof. rewrite total_weight_cons, total_weight_repeat. cbn [weights]. lia. Qed.

(** X25.  A clause rated HIGH can hide in a contract rated Safe: a
    contract of one HIGH clause and six or more LOW ones, in any order,
    scores between 16 and 30. *)
Theorem one_high_clause_can_be_safe (rs : list RiskLevel) (n : nat) :
  Permutation rs (HIGH :: repeat LOW n) -> 6 <= n ->
  (16 <= contract_level_risk_score rs <= 30)%Z
  /\ risk_interpretation (contract_level_risk_score rs) = "Safe".
Proof.
  intros Hp Hn. rewrite (score_permutation _ _ Hp), score_nonempty.
  rewrite total_weight_one_high. cbn [List.length]. rewrite repeat_length.
  assert (Hband : (16 <= score_of_total (6 + Z.of_nat n) (Z.of_nat (S n))
                   <= 30)%Z).
  { apply score_of_total_band; try lia.
    - unfold Qle, Qmult, Qplus, inject_Z. cbn [Qnum Qden].
      rewrite !Pos2Z.inj_mul, !Z2Pos.id by lia. lia.
    - unfold Qle, Qmult, Qplus, inject_Z. cbn [Qnum Qden].
      rewrite !Pos2Z.inj_mul, !Z2Pos.id by lia. lia. }
  fold (score_of_total (6 + Z.of_nat n) (Z.of_nat (S n))).
  split; [exact Hband|]. unfold risk_interpretation.
  destruct (_ <=? 30)%Z eqn:E; [reflexivity|]. apply Z.leb_gt in E. lia.
Qed.

Lemma one_high_clause_can_be_safe_witness :
  Permutation ([LOW; LOW; LOW; HIGH; LOW; LOW; LOW]) (HIGH :: repeat LOW 6)
  /\ risk_interpretation
       (contract_level_risk_score [LOW; LOW; LOW; HIGH; LOW; LOW; LOW])
     = "Safe".
Proof.
  assert (Hp : Permutation ([LOW; LOW; LOW; HIGH; LOW; LOW; LOW])
                           (HIGH :: repeat LOW 6)).
  { cbn [repeat]. symmetry.
    apply (Permutation_middle [LOW; LOW; LOW] [LOW; LOW; LOW] HIGH). }
  split; [exact Hp|].
  apply (one_high_clause_can_be_safe _ 6 Hp). lia.
Defined.

(* ================================================================== *)
(** ** The structural parser: the text it keeps and the shape of its result *)
(* ================================================================== *)

(** *** Stripping *)

Lemma lstrip_empty (s : string) :
  Py.lstrip s = EmptyString <-> all_space s = true.
Proof.
  induction s as [|c s IH]; cbn [Py.lstrip all_space]; [tauto|].
  destruct (Py.isspace c); cbn [andb]; [exact IH|].
  split; discriminate.
Qed.

Lemma rstrip_empty (s : string) :
  Py.rstrip s = EmptyString <-> all_space s = true.
Proof.
  induction s as [|c s IH]; cbn [Py.rstrip all_space]; [tauto|].
  destruct (Py.rstrip s) eqn:E.
  - destruct (Py.isspace c); cbn [andb].
    + tauto.
    + split; discriminate.
  - split; [discriminate|]. intros H. apply andb_true_iff in H.
    destruct H as [_ H]. apply IH in H. discriminate.
Qed.

Lemma rstrip_idempotent (s : string) : Py.rstrip (Py.rstrip s) = Py.rstrip s.
Proof.
  induction s as [|c s IH]; [reflexivity|]. cbn [Py.rstrip].
  destruct (Py.rstrip s) as [|d r] eqn:E.
  - destruct (Py.isspace c) eqn:Ec; [reflexivity|].
    cbn [Py.rstrip]. now rewrite Ec.
  - cbn [Py.rstrip] in *. change (Py.rstrip (String c (String d r)))
      with (match Py.rstrip (String d r) with
            | EmptyString =>
                if Py.isspace c then EmptyString else String c EmptyString
            | r' => String c r'
            end).
    rewrite IH. reflexivity.
Qed.

Lemma lstrip_rstrip (s : string) :
  Py.lstrip (Py.rstrip s) = Py.rstrip (Py.lstrip s).
Proof.
  induction s as [|c s IH]; [reflexivity|].
  cbn [Py.lstrip Py.rstrip].
  destruct (Py.isspace c) eqn:Ec.
  - destruct (Py.rstrip s) as [|d r] eqn:E.
    + rewrite <- IH. reflexivity.
    + rewrite <- IH. cbn [Py.lstrip]. now rewrite Ec.
  - cbn [Py.rstrip].
    destruct (Py.rstrip s) as [|d r] eqn:E; cbn [Py.lstrip]; now rewrite Ec.
Qed.

Lemma strip_rstrip (s : string) : Py.strip (Py.rstrip s) = Py.strip s.
Proof.
  unfold Py.strip. now rewrite lstrip_rstrip, rstrip_idempotent.
Qed.

Lemma lstrip_all_space (s : string) :
  all_space (Py.lstrip s) = all_space s.
Proof.
  induction s as [|c s IH]; [reflexivity|]. cbn [Py.lstrip all_space].
  destruct (Py.isspace c) eqn:Ec; cbn [andb all_space]; [exact IH|].
  now rewrite Ec.
Qed.

Lemma strip_empty (s : string) :
  Py.strip s = EmptyString <-> all_space s = true.
Proof.
  unfold Py.strip. now rewrite rstrip_empty, lstrip_all_space.
Qed.

Lemma blank_all_space (s : string) : blank s = all_space s.
Proof.
  unfold blank. apply eq_true_iff_eq. rewrite <- strip_empty.
  destruct (Py.strip s); cbn; split; congruence.
Qed.

Lemma lstrip_idempotent (s : string) : Py.lstrip (Py.lstrip s) = Py.lstrip s.
Proof.
  induction s as [|c s IH]; [reflexivity|]. cbn [Py.lstrip].
  destruct (Py.isspace c) eqn:Ec; [exact IH|].
  cbn [Py.lstrip]. now rewrite Ec.
Qed.

Lemma strip_idempotent (s : string) : Py.strip (Py.strip s) = Py.strip s.
Proof.
  unfold Py.strip.
  now rewrite lstrip_rstrip, lstrip_idempotent, rstrip_idempotent.
Qed.

Lemma string_app_assoc (a b c : string) :
  ((a ++ b) ++ c = a ++ (b ++ c))%string.
Proof. induction a as [|x a IH]; cbn; [reflexivity|now rewrite IH]. Qed.

Lemma truthy_app_r (a b : string) :
  Py.truthy b = true -> Py.truthy (a ++ b) = true.
Proof. destruct a; [trivial|reflexivity]. Qed.

Lemma join_cons (sep x : string) (l : list string) :
  l <> [] -> Py.join sep (x :: l) = (x ++ sep ++ Py.join sep l)%string.
Proof. destruct l; [congruence|reflexivity]. Qed.

Lemma join_truthy (sep : string) (l : list string) :
  l <> [] -> Forall (fun x => Py.truthy x = true) l ->
  Py.truthy (Py.join sep l) = true.
Proof.
  intros Hne Hall. destruct l as [|x l]; [congruence|].
  inversion Hall as [|? ? Hx _]; subst.
  destruct l; cbn [Py.join]; [exact Hx|].
  destruct x; [discriminate|reflexivity].
Qed.

Lemma join_snoc (l : list string) (s : string) :
  Forall (fun x => Py.truthy x = true) l ->
  Py.join Py.nl (l ++ [s]) = append_line (Py.join Py.nl l) s.
Proof.
  induction 1 as [|x l Hx Hall IH]; [reflexivity|].
  cbn [app]. rewrite join_cons by (destruct l; discriminate).
  rewrite IH. unfold append_line.
  destruct l as [|y l].
  - cbn [Py.join Py.truthy]. rewrite Hx. reflexivity.
  - rewrite (join_truthy Py.nl (y :: l)) by (try discriminate; exact Hall).
    rewrite (join_cons Py.nl x (y :: l)) by discriminate.
    rewrite (truthy_app_l x) by exact Hx.
    now rewrite !string_app_assoc.
Qed.

Lemma join_grow (X : list string) (b s : string) :
  Py.join Py.nl (X ++ [(b ++ Py.nl ++ s)%string])
  = (Py.join Py.nl (X ++ [b]) ++ Py.nl ++ s)%string.
Proof.
  induction X as [|x X IH]; cbn [app].
  - reflexivity.
  - rewrite !join_cons by (destruct X; discriminate).
    rewrite IH. now rewrite !string_app_assoc.
Qed.

Lemma extends_join (l l' : list string) (s : string) :
  extends l l' s -> Py.truthy s = true ->
  Forall (fun x => Py.truthy x = true) l ->
  Py.join Py.nl l' = append_line (Py.join Py.nl l) s
  /\ Forall (fun x => Py.truthy x = true) l'.
Proof.
  intros [->|[X [b [Hb [-> ->]]]]] Hs Hall.
  - split; [now apply join_snoc|].
    apply Forall_app. split; [exact Hall|now constructor].
  - split.
    + rewrite join_grow. unfold append_line.
      rewrite join_truthy; [reflexivity|destruct X; discriminate|exact Hall].
    + apply Forall_app in Hall. destruct Hall as [HX _].
      apply Forall_app. split; [exact HX|]. constructor; [|constructor].
      apply truthy_app_l, Hb.
Qed.

(** *** One line at a time *)

Lemma render_flush (st : ParseState) :
  flat_map entry_text (clauses (flush_current st)) = render st.
Proof.
  unfold flush_current, render.
  destruct (current st) as [c|]; cbn [clauses].
  - rewrite flat_map_app. cbn [flat_map]. now rewrite app_nil_r.
  - now rewrite app_nil_r.
Qed.

Lemma append_to_last_cons (x : Section) (l : list Section) (s : string) :
  l <> [] -> append_to_last (x :: l) s = x :: append_to_last l s.
Proof. destruct l; [congruence|reflexivity]. Qed.

Lemma append_to_last_snoc (init : list Section) (last : Section)
  (s : string) :
  append_to_last (init ++ [last]) s
  = init ++ [mkSection (heading last) (append_line (body last) s)].
Proof.
  induction init as [|x init IH]; [reflexivity|].
  cbn [app]. rewrite append_to_last_cons by (destruct init; discriminate).
  now rewrite IH.
Qed.

Lemma append_line_empty (s : string) : append_line EmptyString s = s.
Proof. reflexivity. Qed.

Lemma append_line_truthy (b s : string) :
  Py.truthy b = true -> append_line b s = (b ++ Py.nl ++ s)%string.
Proof. unfold append_line. now intros ->. Qed.

Lemma truthy_empty (b : string) : Py.truthy b = false -> b = EmptyString.
Proof. destruct b; [reflexivity|discriminate]. Qed.

Lemma extends_prefix (X l l' : list string) (s : string) :
  extends l l' s -> extends (X ++ l) (X ++ l') s.
Proof.
  intros [->|[Y [b [Hb [-> ->]]]]].
  - left. now rewrite app_assoc.
  - right. exists (X ++ Y), b. now rewrite !app_assoc.
Qed.

Lemma section_text_extends (sec : Section) (s : string) :
  Py.truthy s = true ->
  extends (section_text sec)
          (section_text (mkSection (heading sec) (append_line (body sec) s)))
          s.
Proof.
  intros Hs. unfold section_text. cbn [heading body].
  destruct (Py.truthy (body sec)) eqn:Hb.
  - rewrite (append_line_truthy _ _ Hb).
    rewrite (truthy_app_l _ _ Hb).
    right. exists [heading sec], (body sec). repeat split. exact Hb.
  - rewrite (truthy_empty _ Hb), append_line_empty, Hs. now left.
Qed.

Lemma top_heading_not_preamble (s : string) :
  Re.found (Re.pmatch top_level s) = true -> String.eqb s "Preamble" = false.
Proof.
  intros H. destruct (String.eqb s "Preamble") eqn:E; [|reflexivity].
  apply String.eqb_eq in E. subst s.
  pose proof preamble_is_no_heading as Hp. unfold is_top_heading in Hp.
  congruence.
Qed.

Lemma exists_last_section (x : Section) (xs : list Section) :
  exists init last, x :: xs = init ++ [last].
Proof.
  destruct (exists_last (l := x :: xs) ltac:(discriminate))
    as [init [last E]].
  now exists init, last.
Qed.

(** One line of the contract adds its stripped text to what the parser
    holds. *)
Lemma parse_line_render (st : ParseState) (line : string) :
  Py.truthy (Py.strip line) = true ->
  extends (render st) (render (parse_line st line)) (Py.strip line).
Proof.
  intros Hs. unfold parse_line. rewrite Hs. cbn [negb].
  set (s := Py.strip line) in *.
  destruct (Re.found (Re.pmatch sub_level s) && is_some (current st)) eqn:Hsub.
  - apply andb_true_iff in Hsub. destruct Hsub as [_ Hcur].
    destruct (current st) as [c|] eqn:Ec; [|discriminate].
    left. unfold render. cbn [clauses current current_subs]. rewrite Ec.
    unfold entry_text. cbn [fst snd].
    rewrite flat_map_app. cbn [flat_map section_text heading body Py.truthy].
    now rewrite <- !app_assoc.
  - destruct (Re.found (Re.pmatch top_level s)) eqn:Htop.
    + left. unfold render at 1. cbn [clauses current current_subs].
      rewrite render_flush. unfold entry_text.
      cbn [fst snd heading body Py.truthy flat_map].
      now rewrite (top_heading_not_preamble s Htop).
    + destruct (current st) as [c|] eqn:Ec.
      * destruct (current_subs st) as [|x xs] eqn:Esubs.
        -- unfold render. cbn [clauses current current_subs]. rewrite Ec, Esubs.
           apply extends_prefix. unfold entry_text.
           cbn [fst snd heading body flat_map]. rewrite !app_nil_r.
           apply extends_prefix.
           destruct (Py.truthy (body c)) eqn:Hb.
           ++ rewrite (append_line_truthy _ _ Hb), (truthy_app_l _ _ Hb).
              right. exists [], (body c). repeat split. exact Hb.
           ++ rewrite (truthy_empty _ Hb), append_line_empty, Hs. now left.
        -- destruct (exists_last_section x xs) as [init [last E]].
           unfold render. cbn [clauses current current_subs].
           rewrite Ec, Esubs, E, append_to_last_snoc.
           apply extends_prefix. unfold entry_text. cbn [fst snd].
           apply extends_prefix. apply extends_prefix.
           rewrite !flat_map_app. apply extends_prefix.
           cbn [flat_map]. rewrite !app_nil_r.
           now apply section_text_extends.
      * left. unfold render. cbn [clauses current current_subs]. rewrite Ec.
        unfold entry_text. cbn [fst snd heading body flat_map String.eqb].
        change (String.eqb "Preamble" "Preamble") with true. cbv iota.
        rewrite Hs. cbn [app]. now rewrite app_nil_r.
Qed.

Lemma parse_line_blank (st : ParseState) (line : string) :
  Py.truthy (Py.strip line) = false -> parse_line st line = st.
Proof. intros H. unfold parse_line. now rewrite H. Qed.

Lemma fold_append_line (lines : list string) (acc : list string) :
  Forall (fun x => Py.truthy x = true) acc ->
  Forall (fun x => Py.truthy x = true) lines ->
  fold_left append_line lines (Py.join Py.nl acc)
  = Py.join Py.nl (acc ++ lines).
Proof.
  intros Hacc Hl. revert acc Hacc.
  induction Hl as [|x lines Hx _ IH]; intros acc Hacc; cbn [fold_left].
  - now rewrite app_nil_r.
  - rewrite <- (join_snoc acc x Hacc).
    rewrite IH by (apply Forall_app; split; [exact Hacc|now constructor]).
    now rewrite <- app_assoc.
Qed.

Lemma fold_parse_render (lines : list string) (st : ParseState) :
  Forall (fun x => Py.truthy x = true) (render st) ->
  Py.join Py.nl (render (fold_left parse_line lines st))
  = fold_left append_line (filter Py.truthy (map Py.strip lines))
              (Py.join Py.nl (render st))
  /\ Forall (fun x => Py.truthy x = true)
            (render (fold_left parse_line lines st)).
Proof.
  revert st. induction lines as [|l lines IH]; intros st Hall.
  - split; [reflexivity|exact Hall].
  - cbn [fold_left map filter].
    destruct (Py.truthy (Py.strip l)) eqn:Hs.
    + destruct (extends_join _ _ _ (parse_line_render st l Hs) Hs Hall)
        as [Hj Hall'].
      cbn [fold_left]. rewrite <- Hj. now apply IH.
    + rewrite (parse_line_blank st l Hs). now apply IH.
Qed.

Lemma clause_text_numbered (l : list (Section * list Section)) (i : nat) :
  flat_map clause_text (map number_clause (Py.enumerate i l))
  = flat_map entry_text l.
Proof.
  revert i. induction l as [|[c subs] l IH]; intros i; [reflexivity|].
  cbn [Py.enumerate map flat_map]. rewrite IH. reflexivity.
Qed.

Lemma map_strip_rstrip (lines : list string) :
  map Py.strip (map Py.rstrip lines) = map Py.strip lines.
Proof.
  rewrite map_map. apply map_ext. intros l. apply strip_rstrip.
Qed.

Lemma content_lines_truthy (text : string) :
  Forall (fun x => Py.truthy x = true) (content_lines text).
Proof.
  unfold content_lines. apply Forall_forall. intros x Hx.
  apply filter_In in Hx. tauto.
Qed.

(** X11.  [split_into_clauses] loses no text and adds none, the
    synthesized heading apart: the headings (the heading Preamble left
    out), the bodies and the sub-clauses of the clauses, in order and joined
    by newlines, are the stripped non-blank lines of the text joined by
    newlines; and none of these pieces is empty. *)
Theorem split_into_clauses_keeps_the_text (text : string) :
  Py.join Py.nl (flat_map clause_text (split_into_clauses text))
  = Py.join Py.nl (content_lines text)
  /\ Forall (fun piece => Py.truthy piece = true)
            (flat_map clause_text (split_into_clauses text)).
Proof.
  unfold split_into_clauses. rewrite clause_text_numbered, render_flush.
  destruct (fold_parse_render (map Py.rstrip (Py.splitlines text)) initial
              (Forall_nil _)) as [Hj Hall].
  split; [|exact Hall].
  rewrite Hj, map_strip_rstrip. fold (content_lines text).
  change (Py.join Py.nl (render initial)) with (Py.join Py.nl []).
  rewrite fold_append_line; [reflexivity|constructor|].
  apply content_lines_truthy.
Qed.

(** *** Blank texts and the entries of the parser *)

Lemma linebreak_is_space (c : ascii) :
  Py.is_linebreak c = true -> Py.isspace c = true.
Proof.
  unfold Py.is_linebreak, Py.isspace, Py.in_range.
  rewrite !orb_true_iff, !andb_true_iff, !N.leb_le, !N.eqb_eq. lia.
Qed.

Lemma cr_is_space (c : ascii) : (Py.ord c =? 13)%N = true -> Py.isspace c = true.
Proof.
  intros H. apply N.eqb_eq in H. unfold Py.isspace, Py.in_range.
  rewrite H. reflexivity.
Qed.

Lemma lf_is_space (c : ascii) : (Py.ord c =? 10)%N = true -> Py.isspace c = true.
Proof.
  intros H. apply N.eqb_eq in H. unfold Py.isspace, Py.in_range.
  rewrite H. reflexivity.
Qed.

Lemma cons_char_all_space (c : ascii) (ls : list string) :
  Forall (fun l => all_space l = true) (Py.cons_char c ls)
  <-> Py.isspace c = true /\ Forall (fun l => all_space l = true) ls.
Proof.
  destruct ls as [|l ls]; cbn [Py.cons_char].
  - split.
    + intros H. inversion H as [|? ? Hc _]; subst. cbn in Hc.
      rewrite andb_true_r in Hc. split; [exact Hc|constructor].
    + intros [Hc _]. constructor; [|constructor]. cbn. now rewrite Hc.
  - split.
    + intros H. inversion H as [|? ? Hc Hls]; subst. cbn in Hc.
      apply andb_true_iff in Hc. destruct Hc as [Hc Hl].
      split; [exact Hc|]. now constructor.
    + intros [Hc H]. inversion H as [|? ? Hl Hls]; subst.
      constructor; [|exact Hls]. cbn. now rewrite Hc, Hl.
Qed.

Lemma splitlines_all_space_upto (n : nat) (s : string) :
  String.length s <= n ->
  (Forall (fun l => all_space l = true) (Py.splitlines s)
   <-> all_space s = true).
Proof.
  revert s. induction n as [|n IH]; intros s Hn.
  - destruct s; [|cbn in Hn; lia]. cbn. split; [reflexivity|constructor].
  - destruct s as [|c s]; [cbn; split; [reflexivity|constructor]|].
    cbn [String.length] in Hn. cbn [Py.splitlines all_space].
    destruct (Py.ord c =? 13)%N eqn:Ecr.
    + rewrite (cr_is_space c Ecr). cbn [andb].
      destruct s as [|d s].
      * cbn. split; [reflexivity|]. intros _. constructor; [reflexivity|constructor].
      * destruct (Py.ord d =? 10)%N eqn:Elf.
        -- cbn [all_space]. rewrite (lf_is_space d Elf). cbn [andb].
           cbn [String.length] in Hn.
           rewrite <- (IH s) by lia. split.
           ++ intros H. now inversion H.
           ++ intros H. now constructor.
        -- rewrite <- (IH (String d s)) by lia. split.
           ++ intros H. now inversion H.
           ++ intros H. now constructor.
    + destruct (Py.is_linebreak c) eqn:Elb.
      * rewrite (linebreak_is_space c Elb). cbn [andb].
        rewrite <- (IH s) by lia. split.
        -- intros H. now inversion H.
        -- intros H. now constructor.
      * rewrite cons_char_all_space, (IH s) by lia.
        rewrite andb_true_iff. tauto.
Qed.

Lemma splitlines_all_space (s : string) :
  Forall (fun l => all_space l = true) (Py.splitlines s)
  <-> all_space s = true.
Proof. apply (splitlines_all_space_upto (String.length s)). lia. Qed.

Lemma content_lines_nil (text : string) :
  content_lines text = [] <-> blank text = true.
Proof.
  rewrite blank_all_space, <- splitlines_all_space. unfold content_lines.
  induction (Py.splitlines text) as [|l ls IH]; cbn [map filter].
  - split; [constructor|reflexivity].
  - destruct (Py.truthy (Py.strip l)) eqn:E.
    + split; [discriminate|]. intros H. inversion H as [|? ? Hl _]; subst.
      apply strip_empty in Hl. rewrite Hl in E. discriminate.
    + rewrite IH. apply truthy_empty, strip_empty in E. split.
      * intros H. now constructor.
      * intros H. now inversion H.
Qed.

Lemma entries_of_flush (st : ParseState) :
  clauses (flush_current st) = entries_of st.
Proof.
  unfold flush_current, entries_of.
  destruct (current st); cbn [clauses]; [reflexivity|now rewrite app_nil_r].
Qed.

Lemma append_line_is_text (b s : string) :
  Py.truthy s = true -> Py.truthy (append_line b s) = true.
Proof.
  intros Hs. unfold append_line. apply truthy_app_r, truthy_app_r, Hs.
Qed.

Lemma parse_line_entries (st : ParseState) (line : string) :
  Py.truthy (Py.strip line) = true ->
  Forall well_formed_entry (entries_of st) ->
  Forall well_formed_entry (entries_of (parse_line st line))
  /\ 1 <= List.length (entries_of (parse_line st line))
  /\ List.length (entries_of st)
     <= List.length (entries_of (parse_line st line))
     <= S (List.length (entries_of st)).
Proof.
  intros Hs Hall. unfold parse_line. rewrite Hs. cbn [negb].
  set (s := Py.strip line) in *.
  destruct (Re.found (Re.pmatch sub_level s) && is_some (current st)) eqn:Hsub.
  - apply andb_true_iff in Hsub. destruct Hsub as [Hm Hcur].
    unfold entries_of in *. cbn [clauses current current_subs].
    destruct (current st) as [c|] eqn:Ec; [|discriminate].
    apply Forall_app in Hall. destruct Hall as [Hcl Hc].
    inversion Hc as [|? ? [Hp Hsubs] _]; subst. cbn [fst snd] in *.
    rewrite !length_app. cbn [List.length]. split; [|lia].
    apply Forall_app. split; [exact Hcl|]. constructor; [|constructor].
    split; [exact Hp|]. cbn [snd]. apply Forall_app. split; [exact Hsubs|].
    constructor; [exact Hm|constructor].
  - destruct (Re.found (Re.pmatch top_level s)) eqn:Htop.
    + assert (E : entries_of
                    (mkParseState (clauses (flush_current st))
                       (Some (mkSection s EmptyString)) [])
                  = entries_of st ++ [(mkSection s EmptyString, [])]).
      { unfold entries_of at 1. cbn [clauses current current_subs].
        now rewrite entries_of_flush. }
      rewrite E, !length_app. cbn [List.length].
      split; [|lia].
      apply Forall_app. split; [exact Hall|]. constructor; [|constructor].
      split; [|constructor]. cbn [fst heading body]. intros ->.
      pose proof (top_heading_not_preamble _ Htop) as H. discriminate H.
    + unfold entries_of in *.
      destruct (current st) as [c|] eqn:Ec.
      * apply Forall_app in Hall. destruct Hall as [Hcl Hc].
        inversion Hc as [|? ? [Hp Hsubs] _]; subst. cbn [fst snd] in *.
        destruct (current_subs st) as [|x xs] eqn:Esubs;
          cbn [clauses current current_subs];
          rewrite !length_app; cbn [List.length]; (split; [|lia]);
          (apply Forall_app; split; [exact Hcl|]);
          (constructor; [|constructor]); split; cbn [fst snd heading body].
        -- intros _. now apply append_line_is_text.
        -- constructor.
        -- exact Hp.
        -- destruct (exists_last_section x xs) as [init [last E]].
           rewrite E in *. rewrite append_to_last_snoc.
           apply Forall_app in Hsubs. destruct Hsubs as [Hi Hl].
           apply Forall_app. split; [exact Hi|].
           inversion Hl; subst. constructor; [assumption|constructor].
      * cbn [clauses current current_subs].
        rewrite !length_app. cbn [List.length]. split; [|lia].
        apply Forall_app. split; [now rewrite app_nil_r in Hall|].
        constructor; [|constructor]. split; [|constructor].
        intros _. exact Hs.
Qed.

Lemma fold_parse_entries (lines : list string) (st : ParseState) :
  Forall well_formed_entry (entries_of st) ->
  let st' := fold_left parse_line lines st in
  let new := filter Py.truthy (map Py.strip lines) in
  Forall well_formed_entry (entries_of st')
  /\ List.length (entries_of st) <= List.length (entries_of st')
     <= List.length (entries_of st) + List.length new
  /\ (new <> [] -> 1 <= List.length (entries_of st')).
Proof.
  revert st. induction lines as [|l lines IH]; intros st Hall.
  - cbn. repeat split; [exact Hall|lia|lia|congruence].
  - cbn [fold_left map filter].
    destruct (Py.truthy (Py.strip l)) eqn:Hs.
    + destruct (parse_line_entries st l Hs Hall) as [Hall' [H1 H2]].
      destruct (IH _ Hall') as [Hw [Hlen _]].
      cbn zeta in *. cbn [List.length].
      split; [exact Hw|]. split; [lia|]. intros _. lia.
    + rewrite (parse_line_blank st l Hs). now apply IH.
Qed.

Lemma number_clause_In (l : list (Section * list Section)) (i : nat)
  (c : Clause) :
  In c (map number_clause (Py.enumerate i l)) ->
  exists cs, In cs l /\ c_heading c = heading (fst cs)
             /\ c_body c = body (fst cs) /\ sub_clauses c = snd cs.
Proof.
  revert i. induction l as [|[sec subs] l IH]; intros i; [intros []|].
  cbn [Py.enumerate map]. intros [<-|H].
  - exists (sec, subs). split; [now left|]. repeat split.
  - destruct (IH _ H) as [cs [Hcs Hrest]]. exists cs. split; [now right|].
    exact Hrest.
Qed.

(** The clauses of a text are the entries of the parser's last state; they
    are well formed, at most one per line of content, and there is one as
    soon as a line has content. *)
Lemma split_entries (text : string) :
  exists st,
    split_into_clauses text
    = map number_clause (Py.enumerate 1 (entries_of st))
    /\ Forall well_formed_entry (entries_of st)
    /\ List.length (entries_of st) <= List.length (content_lines text)
    /\ (content_lines text <> [] -> 1 <= List.length (entries_of st)).
Proof.
  destruct (fold_parse_entries (map Py.rstrip (Py.splitlines text)) initial
              (Forall_nil _)) as [Hw [Hlen Hne]].
  cbn zeta in *. rewrite map_strip_rstrip in Hlen, Hne.
  fold (content_lines text) in Hlen, Hne.
  change (List.length (entries_of initial)) with 0 in Hlen.
  exists (fold_left parse_line (map Py.rstrip (Py.splitlines text)) initial).
  split; [|split; [exact Hw|split; [lia|exact Hne]]].
  unfold split_into_clauses. now rewrite entries_of_flush.
Qed.

Lemma split_nil_iff_blank (text : string) :
  split_into_clauses text = [] <-> blank text = true.
Proof.
  destruct (split_entries text) as [st [Hcs [_ [Hlen Hne]]]].
  assert (Hl : List.length (split_into_clauses text)
               = List.length (entries_of st)).
  { rewrite Hcs, length_map. apply enumerate_length. }
  rewrite <- content_lines_nil. split.
  - intros E. rewrite E in Hl. cbn in Hl.
    destruct (content_lines text); [reflexivity|].
    specialize (Hne ltac:(discriminate)). lia.
  - intros E. rewrite E in Hlen. cbn in Hlen.
    destruct (split_into_clauses text); [reflexivity|]. cbn in Hl. lia.
Qed.

(** X12.  [split_into_clauses] gives no clause exactly for a text of
    white space; it gives at most one clause per non-blank line; the clause
    headed Preamble has a body; and every sub-clause heading matches the
    sub-level pattern. *)
Theorem split_into_clauses_shape (text : string) :
  let cs := split_into_clauses text in
  (cs = [] <-> blank text = true)
  /\ List.length cs <= List.length (content_lines text)
  /\ (forall c, In c cs ->
        (c_heading c = "Preamble" -> Py.truthy (c_body c) = true)
        /\ Forall (fun sec => is_sub_heading (heading sec) = true)
                  (sub_clauses c)).
Proof.
  intros cs. split; [apply split_nil_iff_blank|].
  destruct (split_entries text) as [st [Hcs [Hw [Hlen _]]]]. fold cs in Hcs.
  split.
  - rewrite Hcs, length_map, enumerate_length. exact Hlen.
  - intros c Hc. rewrite Hcs in Hc.
    destruct (number_clause_In _ _ _ Hc) as [e [He [Hh [Hb Hs]]]].
    rewrite Forall_forall in Hw. destruct (Hw e He) as [Hp Hsub].
    rewrite Hh, Hb, Hs. split; assumption.
Qed.

(* ================================================================== *)
(** ** The sections of an analysis *)
(* ================================================================== *)

Lemma take_length (n : nat) (s : string) : String.length (Py.take n s) <= n.
Proof.
  unfold Py.take. revert s. induction n as [|n IH]; intros [|c s]; cbn;
    try lia. specialize (IH s). lia.
Qed.

Lemma similarity_at_most_five (h b : string) :
  List.length (clause_similarity_to_templates h b) <= 5.
Proof.
  unfold clause_similarity_to_templates.
  destruct (negb _); [cbn; lia|]. apply firstn_le_length.
Qed.

Lemma sort_by_sorted {A : Type} (le : A -> A -> bool) (l : list A) :
  StronglySorted (fun x y => le x y = true) l -> Py.sort_by le l = l.
Proof.
  induction 1 as [|x l _ IH Hx]; [reflexivity|].
  unfold Py.sort_by in *. cbn [fold_right]. rewrite IH.
  destruct l as [|y l]; [reflexivity|]. cbn [Py.insert_by].
  inversion Hx as [|? ? Hxy _]; subst. now rewrite Hxy.
Qed.

Lemma seq_sorted (a n : nat) : StronglySorted lt (seq a n).
Proof.
  revert a. induction n as [|n IH]; intros a; cbn [seq]; constructor.
  - apply IH.
  - apply Forall_forall. intros x Hx. apply in_seq in Hx. lia.
Qed.

Lemma sorted_by_key {A : Type} (key : A -> nat) (l : list A) :
  StronglySorted lt (map key l) ->
  StronglySorted (fun x y => (key x <=? key y) = true) l.
Proof.
  induction l as [|x l IH]; cbn [map]; intros H; constructor;
    inversion H as [|? ? Hs Hx]; subst.
  - now apply IH.
  - apply Forall_forall. intros y Hy. rewrite Forall_forall in Hx.
    apply Nat.leb_le, Nat.lt_le_incl, Hx, in_map, Hy.
Qed.

Lemma sorted_filter {A : Type} (R : A -> A -> Prop) (p : A -> bool)
  (l : list A) :
  StronglySorted R l -> StronglySorted R (filter p l).
Proof.
  induction 1 as [|x l _ IH Hx]; cbn [filter]; [constructor|].
  destruct (p x); [|exact IH]. constructor; [exact IH|].
  apply Forall_forall. intros y Hy. apply filter_In in Hy.
  rewrite Forall_forall in Hx. now apply Hx.
Qed.

Lemma explained_numbers (cs : list Clause) :
  map rr_clause_number (map row_of (map (fun c => snd (explain_clause c)) cs))
  = map clause_number cs
  /\ map rr_heading (map row_of (map (fun c => snd (explain_clause c)) cs))
     = map c_heading cs
  /\ map ce_clause_number (map (fun c => fst (explain_clause c)) cs)
     = map clause_number cs
  /\ map ce_heading (map (fun c => fst (explain_clause c)) cs)
     = map c_heading cs.
Proof.
  rewrite !map_map. repeat split; apply map_ext; intros c;
    cbn [row_of rr_clause_number rr_heading].
  - now destruct (explain_clause_risk c) as [H _].
  - now destruct (explain_clause_risk c) as [_ [H _]].
  - now destruct (explained_intent c) as [_ [H _]].
  - now destruct (explained_intent c) as [_ [_ [H _]]].
Qed.

Lemma clauses_of_numbers (env : Env) (text : string)
  (language : option string) :
  map clause_number (clauses_of env text language)
  = seq 1 (List.length (clauses_of env text language)).
Proof.
  unfold clauses_of, split_into_clauses.
  rewrite enumerate_numbers, length_map. now rewrite enumerate_length.
Qed.

Lemma fairness_of_row (rf : RiskFlags) :
  fairness_of rf
  = if flagged (row_of rf) then [fairness_for_row (row_of rf)] else [].
Proof.
  unfold fairness_of, flagged, fairness_for_row. cbn [row_of rr_flags].
  destruct (rf_flags rf); reflexivity.
Qed.

(** X13.  The sections of an analysis go clause by clause: the clauses,
    the explanation table and the risk table carry the numbers 1 to N and
    the same headings in the same order; row i holds the verdict of the
    classifier on clause i and explanation i its intent; the fairness flags
    are the rows that have a flag, in order, and the audit log repeats
    them; a text preview has 500 characters at most and a clause five
    template matches at most. *)
Theorem analysis_sections_are_aligned (env : Env) (text : string)
  (language business_role : option string) :
  let r := analyze_contract env text language business_role in
  let cs := s2_structured_clause_extraction_json r in
  let table := clause_risk_table (s5_risk_analysis_and_flags r) in
  let s4 := s4_clause_by_clause_explanation_table r in
  map clause_number cs = seq 1 (List.length cs)
  /\ map ce_clause_number s4 = seq 1 (List.length cs)
  /\ map rr_clause_number table = seq 1 (List.length cs)
  /\ map ce_heading s4 = map c_heading cs
  /\ map rr_heading table = map c_heading cs
  /\ map (fun row => (rr_risk_level row, rr_flags row)) table
     = map verdict_of cs
  /\ map ce_intent s4
     = map (fun c => classify_clause_intent (full_text_of c)) cs
  /\ fairness_and_sme_flags (s5_risk_analysis_and_flags r)
     = map fairness_for_row (filter flagged table)
  /\ risk_flags_summary (s10_audit_log r)
     = fairness_and_sme_flags (s5_risk_analysis_and_flags r)
  /\ (forall e, In e s4 ->
        String.length (ce_text_preview e) <= 500
        /\ List.length (ce_template_matches e) <= 5).
Proof.
  intros r cs table s4.
  destruct (analyze_contract_sections env text language business_role)
    as [Hs2 [Hs4 [Hs5 [Hf [Ha _]]]]].
  fold r in Hs2, Hs4, Hs5, Hf, Ha. fold cs in Hs2. fold table in Hs5.
  fold s4 in Hs4.
  destruct (explained_numbers cs) as [Hn1 [Hh1 [Hn2 Hh2]]].
  pose proof (clauses_of_numbers env text language) as Hseq.
  rewrite <- Hs2 in Hs4, Hs5, Hf, Ha, Hseq.
  assert (Hfair : fairness_and_sme_flags (s5_risk_analysis_and_flags r)
                  = map fairness_for_row (filter flagged table)).
  { rewrite Hf, Hs5. apply flat_map_as_filter. intros rf _.
    apply fairness_of_row. }
  repeat split.
  - exact Hseq.
  - now rewrite Hs4, Hn2.
  - now rewrite Hs5, Hn1.
  - now rewrite Hs4, Hh2.
  - now rewrite Hs5, Hh1.
  - rewrite Hs5, !map_map. apply map_ext. intros c.
    cbn [row_of rr_risk_level rr_flags]. unfold verdict_of.
    destruct (explain_clause_risk c) as [_ [_ [-> ->]]].
    now destruct (clause_risk_level _ _).
  - rewrite Hs4, map_map. apply map_ext. intros c.
    now destruct (explained_intent c) as [-> _].
  - exact Hfair.
  - now rewrite Ha, Hf.
  - rewrite Hs4 in H. apply in_map_iff in H. destruct H as [c [<- _]].
    destruct (explained_intent c) as [_ [_ [_ ->]]]. apply take_length.
  - rewrite Hs4 in H. apply in_map_iff in H. destruct H as [c [<- _]].
    unfold explain_clause. destruct (clause_risk_level _ _).
    cbn [fst ce_template_matches]. apply similarity_at_most_five.
Qed.

(** *** The executive summary *)

Lemma filter_map_comm {A B : Type} (p : B -> bool) (f : A -> B) (l : list A) :
  filter p (map f l) = map f (filter (fun x => p (f x)) l).
Proof.
  induction l as [|x l IH]; [reflexivity|]. cbn [map filter].
  destruct (p (f x)); cbn [map]; now rewrite IH.
Qed.

Lemma flag_names_joined (flags : list Flag) :
  flags <> [] ->
  Py.truthy (Py.join ", " (map flag_name flags)) = true.
Proof.
  intros Hne. apply join_truthy.
  - destruct flags; [congruence|discriminate].
  - apply Forall_forall. intros x Hx. apply in_map_iff in Hx.
    destruct Hx as [f [<- _]]. destruct f; reflexivity.
Qed.

Lemma biggest_risk_line_flagged (rf : RiskFlags) :
  rf_flags rf <> [] -> biggest_risk_line rf = high_risk_line (row_of rf).
Proof.
  intros Hne. unfold biggest_risk_line, high_risk_line, or_default.
  cbn [row_of rr_clause_number rr_heading rr_flags].
  now rewrite (flag_names_joined _ Hne).
Qed.

Lemma high_has_flags (c : Clause) :
  is_high (rf_risk_level (snd (explain_clause c))) = true ->
  rf_flags (snd (explain_clause c)) <> [].
Proof.
  destruct (explain_clause_risk c) as [_ [_ [-> ->]]]. intros H.
  assert (Hh : level_of (full_text_of c)
                 (classify_clause_intent (full_text_of c)) = HIGH).
  { unfold level_of. destruct (fst _); try discriminate. reflexivity. }
  apply high_is_suggestible in Hh. unfold flags_of in Hh.
  intros E. rewrite E in Hh. now apply Hh.
Qed.


(** *** Blank contracts and the language step *)

Lemma stripped_text_not_blank (s : string) :
  Py.truthy (Py.strip s) = true -> blank (Py.strip s) = false.
Proof. intros H. unfold blank. now rewrite strip_idempotent, H. Qed.

Lemma call_anthropic_not_blank (env : Env) (prompt system out : string)
  (n : nat) :
  usable (_call_anthropic env prompt system n) = Some out ->
  blank out = false /\ Py.strip out = out.
Proof.
  unfold usable, _call_anthropic.
  destruct (anthropic_create _ _ _ _ _ _) as [t|]; [|discriminate].
  destruct (Py.truthy (Py.strip t)) eqn:E; [|discriminate].
  intros H. inversion H. split; [now apply stripped_text_not_blank|].
  apply strip_idempotent.
Qed.

Lemma call_openai_not_blank (env : Env) (prompt system out : string)
  (n : nat) :
  usable (_call_openai env prompt system n) = Some out ->
  blank out = false /\ Py.strip out = out.
Proof.
  unfold usable, _call_openai.
  destruct (openai_create _ _ _ _ _ _) as [t|]; [|discriminate].
  destruct (Py.truthy t); [|discriminate].
  destruct (Py.truthy (Py.strip t)) eqn:E; [|discriminate].
  intros H. inversion H. split; [now apply stripped_text_not_blank|].
  apply strip_idempotent.
Qed.

Lemma translation_cases (env : Env) (text : string) :
  normalize_hindi_to_english env text = text
  \/ (blank text = false
      /\ blank (normalize_hindi_to_english env text) = false
      /\ Py.strip (normalize_hindi_to_english env text)
         = normalize_hindi_to_english env text
      /\ (Py.truthy (environ_get env "ANTHROPIC_API_KEY") = true
          \/ Py.truthy (environ_get env "OPENAI_API_KEY") = true)).
Proof.
  unfold normalize_hindi_to_english.
  destruct (negb (Py.truthy text) || negb (Py.truthy (Py.strip text))) eqn:Eb;
    [now left|].
  apply orb_false_iff in Eb. destruct Eb as [_ Eb].
  assert (Hnb : blank text = false) by exact Eb.
  destruct (Py.truthy (environ_get env "ANTHROPIC_API_KEY")) eqn:Ka.
  - destruct (usable (_call_anthropic _ _ _ _)) as [out|] eqn:Ea.
    + right. destruct (call_anthropic_not_blank _ _ _ _ _ Ea) as [H1 H2].
      repeat split; auto.
    + destruct (Py.truthy (environ_get env "OPENAI_API_KEY")) eqn:Ko;
        [|now left].
      destruct (usable (_call_openai _ _ _ _)) as [out|] eqn:Eo; [|now left].
      right. destruct (call_openai_not_blank _ _ _ _ _ Eo) as [H1 H2].
      repeat split; auto.
  - destruct (Py.truthy (environ_get env "OPENAI_API_KEY")) eqn:Ko;
      [|now left].
    destruct (usable (_call_openai _ _ _ _)) as [out|] eqn:Eo; [|now left].
    right. destruct (call_openai_not_blank _ _ _ _ _ Eo) as [H1 H2].
    repeat split; auto.
Qed.

Lemma normalize_language_blank (env : Env) (text : string)
  (language : option string) :
  blank (normalize_language env text language) = blank text.
Proof.
  unfold normalize_language.
  destruct (negb (Py.truthy text) || negb (Py.truthy (Py.strip text)));
    [reflexivity|].
  destruct (String.eqb _ _); [|reflexivity].
  destruct (translation_cases env text) as [->|[H1 [H2 _]]];
    [reflexivity|congruence].
Qed.

Lemma normalize_language_english (env : Env) (text : string) :
  normalize_language env text (Some "english") = text.
Proof.
  unfold normalize_language.
  destruct (negb (Py.truthy text) || negb (Py.truthy (Py.strip text)));
    reflexivity.
Qed.

Lemma analysis_score (env : Env) (text : string)
  (language business_role : option string) :
  let r := analyze_contract env text language business_role in
  composite_risk_score_0_to_100 (s7_contract_risk_score_summary r)
  = contract_level_risk_score
      (map (fun c => fst (verdict_of c)) (clauses_of env text language))
  /\ interpretation (s7_contract_risk_score_summary r)
     = risk_interpretation
         (composite_risk_score_0_to_100 (s7_contract_risk_score_summary r)).
Proof.
  intros r. unfold r, analyze_contract, clauses_of.
  destruct (detect_contract_type _) as [ctype cexpl].
  cbn -[split_into_clauses explain_clause normalize_language
        contract_level_risk_score risk_interpretation].
  split; [|reflexivity]. f_equal. rewrite !map_map. apply map_ext. intros c.
  unfold verdict_of. now destruct (explain_clause_risk c) as [_ [_ [-> _]]].
Qed.

Lemma analysis_clauses_nil (env : Env) (text : string)
  (language : option string) :
  clauses_of env text language = [] <-> blank text = true.
Proof.
  unfold clauses_of. rewrite <- (normalize_language_blank env text language).
  apply split_nil_iff_blank.
Qed.

Lemma analysis_of_text (env : Env) (text : string)
  (language business_role : option string) :
  let r := analyze_contract env text language business_role in
  blank text = false ->
  s2_structured_clause_extraction_json r <> []
  /\ (16 <= composite_risk_score_0_to_100 (s7_contract_risk_score_summary r)
      <= 100)%Z.
Proof.
  intros r Hb.
  destruct (analyze_contract_sections env text language business_role)
    as [Hs2 _].
  destruct (analysis_score env text language business_role) as [Hsc _].
  fold r in Hs2, Hsc. rewrite Hs2, Hsc.
  assert (Hne : clauses_of env text language <> []).
  { intros E. apply analysis_clauses_nil in E. congruence. }
  split; [exact Hne|]. destruct score_facts as [H16 [_ H100]].
  split; [|apply H100]. apply H16. intros E. apply map_eq_nil in E.
  contradiction.
Qed.

(** X15.  Whatever the language tag and the translation service, an
    analysis has no clause exactly when the contract text is blank, and its
    score is 0 exactly then; the score of any other text lies between 16
    and 100; a blank text gives empty tables and the rating Safe. *)
Theorem blank_contracts (env : Env) (text : string)
  (language business_role : option string) :
  let r := analyze_contract env text language business_role in
  let score :=
    composite_risk_score_0_to_100 (s7_contract_risk_score_summary r) in
  (s2_structured_clause_extraction_json r = [] <-> blank text = true)
  /\ (score = 0%Z <-> blank text = true)
  /\ (blank text = false -> (16 <= score <= 100)%Z)
  /\ (blank text = true ->
        s4_clause_by_clause_explanation_table r = []
        /\ clause_risk_table (s5_risk_analysis_and_flags r) = []
        /\ fairness_and_sme_flags (s5_risk_analysis_and_flags r) = []
        /\ s6_renegotiation_suggestions r = []
        /\ interpretation (s7_contract_risk_score_summary r) = "Safe").
Proof.
  intros r score.
  destruct (analyze_contract_sections env text language business_role)
    as [Hs2 [Hs4 [Hs5 [Hf [_ Hs6]]]]].
  destruct (analysis_score env text language business_role) as [Hsc Hint].
  fold r in Hs2, Hs4, Hs5, Hf, Hs6, Hsc, Hint. fold score in Hsc, Hint.
  pose proof (analysis_clauses_nil env text language) as Hcs.
  set (cs := clauses_of env text language) in *.
  destruct score_facts as [_ [H0 _]].
  split; [now rewrite Hs2|]. split; [|split].
  - rewrite Hsc, H0, <- Hcs. split.
    + apply map_eq_nil.
    + now intros ->.
  - intros Hb. apply (analysis_of_text env text language business_role Hb).
  - intros Hb. apply Hcs in Hb.
    rewrite Hint, Hsc, Hs4, Hs5, Hf, Hs6, Hb. repeat split.
Qed.

Lemma blank_score_zero (env : Env) (text : string)
  (language business_role : option string) :
  blank text = true ->
  composite_risk_score_0_to_100
    (s7_contract_risk_score_summary
       (analyze_contract env text language business_role)) = 0%Z.
Proof.
  intros Hb.
  destruct (analysis_score env text language business_role) as [-> _].
  apply (proj2 (analysis_clauses_nil env text language)) in Hb.
  now rewrite Hb.
Qed.

(** *** What the environment is used for *)

Lemma normalize_language_untagged (env : Env) (text : string)
  (language : option string) :
  tagged_hindi language = false -> normalize_language env text language = text.
Proof.
  intros H. unfold normalize_language. unfold tagged_hindi in H. rewrite H.
  now destruct (negb (Py.truthy text) || negb (Py.truthy (Py.strip text))).
Qed.

Lemma normalize_language_of_blank (env : Env) (text : string)
  (language : option string) :
  blank text = true -> normalize_language env text language = text.
Proof.
  intros H. unfold normalize_language. unfold blank in H. rewrite H.
  now rewrite orb_true_r.
Qed.

Lemma analyze_contract_of_normalized (env : Env) (text : string)
  (language business_role : option string) :
  analyze_contract env text language business_role
  = analyze_contract (set_clock offline_env (utcnow_isoformat env))
      (normalize_language env text language) (Some "english") business_role.
Proof.
  unfold analyze_contract. rewrite normalize_language_english. reflexivity.
Qed.

(** X16.  The environment reaches an analysis through the translation
    of the text and the clock only: the analysis of a text is the offline
    analysis, at the same clock reading, of the normalized text; for a text
    that is not tagged as Hindi, and for a blank text, two environments
    with the same clock reading give the same analysis. *)
Theorem services_are_used_for_translation_only :
  (forall env text language business_role,
     analyze_contract env text language business_role
     = analyze_contract (set_clock offline_env (utcnow_isoformat env))
         (normalize_language env text language) (Some "english")
         business_role)
  /\ (forall env env' text language business_role,
        tagged_hindi language = false ->
        utcnow_isoformat env = utcnow_isoformat env' ->
        analyze_contract env text language business_role
        = analyze_contract env' text language business_role)
  /\ (forall env env' text language business_role,
        blank text = true ->
        utcnow_isoformat env = utcnow_isoformat env' ->
        analyze_contract env text language business_role
        = analyze_contract env' text language business_role).
Proof.
  split; [exact analyze_contract_of_normalized|]. split.
  - intros env env' text language role Ht Hc.
    rewrite (analyze_contract_of_normalized env),
            (analyze_contract_of_normalized env').
    now rewrite !normalize_language_untagged, Hc by exact Ht.
  - intros env env' text language role Hb Hc.
    rewrite (analyze_contract_of_normalized env),
            (analyze_contract_of_normalized env').
    now rewrite !normalize_language_of_blank, Hc by exact Hb.
Qed.

(* ================================================================== *)
(** ** Entities, termination conditions and ambiguity findings *)
(* ================================================================== *)

(** *** Excerpts *)

Lemma prefix_iff (k s : string) :
  String.prefix k s = true <-> exists post, s = (k ++ post)%string.
Proof.
  revert s. induction k as [|c k IH]; intros s.
  - split; [intros _; now exists s|]. intros _. now destruct s.
  - destruct s as [|d s]; cbn [String.prefix String.append].
    + split; [discriminate|]. intros [post H]. discriminate.
    + destruct (Ascii.ascii_dec c d) as [->|Hne].
      * rewrite IH. split; intros [post H]; exists post; congruence.
      * split; [discriminate|]. intros [post H]. congruence.
Qed.

Lemma isin_iff (k s : string) :
  Py.isin k s = true <-> exists pre post, s = (pre ++ k ++ post)%string.
Proof.
  induction s as [|c s IH]; cbn [Py.isin].
  - rewrite orb_false_r, prefix_iff. split.
    + intros [post H]. now exists EmptyString, post.
    + intros [pre [post H]]. destruct pre; [now exists post|discriminate].
  - rewrite orb_true_iff, prefix_iff, IH. split.
    + intros [[post H]|[pre [post H]]].
      * now exists EmptyString, post.
      * exists (String c pre), post. cbn. now rewrite H.
    + intros [pre [post H]]. destruct pre as [|d pre].
      * left. now exists post.
      * right. cbn in H. inversion H. now exists pre, post.
Qed.

Lemma isin_trans (a b c : string) :
  Py.isin a b = true -> Py.isin b c = true -> Py.isin a c = true.
Proof.
  rewrite !isin_iff. intros [p1 [q1 ->]] [p2 [q2 ->]].
  exists (p2 ++ p1)%string, (q1 ++ q2)%string.
  now rewrite !string_app_assoc.
Qed.

Lemma isin_lstrip (s : string) : Py.isin (Py.lstrip s) s = true.
Proof.
  induction s as [|c s IH]; [reflexivity|]. cbn [Py.lstrip].
  destruct (Py.isspace c); [|apply isin_refl].
  cbn [Py.isin]. rewrite IH. apply orb_true_r.
Qed.

Lemma prefix_rstrip (s : string) : String.prefix (Py.rstrip s) s = true.
Proof.
  induction s as [|c s IH]; [reflexivity|]. cbn [Py.rstrip].
  destruct (Py.rstrip s) as [|d r].
  - destruct (Py.isspace c); cbn [String.prefix]; [reflexivity|].
    destruct (Ascii.ascii_dec c c); [|congruence]. now destruct s.
  - cbn [String.prefix]. destruct (Ascii.ascii_dec c c); [|congruence].
    exact IH.
Qed.

Lemma isin_prefix (k s : string) :
  String.prefix k s = true -> Py.isin k s = true.
Proof. intros H. destruct s; cbn [Py.isin]; now rewrite H. Qed.

Lemma isin_strip (s : string) : Py.isin (Py.strip s) s = true.
Proof.
  unfold Py.strip. eapply isin_trans; [|apply isin_lstrip].
  apply isin_prefix, prefix_rstrip.
Qed.

Lemma prefix_substring (n : nat) (s : string) :
  String.prefix (String.substring 0 n s) s = true.
Proof.
  revert s. induction n as [|n IH]; intros [|c s]; cbn; try reflexivity.
  destruct (Ascii.ascii_dec c c); [apply IH|congruence].
Qed.

Lemma isin_substring (a n : nat) (s : string) :
  Py.isin (String.substring a n s) s = true.
Proof.
  revert s. induction a as [|a IH]; intros s.
  - apply isin_prefix, prefix_substring.
  - destruct s as [|c s]; [now destruct n|].
    cbn [String.substring Py.isin]. rewrite IH. apply orb_true_r.
Qed.

Lemma isin_slice (a b : nat) (s : string) : Py.isin (Py.slice a b s) s = true.
Proof. apply isin_substring. Qed.

Lemma isin_group0 (s : string) (m : Re.rmatch) :
  Py.isin (Re.group0 s m) s = true.
Proof. apply isin_slice. Qed.

Lemma isin_group (s g : string) (m : Re.rmatch) (i : nat) :
  Re.group s m i = Some g -> Py.isin g s = true.
Proof.
  unfold Re.group. destruct (Re.lookup_cap i (Re.m_caps m)) as [[a b]|];
    [|discriminate].
  intros H. inversion H. apply isin_slice.
Qed.

Lemma isin_empty (s : string) : Py.isin EmptyString s = true.
Proof. destruct s; reflexivity. Qed.

Lemma mem_In (x : string) (l : list string) :
  Py.mem x l = true <-> In x l.
Proof.
  unfold Py.mem. rewrite existsb_exists. split.
  - intros [y [Hy E]]. apply String.eqb_eq in E. now subst.
  - intros H. exists x. split; [exact H|apply String.eqb_refl].
Qed.

Lemma add_party_names (text : string) (ps : list string) (m : Re.rmatch) :
  party_names text ps -> party_names text (add_party text ps m).
Proof.
  intros [Hnd Hall]. unfold add_party.
  set (g := match Re.group text m 1 with Some g => g | None => EmptyString end).
  assert (Hg : Py.isin g text = true).
  { unfold g. destruct (Re.group text m 1) eqn:E;
      [eapply isin_group, E|apply isin_empty]. }
  destruct (Py.truthy (Py.strip g) && negb (Py.mem (Py.strip g) ps)
            && (String.length (Py.strip g) <? 200)) eqn:E;
    [|split; assumption].
  apply andb_true_iff in E. destruct E as [E Hlen].
  apply andb_true_iff in E. destruct E as [Ht Hmem].
  apply Nat.ltb_lt in Hlen. apply negb_true_iff in Hmem.
  split.
  - apply NoDup_app; [exact Hnd|constructor; [intros []|constructor]|].
    intros x Hx [<-|[]]. apply mem_In in Hx. congruence.
  - apply Forall_app. split; [exact Hall|]. constructor; [|constructor].
    repeat split; [exact Ht|exact Hlen|apply strip_idempotent|].
    eapply isin_trans; [apply isin_strip|exact Hg].
Qed.

Lemma fold_add_party_names (text : string) (ms : list Re.rmatch)
  (ps : list string) :
  party_names text ps -> party_names text (fold_left (add_party text) ms ps).
Proof.
  revert ps. induction ms as [|m ms IH]; intros ps H; [exact H|].
  cbn [fold_left]. apply IH, add_party_names, H.
Qed.

Lemma extracted_parties (text : string) :
  party_names text (parties (extract_entities text)).
Proof.
  unfold extract_entities. cbn [parties fold_left].
  repeat apply fold_add_party_names. split; constructor.
Qed.

(** X19.  The parties [extract_entities] reports are distinct, not
    empty, stripped, shorter than 200 characters, and each occurs in the
    text. *)
Theorem parties_are_distinct_names (text : string) :
  let ps := parties (extract_entities text) in
  NoDup ps
  /\ (forall p, In p ps ->
        Py.truthy p = true /\ String.length p < 200
        /\ Py.strip p = p /\ Py.isin p text = true).
Proof.
  intros ps. destruct (extracted_parties text) as [Hnd Hall].
  split; [exact Hnd|]. intros p Hp. rewrite Forall_forall in Hall.
  now apply Hall.
Qed.

Lemma findall0_excerpts (r : Re.regex) (text x : string) :
  In x (Re.findall0 r text) -> Py.isin x text = true.
Proof.
  unfold Re.findall0. intros H. apply in_map_iff in H.
  destruct H as [m [<- _]]. apply isin_group0.
Qed.

Lemma findall1_excerpts (r : Re.regex) (text x : string) :
  In x (Re.findall1 r text) -> Py.isin x text = true.
Proof.
  unfold Re.findall1. intros H. apply in_map_iff in H.
  destruct H as [m [<- _]].
  destruct (Re.group text m 1) eqn:E; [eapply isin_group, E|apply isin_empty].
Qed.

Lemma group1_stripped_excerpt (r : Re.regex) (text x : string) :
  group1_stripped r text = Some x ->
  Py.isin x text = true /\ Py.strip x = x.
Proof.
  unfold group1_stripped. destruct (Re.search r text) as [m|]; [|discriminate].
  destruct (Re.group text m 1) as [g|] eqn:E; [|discriminate].
  intros H. inversion H. split; [|apply strip_idempotent].
  eapply isin_trans; [apply isin_strip|eapply isin_group, E].
Qed.

(** X20.  The amounts and the dates [extract_entities] reports occur in
    the text as they are reported; the jurisdiction and the duration, when
    there is one, occur in the text and are stripped. *)
Theorem entities_are_excerpts (text : string) :
  let e := extract_entities text in
  (forall a, In a (amounts_mentions e) -> Py.isin a text = true)
  /\ (forall d, In d (dates_raw e) -> Py.isin d text = true)
  /\ (forall j, jurisdiction_or_governing_law e = Some j ->
        Py.isin j text = true /\ Py.strip j = j)
  /\ (forall d, duration_text e = Some d ->
        Py.isin d text = true /\ Py.strip d = d)
  /\ termination_conditions e = NlpUtils.extract_termination_conditions text.
Proof.
  intros e. unfold e, extract_entities.
  cbn [amounts_mentions dates_raw jurisdiction_or_governing_law duration_text
       termination_conditions].
  split; [|split; [|split; [|split]]].
  - intros a H. now apply findall0_excerpts in H.
  - intros d H. apply in_app_or in H. destruct H as [H|H];
      [now apply findall0_excerpts in H|now apply findall1_excerpts in H].
  - intros j H. now apply group1_stripped_excerpt in H.
  - intros d H. now apply group1_stripped_excerpt in H.
  - reflexivity.
Qed.

Lemma dedup_from_spec (l seen : list string) :
  NoDup (Py.dedup_from seen l)
  /\ (forall x, In x (Py.dedup_from seen l) <-> In x l /\ ~ In x seen).
Proof.
  revert seen. induction l as [|y l IH]; intros seen; cbn [Py.dedup_from].
  - split; [constructor|]. intros x. cbn. tauto.
  - destruct (Py.mem y seen) eqn:E.
    + destruct (IH seen) as [Hnd Hin]. split; [exact Hnd|].
      intros x. rewrite Hin. apply mem_In in E. cbn [In]. split.
      * tauto.
      * intros [[<-|H] Hn]; [contradiction|tauto].
    + destruct (IH (y :: seen)) as [Hnd Hin].
      assert (Hy : ~ In y seen).
      { intros H. apply mem_In in H. congruence. }
      split.
      * constructor; [|exact Hnd]. rewrite Hin. cbn [In]. tauto.
      * intros x. cbn [In]. rewrite Hin. cbn [In].
        destruct (String.string_dec y x) as [->|Hne]; tauto.
Qed.

Lemma dedup_spec (l : list string) :
  NoDup (Py.dedup l) /\ (forall x, In x (Py.dedup l) <-> In x l).
Proof.
  destruct (dedup_from_spec l []) as [Hnd Hin]. split; [exact Hnd|].
  intros x. unfold Py.dedup. rewrite Hin. cbn. tauto.
Qed.

Lemma NoDup_firstn_of {A : Type} (n : nat) (l : list A) :
  NoDup l -> NoDup (firstn n l).
Proof.
  revert l. induction n as [|n IH]; intros l H; [constructor|].
  destruct l as [|x l]; [constructor|]. cbn [firstn].
  inversion H; subst. constructor; [|now apply IH].
  intros Hx. apply firstn_In in Hx. contradiction.
Qed.

Lemma lower_char_idempotent (c : ascii) :
  Py.lower_char (Py.lower_char c) = Py.lower_char c.
Proof.
  destruct c as [[] [] [] [] [] [] [] []]; vm_compute; reflexivity.
Qed.

Lemma lower_idempotent (s : string) : Py.lower (Py.lower s) = Py.lower s.
Proof.
  induction s as [|c s IH]; [reflexivity|]. cbn [Py.lower].
  now rewrite lower_char_idempotent, IH.
Qed.

Lemma lower_length (s : string) : String.length (Py.lower s) = String.length s.
Proof. induction s as [|c s IH]; [reflexivity|]. cbn. now rewrite IH. Qed.

Lemma string_app_inj (a a' b b' : string) :
  String.length a = String.length a' ->
  (a ++ b = a' ++ b')%string -> a = a' /\ b = b'.
Proof.
  revert a'. induction a as [|c a IH]; intros [|c' a'] Hl H;
    cbn in Hl; try discriminate.
  - now split.
  - cbn in H. inversion H. subst.
    destruct (IH a' ltac:(lia) H2) as [-> ->]. now split.
Qed.

(** A piece of a lower-cased text is lower-cased. *)
Lemma excerpt_of_lower (p t : string) :
  Py.isin p (Py.lower t) = true -> Py.lower p = p.
Proof.
  intros H. apply isin_iff in H. destruct H as [pre [post E]].
  pose proof (lower_idempotent t) as Hi. rewrite E in Hi.
  rewrite !lower_app in Hi.
  apply string_app_inj in Hi; [|apply lower_length]. destruct Hi as [_ Hi].
  apply string_app_inj in Hi; [|apply lower_length]. tauto.
Qed.

Lemma termination_candidates (text x : string) :
  In x (flat_map (fun p => map (fun m => Py.strip (Re.group0 (Py.lower text) m))
                              (Re.finditer p (Py.lower text)))
          [NlpUtils.terminate_re; NlpUtils.written_notice_re;
           NlpUtils.material_breach_re; NlpUtils.either_party_re]) ->
  Py.isin x (Py.lower text) = true.
Proof.
  intros H. apply in_flat_map in H. destruct H as [p [_ H]].
  apply in_map_iff in H. destruct H as [m [<- _]].
  eapply isin_trans; [apply isin_strip|apply isin_group0].
Qed.

(** X21.  [extract_termination_conditions] reports at most ten
    phrases, no phrase twice; each occurs in the lower-cased text, is in
    lower case and stripped. *)
Theorem termination_conditions_are_distinct_excerpts (text : string) :
  let found := NlpUtils.extract_termination_conditions text in
  NoDup found
  /\ List.length found <= 10
  /\ (forall x, In x found ->
        Py.isin x (Py.lower text) = true
        /\ Py.lower x = x /\ Py.strip x = x).
Proof.
  intros found. unfold found, NlpUtils.extract_termination_conditions.
  set (cands := flat_map _ _).
  destruct (dedup_spec cands) as [Hnd Hin].
  split; [now apply NoDup_firstn_of|]. split; [apply firstn_le_length|].
  intros x Hx. apply firstn_In, Hin in Hx.
  assert (Hex : Py.isin x (Py.lower text) = true)
    by (now apply termination_candidates).
  split; [exact Hex|]. split; [eapply excerpt_of_lower, Hex|].
  unfold cands in Hx. apply in_flat_map in Hx. destruct Hx as [p [_ Hx]].
  apply in_map_iff in Hx. destruct Hx as [m [<- _]]. apply strip_idempotent.
Qed.

(** *** Ambiguity, translation and clause explanations *)

Lemma findings_of_spec (r : Re.regex) (reason lower : string)
  (f : string * string) :
  In f (NlpUtils.findings_of r reason lower) ->
  snd f = reason /\ Py.isin (fst f) lower = true.
Proof.
  unfold NlpUtils.findings_of. intros H. apply in_map_iff in H.
  destruct H as [m [<- _]]. split; [reflexivity|apply isin_group0].
Qed.

(** X22.  [detect_ambiguity] reports at most fifteen findings; the
    reason of each is one of six sentences, and its phrase occurs in the
    lower-cased text or is one of the two labels of the scope and the
    reference tests. *)
Theorem ambiguity_findings (text : string) :
  let findings := NlpUtils.detect_ambiguity text in
  List.length findings <= 15
  /\ (forall phrase reason, In (phrase, reason) findings ->
        In reason AMBIGUITY_REASONS
        /\ (Py.isin phrase (Py.lower text) = true
            \/ In phrase AMBIGUITY_LABELS)).
Proof.
  intros findings. split; [apply firstn_le_length|].
  intros phrase reason H. unfold findings, NlpUtils.detect_ambiguity in H.
    apply firstn_In in H.
    repeat (apply in_app_or in H; destruct H as [H|H]).
    + apply findings_of_spec in H. cbn [fst snd] in H. destruct H as [-> H].
      split; [cbn; tauto|now left].
    + apply findings_of_spec in H. cbn [fst snd] in H. destruct H as [-> H].
      split; [cbn; tauto|now left].
    + apply findings_of_spec in H. cbn [fst snd] in H. destruct H as [-> H].
      split; [cbn; tauto|now left].
    + destruct (_ || _); [|destruct H].
      destruct H as [H|[]]. inversion H. split; [cbn; tauto|right; cbn; tauto].
    + destruct (Py.isin "and/or" (Py.lower text)) eqn:E; [|destruct H].
      destruct H as [H|[]]. inversion H. split; [cbn; tauto|now left].
    + destruct (Re.found _); [|destruct H].
      destruct H as [H|[]]. inversion H. split; [cbn; tauto|right; cbn; tauto].
Qed.

Lemma translation_reads_a_prefix (env : Env) (t1 t2 : string) :
  blank t1 = false -> blank t2 = false ->
  Py.take 30000 t1 = Py.take 30000 t2 ->
  normalize_hindi_to_english env t1 <> t1 ->
  normalize_hindi_to_english env t2 = normalize_hindi_to_english env t1.
Proof.
  intros H1 H2 Ht. unfold normalize_hindi_to_english, translate_prompt.
  assert (E : forall t, blank t = false ->
                negb (Py.truthy t) || negb (Py.truthy (Py.strip t)) = false).
  { intros t Hb. unfold blank in Hb. rewrite Hb, orb_false_r.
    destruct t; [discriminate Hb|reflexivity]. }
  rewrite (E t1 H1), (E t2 H2), Ht.
  destruct (if Py.truthy (environ_get env "ANTHROPIC_API_KEY") then _ else _);
    [reflexivity|].
  destruct (if Py.truthy (environ_get env "OPENAI_API_KEY") then _ else _);
    [reflexivity|congruence].
Qed.

(** X17.  [normalize_hindi_to_english] returns the text unchanged, or,
    for a text that is not blank and with an API key set, an answer of a
    service that is stripped and not blank; so [normalize_language] keeps
    blank texts blank and the others not blank.  Only the first 30000
    characters reach the service: two texts that agree on them and are
    translated get the same translation. *)
Theorem translation_properties :
  (forall env text,
     normalize_hindi_to_english env text = text
     \/ (blank text = false
         /\ blank (normalize_hindi_to_english env text) = false
         /\ Py.strip (normalize_hindi_to_english env text)
            = normalize_hindi_to_english env text
         /\ (Py.truthy (environ_get env "ANTHROPIC_API_KEY") = true
             \/ Py.truthy (environ_get env "OPENAI_API_KEY") = true)))
  /\ (forall env text language,
        blank (normalize_language env text language) = blank text)
  /\ (forall env t1 t2,
        blank t1 = false -> blank t2 = false ->
        Py.take 30000 t1 = Py.take 30000 t2 ->
        normalize_hindi_to_english env t1 <> t1 ->
        normalize_hindi_to_english env t2 = normalize_hindi_to_english env t1).
Proof.
  split; [exact translation_cases|].
  split; [exact normalize_language_blank|exact translation_reads_a_prefix].
Qed.

Lemma enhance_unconfigured (env : Env) (h t i : string) (role : option string) :
  Py.truthy (environ_get env "ANTHROPIC_API_KEY") = false ->
  Py.truthy (environ_get env "OPENAI_API_KEY") = false ->
  enhance_explanation_with_llm env h t i role = None.
Proof. intros Ha Ho. unfold enhance_explanation_with_llm. now rewrite Ha, Ho. Qed.

Lemma enhance_answer (env : Env) (h t i out : string) (role : option string) :
  enhance_explanation_with_llm env h t i role = Some out ->
  blank out = false /\ Py.strip out = out.
Proof.
  unfold enhance_explanation_with_llm.
  destruct (Py.truthy (environ_get env "ANTHROPIC_API_KEY")).
  - destruct (usable (_call_anthropic _ _ _ _)) as [o|] eqn:Ea.
    + intros H. inversion H; subst. eapply call_anthropic_not_blank, Ea.
    + destruct (Py.truthy (environ_get env "OPENAI_API_KEY")); [|discriminate].
      intros H. eapply call_openai_not_blank, H.
  - destruct (Py.truthy (environ_get env "OPENAI_API_KEY")); [|discriminate].
    intros H. eapply call_openai_not_blank, H.
Qed.

(** X18.  [enhance_explanation_with_llm] gives nothing without an API
    key; an explanation it gives is stripped and not blank; it reads the
    first 800 characters of the clause text only; and no business role, an
    empty one and the role SME ask the same. *)
Theorem clause_explanation_requests :
  (forall env h t i role,
     Py.truthy (environ_get env "ANTHROPIC_API_KEY") = false ->
     Py.truthy (environ_get env "OPENAI_API_KEY") = false ->
     enhance_explanation_with_llm env h t i role = None)
  /\ (forall env h t i role out,
        enhance_explanation_with_llm env h t i role = Some out ->
        blank out = false /\ Py.strip out = out)
  /\ (forall env h t1 t2 i role,
        Py.take 800 t1 = Py.take 800 t2 ->
        enhance_explanation_with_llm env h t1 i role
        = enhance_explanation_with_llm env h t2 i role)
  /\ (forall env h t i,
        enhance_explanation_with_llm env h t i None
        = enhance_explanation_with_llm env h t i (Some "SME")
        /\ enhance_explanation_with_llm env h t i (Some EmptyString)
           = enhance_explanation_with_llm env h t i (Some "SME")).
Proof.
  split; [exact enhance_unconfigured|].
  split; [intros env h t i role out H; eapply enhance_answer, H|]. split.
  - intros env h t1 t2 i role Ht.
    unfold enhance_explanation_with_llm, explain_prompt. now rewrite Ht.
  - intros env h t i. split; reflexivity.
Qed.

(** *** Letter case *)

Lemma normalize_for_similarity_lower (h b : string) :
  _normalize_for_similarity (Py.lower h ++ " " ++ Py.lower b)
  = _normalize_for_similarity (h ++ " " ++ b).
Proof.
  unfold _normalize_for_similarity.
  rewrite !lower_app, !lower_idempotent. reflexivity.
Qed.

(** X4.  The keyword tests do not see letter case: the risk verdict,
    the intent, the contract type, the ambiguity findings, the termination
    conditions and the template matches of a text are those of the text in
    lower case. *)
Theorem letter_case_is_ignored (text : string) :
  (forall intent,
     clause_risk_level (Py.lower text) intent = clause_risk_level text intent)
  /\ classify_clause_intent (Py.lower text) = classify_clause_intent text
  /\ detect_contract_type (Py.lower text) = detect_contract_type text
  /\ NlpUtils.detect_ambiguity (Py.lower text) = NlpUtils.detect_ambiguity text
  /\ NlpUtils.extract_termination_conditions (Py.lower text)
     = NlpUtils.extract_termination_conditions text
  /\ (forall heading,
        clause_similarity_to_templates (Py.lower heading) (Py.lower text)
        = clause_similarity_to_templates heading text).
Proof.
  split; [|split; [|split; [|split; [|split]]]].
  - intros intent.
    rewrite (clause_risk_level_as_rules (Py.lower text) intent),
            (clause_risk_level_as_rules text intent).
    unfold classify_with. now rewrite lower_idempotent.
  - unfold classify_clause_intent. now rewrite lower_idempotent.
  - unfold detect_contract_type. now rewrite lower_idempotent.
  - unfold NlpUtils.detect_ambiguity. now rewrite lower_idempotent.
  - unfold NlpUtils.extract_termination_conditions.
    now rewrite lower_idempotent.
  - intros heading. unfold clause_similarity_to_templates.
    now rewrite normalize_for_similarity_lower.
Qed.

(* ================================================================== *)
(** ** From a flagged clause to its advice *)
(* ================================================================== *)

(** X9.  End to end: when the classifier flags a clause of the analysed
    contract and the flag has a remediation sentence, the renegotiation
    list has an entry with the number and the heading of that clause, at
    the level of the clause, which is not LOW, and the suggested change
    holds that sentence. *)
Theorem flagged_clauses_get_their_advice (env : Env) (text : string)
  (language business_role : option string) (c : Clause) (f : Flag)
  (sentence : string) :
  let r := analyze_contract env text language business_role in
  In c (s2_structured_clause_extraction_json r) ->
  In f (snd (verdict_of c)) ->
  remediation f = Some sentence ->
  exists rn,
    In rn (s6_renegotiation_suggestions r)
    /\ rn_clause_number rn = clause_number c
    /\ rn_heading rn = c_heading c
    /\ rn_risk_level rn = fst (verdict_of c)
    /\ rn_risk_level rn <> LOW
    /\ Py.isin sentence (suggested_change rn) = true.
Proof.
  intros r Hc Hf Hs.
  destruct (analyze_contract_sections env text language business_role)
    as [Hs2 [_ [_ [_ [_ Hs6]]]]].
  fold r in Hs2, Hs6. rewrite Hs2 in Hc. rewrite Hs6.
  set (rf := snd (explain_clause c)).
  destruct (explain_clause_risk c) as [Hn [Hh [Hl Hfl]]]. fold rf in Hn, Hh, Hl, Hfl.
  change (clause_risk_level (full_text_of c)
            (classify_clause_intent (full_text_of c)))
    with (verdict_of c) in Hl, Hfl.
  assert (Hsent : In sentence (sentences_of (rf_flags rf))).
  { apply sentences_of_In. exists f. rewrite Hfl. now split. }
  assert (Hlevel : rf_risk_level rf <> LOW).
  { rewrite Hl. intros Hlow.
    apply (proj1 (level_low_iff _ _)) in Hlow. destruct Hlow as [Hnone _].
    unfold flags_of in Hnone. specialize (Hnone f Hf). congruence. }
  exists (renegotiation_for_row (row_of rf)).
  split.
  - apply in_flat_map. exists rf.
    split; [apply in_map_iff; exists c; split; [reflexivity|exact Hc]|].
    rewrite renegotiation_of_classified by apply explained_flags_in_order.
    unfold suggestible. cbn [row_of rr_risk_level rr_flags].
    destruct (rf_risk_level rf); [congruence| |];
      (destruct (sentences_of (rf_flags rf)); [destruct Hsent|now left]).
  - unfold renegotiation_for_row.
    cbn [row_of rn_clause_number rn_heading rn_risk_level suggested_change
         rr_clause_number rr_heading rr_risk_level rr_flags].
    repeat split; try assumption.
    now apply isin_in_join.
Qed.

Lemma flagged_clauses_get_their_advice_witness :
  exists rn,
    In rn (s6_renegotiation_suggestions
             (analyze_contract offline_env scenario_text (Some "english")
                None))
    /\ rn_clause_number rn = clause_number scenario_termination_clause
    /\ rn_heading rn = c_heading scenario_termination_clause
    /\ rn_risk_level rn = fst (verdict_of scenario_termination_clause)
    /\ rn_risk_level rn <> LOW
    /\ Py.isin suggestion_lock_in (suggested_change rn) = true.
Proof.
  apply (flagged_clauses_get_their_advice offline_env scenario_text
           (Some "english") None scenario_termination_clause
           lock_in_or_non_cancellable suggestion_lock_in).
  - vm_compute. right. left. reflexivity.
  - vm_compute. left. reflexivity.
  - reflexivity.
Defined.

(* ================================================================== *)
(** ** File upload: [backend/extractors.py] and [backend/main.py] *)
(* ================================================================== *)

Import Extractors Main.

Lemma extract_from_pdf_result (rd : Readers) (content : bytes) :
  let '(text, err) := extract_from_pdf rd content in
  (err = None -> blank text = false /\ Py.strip text = text)
  /\ (err <> None -> text = EmptyString).
Proof.
  unfold extract_from_pdf. destruct (pdf_pages rd content) as [e|parts].
  - split; [discriminate|reflexivity].
  - destruct (Py.truthy (Py.strip (Py.join Py.nl parts))) eqn:E; cbn [negb].
    + split; [|congruence]. intros _.
      split; [now apply stripped_text_not_blank|apply strip_idempotent].
    + split; [discriminate|reflexivity].
Qed.

Lemma extract_from_docx_result (rd : Readers) (content : bytes) :
  let '(text, err) := extract_from_docx rd content in
  (err = None -> blank text = false /\ Py.strip text = text)
  /\ (err <> None -> text = EmptyString).
Proof.
  unfold extract_from_docx.
  destruct (docx_parts rd content) as [e|[paragraphs tables]].
  - split; [discriminate|reflexivity].
  - match goal with
    | |- context [negb (Py.truthy ?t)] => destruct (Py.truthy t) eqn:E
    end; cbn [negb].
    + split; [|congruence]. intros _.
      split; [now apply stripped_text_not_blank|apply strip_idempotent].
    + split; [discriminate|reflexivity].
Qed.

Lemma decode_first_result (rd : Readers) (encodings : list string)
  (content : bytes) :
  let '(text, err) := decode_first rd encodings content in
  (err = None -> Py.strip text = text)
  /\ (err <> None -> text = EmptyString).
Proof.
  induction encodings as [|enc rest IH]; cbn [decode_first].
  - split; [discriminate|reflexivity].
  - destruct (decode rd enc content) as [t|]; [|exact IH].
    split; [intros _; apply strip_idempotent|congruence].
Qed.

Lemma extraction_result (rd : Readers) (content : bytes) (filename : string) :
  let '(text, err) := extract_text_from_file rd content filename in
  (err = None -> Py.strip text = text)
  /\ (err <> None -> text = EmptyString).
Proof.
  unfold extract_text_from_file.
  destruct (endswith (Py.lower filename) ".pdf").
  { pose proof (extract_from_pdf_result rd content) as H.
    destruct (extract_from_pdf rd content) as [text err]. tauto. }
  destruct (endswith (Py.lower filename) ".docx").
  { pose proof (extract_from_docx_result rd content) as H.
    destruct (extract_from_docx rd content) as [text err]. tauto. }
  destruct (endswith (Py.lower filename) ".txt").
  { apply decode_first_result. }
  split; [discriminate|reflexivity].
Qed.

(** X23.  [extract_text_from_file]: a text that comes with no error is
    stripped, and an error comes with the empty text; a name that ends in
    none of .pdf, .docx, .txt (in any letter case) gives the error that
    names the file; a PDF or DOCX that gives no error gives a text that is
    not blank; and the letter case of the name matters to the error message
    only. *)
Theorem extracted_text (rd : Readers) (content : bytes) (filename : string) :
  let text := fst (extract_text_from_file rd content filename) in
  let err := snd (extract_text_from_file rd content filename) in
  (err = None -> Py.strip text = text)
  /\ (err <> None -> text = EmptyString)
  /\ (supported filename = false ->
        text = EmptyString
        /\ err = Some ("Unsupported format. Use PDF, DOCX, or TXT. Got: "
                       ++ filename)%string)
  /\ (endswith (Py.lower filename) ".pdf"
      || endswith (Py.lower filename) ".docx" = true ->
      err = None -> blank text = false)
  /\ extract_text_from_file rd content (Py.lower filename)
     = (if supported filename
        then extract_text_from_file rd content filename
        else (EmptyString,
              Some ("Unsupported format. Use PDF, DOCX, or TXT. Got: "
                    ++ Py.lower filename)%string)).
Proof.
  intros text err.
  pose proof (extraction_result rd content filename) as H.
  unfold text, err. destruct (extract_text_from_file rd content filename)
    as [t e] eqn:E. cbn [fst snd]. destruct H as [H1 H2].
  split; [exact H1|]. split; [exact H2|]. split; [|split].
  - unfold supported. intros Hs. apply orb_false_iff in Hs.
    destruct Hs as [Hs Ht]. apply orb_false_iff in Hs. destruct Hs as [Hp Hd].
    unfold extract_text_from_file in E. rewrite Hp, Hd, Ht in E.
    inversion E. split; reflexivity.
  - intros Hs He. unfold extract_text_from_file in E.
    destruct (endswith (Py.lower filename) ".pdf").
    + pose proof (extract_from_pdf_result rd content) as H.
      rewrite E in H. now apply H.
    + cbn [orb] in Hs. rewrite Hs in E.
      pose proof (extract_from_docx_result rd content) as H.
      rewrite E in H. now apply H.
  - rewrite <- E. unfold supported, extract_text_from_file.
    rewrite lower_idempotent.
    destruct (endswith (Py.lower filename) ".pdf"); [reflexivity|].
    destruct (endswith (Py.lower filename) ".docx"); [reflexivity|].
    destruct (endswith (Py.lower filename) ".txt"); reflexivity.
Qed.

Lemma or_else_truthy (x : option string) (default : string) :
  Py.truthy default = true -> Py.truthy (or_else x default) = true.
Proof.
  intros H. unfold or_else. destruct x as [s|]; [|exact H].
  destruct (Py.truthy s) eqn:E; [exact E|exact H].
Qed.


